(** * youtube-sync: the relay server and the endpoint reconciliation engine

    A shallow embedding of [server/server.js] (the relay), of the
    [YouTubePlayer] component, of the [useWebSocketSync] hook and of [App],
    with the properties of the synchronisation protocol proved over it.

    JavaScript numbers are IEEE-754 doubles: they are modelled by the
    kernel's primitive floats.  Wall-clock readings and timer deadlines are
    integral milliseconds ([Z]). *)

From Stdlib Require Import ZArith Floats Uint63 Lia.
From stdpp Require Import base option list strings.

Set Warnings "-register-all,-inexact-float".
Open Scope Z_scope.

(** ** JavaScript values that cross the wire *)

Module JS.

(** The result of [JSON.parse]: a JSON value.  An object is kept as its
    list of own properties, in source order. *)
Inductive json : Type :=
| JNull
| JBool (b : bool)
| JNum (x : float)
| JStr (s : string)
| JArr (items : list json)
| JObj (fields : list (string * json)).

(** [JSON.parse(text)] either throws a [SyntaxError] or returns a value. *)
Inductive parsed : Type :=
| SyntaxError
| Parsed (data : json).

(** Own-property lookup in a parsed object.  [JSON.parse] keeps the last
    of several bindings of one key. *)
Fixpoint assoc_last (k : string) (fields : list (string * json)) : option json :=
  match fields with
  | [] => None
  | (k', v) :: rest =>
      match assoc_last k rest with
      | Some w => Some w
      | None => if String.eqb k k' then Some v else None
      end
  end.

(** [data.k] for a non-null [data]; [None] is [undefined].  None of the
    property names the program reads ([type], [videoId], [action], [time],
    [timestamp], [message]) exists on the prototypes of numbers, strings,
    booleans or arrays. *)
Definition get (k : string) (data : json) : option json :=
  match data with
  | JObj fields => assoc_last k fields
  | _ => None
  end.

(** [x === "lit"] for a property read [x]. *)
Definition is_str (lit : string) (x : option json) : bool :=
  match x with
  | Some (JStr s) => String.eqb s lit
  | _ => false
  end.

Definition float_is_zero (x : float) : bool := PrimFloat.eqb x 0%float.

(** JavaScript truthiness ([if (x)], [x && ...], [!x]). *)
Definition truthy (x : option json) : bool :=
  match x with
  | None => false
  | Some JNull => false
  | Some (JBool b) => b
  | Some (JNum f) => negb (float_is_zero f || PrimFloat.is_nan f)
  | Some (JStr s) => negb (String.eqb s "")
  | Some (JArr _) => true
  | Some (JObj _) => true
  end.

(** [WebSocket.readyState]. *)
Inductive ReadyState : Type := CONNECTING | OPEN | CLOSING | CLOSED.

Definition is_open (st : ReadyState) : bool :=
  match st with OPEN => true | _ => false end.

End JS.

(** ** The relay: [server/server.js] *)

Module Relay.
Import JS.

(** A connection is the identity of its [ws] object. *)
Definition conn : Type := nat.

(** What the relay hands to [JSON.stringify] and [send].  A property whose
    value is [undefined] is left out of the text: [None]. *)
Inductive wire_out : Type :=
| OutConnected
| OutLoadVideo (videoId : option json) (timestamp : Z)
| OutAction (action : option json) (time : option json) (timestamp : Z).

Inductive log_entry : Type :=
| LogBroadcastingVideo (videoId : option json)
| LogTotalClients (size : nat)
| LogSentVideo (broadcastCount : nat)
| LogSkipping
| LogBroadcasted (broadcastCount : nat)
| LogBroadcastingAction (action time : option json)
| LogErrorParsing
| LogClientConnected
| LogClientDisconnected
| LogWebSocketError.

(** The two things a handler can do to the outside world.  The relay never
    closes or terminates a socket itself. *)
Inductive effect : Type :=
| Send (to : conn) (m : wire_out)
| Log (e : log_entry).

(** What a handler reads from its surroundings: the [k]-th call of
    [Date.now()] it makes returns [Date_now k], and [readyState c] is the
    transport state of connection [c] while it runs. *)
Record env : Type := Env {
  Date_now : nat -> Z;
  readyState : conn -> ReadyState
}.

(** [const clients = new Set()]: insertion-ordered, without duplicates. *)
Record relay : Type := Registry { clients : list conn }.

Definition Set_add (ws : conn) (cs : list conn) : list conn :=
  if bool_decide (ws ∈ cs) then cs else cs ++ [ws].

Definition Set_delete (ws : conn) (cs : list conn) : list conn :=
  filter (λ c, c ≠ ws) cs.

(** The [clients.forEach] of the LOAD_VIDEO branch; [broadcastCount] is the
    loop's counter, which is also the number of [Date.now()] calls made. *)
Fixpoint forEach_load_video (e : env) (ws : conn) (videoId : option json)
    (cs : list conn) (broadcastCount : nat) : list effect * nat :=
  match cs with
  | [] => ([], broadcastCount)
  | client :: rest =>
      if bool_decide (client ≠ ws) && is_open (readyState e client) then
        let message := OutLoadVideo videoId (Date_now e broadcastCount) in
        let '(effs, n) := forEach_load_video e ws videoId rest (S broadcastCount) in
        (Send client message :: Log (LogSentVideo (S broadcastCount)) :: effs, n)
      else
        let '(effs, n) := forEach_load_video e ws videoId rest broadcastCount in
        (Log LogSkipping :: effs, n)
  end.

(** The [clients.forEach] of the playback branch; [calls] counts the
    [Date.now()] calls made so far. *)
Fixpoint forEach_action (e : env) (ws : conn) (action time : option json)
    (cs : list conn) (calls : nat) : list effect :=
  match cs with
  | [] => []
  | client :: rest =>
      if bool_decide (client ≠ ws) && is_open (readyState e client) then
        Send client (OutAction action time (Date_now e calls))
          :: forEach_action e ws action time rest (S calls)
      else forEach_action e ws action time rest calls
  end.

Definition is_load_video (data : json) : bool :=
  is_str "LOAD_VIDEO" (get "type" data).

Definition is_playback_action (data : json) : bool :=
  truthy (get "action" data)
  && (is_str "PLAY" (get "action" data)
      || is_str "PAUSE" (get "action" data)
      || is_str "SEEK" (get "action" data)).

(** [ws.on("message", ...)].  Reading a property of [null] throws a
    [TypeError], which the handler's [catch] treats like a parse error. *)
Definition on_message (e : env) (r : relay) (ws : conn) (message : parsed)
    : list effect :=
  match message with
  | SyntaxError => [Log LogErrorParsing]
  | Parsed JNull => [Log LogErrorParsing]
  | Parsed data =>
      if is_load_video data then
        let '(effs, broadcastCount) :=
          forEach_load_video e ws (get "videoId" data) (clients r) 0 in
        Log (LogBroadcastingVideo (get "videoId" data))
          :: Log (LogTotalClients (length (clients r)))
          :: effs ++ [Log (LogBroadcasted broadcastCount)]
      else if is_playback_action data then
        Log (LogBroadcastingAction (get "action" data) (get "time" data))
          :: forEach_action e ws (get "action" data) (get "time" data) (clients r) 0
      else []
  end.

Inductive event : Type :=
| Connection (ws : conn)
| Message (ws : conn) (message : parsed)
| Close (ws : conn)
| Error (ws : conn).

(** One handler run: the registry afterwards and what was sent and logged. *)
Definition step (e : env) (r : relay) (ev : event) : relay * list effect :=
  match ev with
  | Connection ws =>
      (Registry (Set_add ws (clients r)), [Log LogClientConnected; Send ws OutConnected])
  | Message ws message => (r, on_message e r ws message)
  | Close ws => (Registry (Set_delete ws (clients r)), [Log LogClientDisconnected])
  | Error ws => (Registry (Set_delete ws (clients r)), [Log LogWebSocketError])
  end.

(** The registry after a history of events, starting from the empty set. *)
Definition run (history : list (env * event)) : relay :=
  foldl (λ r '(e, ev), (step e r ev).1) (Registry []) history.

(** The messages a handler run sent to connection [c], in order. *)
Definition copies_to (c : conn) (effs : list effect) : list wire_out :=
  omap (λ eff, match eff with
               | Send to m => if bool_decide (to = c) then Some m else None
               | Log _ => None
               end) effs.

Definition sends (effs : list effect) : list (conn * wire_out) :=
  omap (λ eff, match eff with Send to m => Some (to, m) | Log _ => None end) effs.


(** The copy of [data] the relay builds for a peer, stamped with [ts]. *)
Definition stamped (data : json) (ts : Z) : wire_out :=
  if is_load_video data then OutLoadVideo (get "videoId" data) ts
  else OutAction (get "action" data) (get "time" data) ts.

(** The handler's own test for a message it relays. *)
Definition recognised (message : parsed) : bool :=
  match message with
  | SyntaxError => false
  | Parsed data => is_load_video data || is_playback_action data
  end.



(** *** Sample registries and messages, used to exercise the model *)

(** Three connections are accepted, in this order. *)
Definition three_peers : list (env * event) :=
  let e := Env (λ _, 0) (λ _, OPEN) in
  [(e, Connection 0%nat); (e, Connection 1%nat); (e, Connection 2%nat)].

(** A SEEK to 12.5 s as an endpoint sends it. *)
Definition seek_12_5 : json :=
  JObj [("action", JStr "SEEK"); ("time", JNum 12.5%float); ("timestamp", JNum 1000%float)].

(** Every connection is open and the clock reads 42. *)
Definition all_open_at_42 : env := Env (λ _, 42) (λ _, OPEN).

(** A message that is a Session Load and carries a PLAY as well. *)
Definition load_and_play : json :=
  JObj [("type", JStr "LOAD_VIDEO"); ("videoId", JStr "dQw4w9WgXcQ");
        ("action", JStr "PLAY"); ("time", JNum 3%float)].




End Relay.

(** ** The relay: its registry, the order of a broadcast, its log *)

Module RelaySpec.
Import JS Relay.

(** What an event says about connection [D]: it was accepted, it is gone
    (closed or failed), or nothing. *)
Definition lifecycle (D : conn) (ev : event) : option bool :=
  match ev with
  | Connection ws => if bool_decide (ws = D) then Some true else None
  | Close ws | Error ws => if bool_decide (ws = D) then Some false else None
  | Message _ _ => None
  end.

(** The lifecycle events of [D] in a history, oldest first. *)
Definition lifecycle_of (D : conn) (history : list (env * event)) : list bool :=
  omap (λ h, lifecycle D h.2) history.





(** *** Samples *)

(** Three connections were accepted and the second one closed. *)
Definition second_closed : list (env * event) :=
  three_peers ++ [(all_open_at_42, Close 1%nat)].


End RelaySpec.

(** ** The endpoint: [YouTubePlayer], [useWebSocketSync] and [App] *)

Module Endpoint.
Import JS.

Local Open Scope float_scope.

(** *** Data *)

(** [role] is ['host'], ['client'] or [null] ([None]). *)
Inductive Role : Type := Host | Client.

Inductive ConnectionStatus : Type := disconnected | connecting | connected | error.

(** A message as the endpoint reads it after [JSON.parse]: the fields it
    looks at, typed as the protocol types them.  A position that is missing
    reaches the arithmetic as [NaN]. *)
Record wire_in : Type := WireIn {
  m_type : option string;
  m_videoId : option string;
  m_action : option string;
  m_time : float;
  m_timestamp : option float
}.

(** [event.data] of a socket message: text that [JSON.parse] rejects (or a
    value whose fields cannot be read), or a message. *)
Inductive inbound : Type :=
| Unparsable
| Data (data : wire_in).

(** What the endpoint sends. *)
Inductive wire_msg : Type :=
| MsgAction (action : string) (time : float) (timestamp : Z)
| MsgLoadVideo (videoId : string) (timestamp : Z).

(** The playback backend (the YouTube IFrame player) is a black box.  The
    calls that change it are recorded; how it answers, and whether a call
    throws, is decided by the environment. *)
Inductive BackendCall : Type :=
| SeekTo (seconds : float) (allowSeekAhead : bool)
| PlayVideo
| PauseVideo
| LoadVideoById (videoId : string)
| Destroy.

Record Backend : Type := MkBackend {
  be_getCurrentTime : option float;
  be_getPlayerState : option Z;
  be_accepts : BackendCall -> bool
}.

(** The functions a timer can run. [Reconnect] is the closure of the
    [connect] that created the socket, with the [role] and [hostIp] it
    captured; [ClearSyncing] belongs to one mount of the player. *)
Inductive Task : Type :=
| ClearApplyingRemoteChange
| ClearSyncing (inst : nat)
| Reconnect (role : option Role) (hostIp : string)
| PeriodicSync.

(** A pending timer; [period] is set for [setInterval]. *)
Record Timer : Type := MkTimer {
  tid : nat;
  due : Z;
  task : Task;
  period : option Z
}.

(** A [WebSocket] object with the [role] and [hostIp] its handlers closed
    over. *)
Record Socket : Type := MkSocket {
  sock_role : option Role;
  sock_hostIp : string;
  sock_state : ReadyState
}.

Inductive LogEntry : Type :=
| ConsoleLog (text : string)
| ConsoleWarn (text : string)
| ConsoleError (text : string).

Record LastSync : Type := MkLastSync {
  ls_action : string;
  ls_time : float;
  ls_timestamp : float
}.

(** The dependency array of the periodic-sync effect: [role],
    [isConnected], [isPlaying], [videoId] ([sendSyncEvent] changes with
    [role] only). *)
Definition PeriodicDeps : Type := option Role * bool * bool * string.

(** The state and refs of [App]. *)
Record App : Type := MkApp {
  role : option Role;
  hostIp : string;
  videoId : string;
  videoIdInput : string;
  isPlaying : bool;
  periodicSyncIntervalRef : option nat
}.

(** The state and refs of [useWebSocketSync]. *)
Record Hook : Type := MkHook {
  connectionStatus : ConnectionStatus;
  lastSyncAction : option LastSync;
  wsRef : option nat;
  isApplyingRemoteChangeRef : bool;
  reconnectTimeoutRef : option nat
}.

(** A mounted [YouTubePlayer]: [playerRef] tells whether [playerRef.current]
    holds the backend object; [inst] tells the mounts apart;
    [videoId_effect_deps] are the dependencies the video-loading effect last
    ran with. *)
Record Player : Type := MkPlayer {
  inst : nat;
  isReady : bool;
  playerRef : bool;
  isSyncingRef : bool;
  videoId_effect_deps : string * bool
}.

(** React's bookkeeping for the periodic-sync effect of [App]: the
    dependencies of its last run (none before the first commit) and whether
    that run returned a cleanup function. *)
Record Effects : Type := MkEffects {
  periodic_deps : option PeriodicDeps;
  periodic_cleanup : bool
}.

(** Everything outside the components: the clock, the timer queue, the
    sockets created so far (a socket's id is its index), what was sent, the
    console, the calls the backend completed, how the backend answers, and
    whether [new WebSocket] throws. *)
Record World : Type := MkWorld {
  now : Z;
  timers : list Timer;
  next_timer : nat;
  sockets : list Socket;
  sent : list (nat * wire_msg);
  console : list LogEntry;
  calls : list BackendCall;
  backend : Backend;
  ws_ctor_throws : bool;
  next_inst : nat
}.

(** One endpoint. *)
Record Endpoint : Type := MkEndpoint {
  app : App;
  hook : Hook;
  player : option Player;
  fx : Effects;
  world : World;
  mounted : bool
}.

(** *** Field updates *)

Definition set_role (v : option Role) (x : App) : App :=
  MkApp v (hostIp x) (videoId x) (videoIdInput x) (isPlaying x) (periodicSyncIntervalRef x).

Definition set_hostIp (v : string) (x : App) : App :=
  MkApp (role x) v (videoId x) (videoIdInput x) (isPlaying x) (periodicSyncIntervalRef x).

Definition set_videoId (v : string) (x : App) : App :=
  MkApp (role x) (hostIp x) v (videoIdInput x) (isPlaying x) (periodicSyncIntervalRef x).

Definition set_videoIdInput (v : string) (x : App) : App :=
  MkApp (role x) (hostIp x) (videoId x) v (isPlaying x) (periodicSyncIntervalRef x).

Definition set_isPlaying (v : bool) (x : App) : App :=
  MkApp (role x) (hostIp x) (videoId x) (videoIdInput x) v (periodicSyncIntervalRef x).

Definition set_periodicSyncIntervalRef (v : option nat) (x : App) : App :=
  MkApp (role x) (hostIp x) (videoId x) (videoIdInput x) (isPlaying x) v.

Definition set_connectionStatus (v : ConnectionStatus) (x : Hook) : Hook :=
  MkHook v (lastSyncAction x) (wsRef x) (isApplyingRemoteChangeRef x) (reconnectTimeoutRef x).

Definition set_lastSyncAction (v : option LastSync) (x : Hook) : Hook :=
  MkHook (connectionStatus x) v (wsRef x) (isApplyingRemoteChangeRef x) (reconnectTimeoutRef x).

Definition set_wsRef (v : option nat) (x : Hook) : Hook :=
  MkHook (connectionStatus x) (lastSyncAction x) v (isApplyingRemoteChangeRef x) (reconnectTimeoutRef x).

Definition set_isApplyingRemoteChangeRef (v : bool) (x : Hook) : Hook :=
  MkHook (connectionStatus x) (lastSyncAction x) (wsRef x) v (reconnectTimeoutRef x).

Definition set_reconnectTimeoutRef (v : option nat) (x : Hook) : Hook :=
  MkHook (connectionStatus x) (lastSyncAction x) (wsRef x) (isApplyingRemoteChangeRef x) v.

Definition set_isReady (v : bool) (x : Player) : Player :=
  MkPlayer (inst x) v (playerRef x) (isSyncingRef x) (videoId_effect_deps x).

Definition set_playerRef (v : bool) (x : Player) : Player :=
  MkPlayer (inst x) (isReady x) v (isSyncingRef x) (videoId_effect_deps x).

Definition set_isSyncingRef (v : bool) (x : Player) : Player :=
  MkPlayer (inst x) (isReady x) (playerRef x) v (videoId_effect_deps x).

Definition set_videoId_effect_deps (v : string * bool) (x : Player) : Player :=
  MkPlayer (inst x) (isReady x) (playerRef x) (isSyncingRef x) v.

Definition set_periodic_deps (v : option PeriodicDeps) (x : Effects) : Effects :=
  MkEffects v (periodic_cleanup x).

Definition set_periodic_cleanup (v : bool) (x : Effects) : Effects :=
  MkEffects (periodic_deps x) v.

Definition set_now (v : Z) (x : World) : World :=
  MkWorld v (timers x) (next_timer x) (sockets x) (sent x) (console x) (calls x) (backend x) (ws_ctor_throws x) (next_inst x).

Definition set_timers (v : list Timer) (x : World) : World :=
  MkWorld (now x) v (next_timer x) (sockets x) (sent x) (console x) (calls x) (backend x) (ws_ctor_throws x) (next_inst x).

Definition set_next_timer (v : nat) (x : World) : World :=
  MkWorld (now x) (timers x) v (sockets x) (sent x) (console x) (calls x) (backend x) (ws_ctor_throws x) (next_inst x).

Definition set_sockets (v : list Socket) (x : World) : World :=
  MkWorld (now x) (timers x) (next_timer x) v (sent x) (console x) (calls x) (backend x) (ws_ctor_throws x) (next_inst x).

Definition set_sent (v : list (nat * wire_msg)) (x : World) : World :=
  MkWorld (now x) (timers x) (next_timer x) (sockets x) v (console x) (calls x) (backend x) (ws_ctor_throws x) (next_inst x).

Definition set_console (v : list LogEntry) (x : World) : World :=
  MkWorld (now x) (timers x) (next_timer x) (sockets x) (sent x) v (calls x) (backend x) (ws_ctor_throws x) (next_inst x).

Definition set_calls (v : list BackendCall) (x : World) : World :=
  MkWorld (now x) (timers x) (next_timer x) (sockets x) (sent x) (console x) v (backend x) (ws_ctor_throws x) (next_inst x).

Definition set_backend (v : Backend) (x : World) : World :=
  MkWorld (now x) (timers x) (next_timer x) (sockets x) (sent x) (console x) (calls x) v (ws_ctor_throws x) (next_inst x).

Definition set_ws_ctor_throws (v : bool) (x : World) : World :=
  MkWorld (now x) (timers x) (next_timer x) (sockets x) (sent x) (console x) (calls x) (backend x) v (next_inst x).

Definition set_next_inst (v : nat) (x : World) : World :=
  MkWorld (now x) (timers x) (next_timer x) (sockets x) (sent x) (console x) (calls x) (backend x) (ws_ctor_throws x) v.

Definition set_app (v : App) (x : Endpoint) : Endpoint :=
  MkEndpoint v (hook x) (player x) (fx x) (world x) (mounted x).

Definition set_hook (v : Hook) (x : Endpoint) : Endpoint :=
  MkEndpoint (app x) v (player x) (fx x) (world x) (mounted x).

Definition set_player (v : option Player) (x : Endpoint) : Endpoint :=
  MkEndpoint (app x) (hook x) v (fx x) (world x) (mounted x).

Definition set_fx (v : Effects) (x : Endpoint) : Endpoint :=
  MkEndpoint (app x) (hook x) (player x) v (world x) (mounted x).

Definition set_world (v : World) (x : Endpoint) : Endpoint :=
  MkEndpoint (app x) (hook x) (player x) (fx x) v (mounted x).

Definition set_mounted (v : bool) (x : Endpoint) : Endpoint :=
  MkEndpoint (app x) (hook x) (player x) (fx x) (world x) v.

Definition on_app (f : App -> App) (s : Endpoint) : Endpoint := set_app (f (app s)) s.
Definition on_hook (f : Hook -> Hook) (s : Endpoint) : Endpoint := set_hook (f (hook s)) s.
Definition on_world (f : World -> World) (s : Endpoint) : Endpoint := set_world (f (world s)) s.
Definition on_fx (f : Effects -> Effects) (s : Endpoint) : Endpoint := set_fx (f (fx s)) s.
Definition on_player (f : Player -> Player) (s : Endpoint) : Endpoint :=
  set_player (f <$> player s) s.

(** *** Console, sockets, timers, backend *)

Definition console_log (text : string) (s : Endpoint) : Endpoint :=
  on_world (λ w, set_console (console w ++ [ConsoleLog text]) w) s.
Definition console_warn (text : string) (s : Endpoint) : Endpoint :=
  on_world (λ w, set_console (console w ++ [ConsoleWarn text]) w) s.
Definition console_error (text : string) (s : Endpoint) : Endpoint :=
  on_world (λ w, set_console (console w ++ [ConsoleError text]) w) s.

(** [Date.now()], as the integer it is and as a JavaScript number. *)
Definition Date_now (s : Endpoint) : Z := now (world s).
Definition number_of_ms (ms : Z) : float := PrimFloat.of_uint63 (Uint63.of_Z ms).

(** Truthiness of a number, of a string and of a timer id. *)
Definition number_truthy (x : float) : bool :=
  negb (PrimFloat.eqb x 0 || PrimFloat.is_nan x).
Definition string_truthy (x : string) : bool := negb (String.eqb x "").
Definition id_truthy (id : nat) : bool := negb (Nat.eqb id 0).

(** [wsRef.current?.readyState]. *)
Definition wsRef_readyState (s : Endpoint) : option ReadyState :=
  id ← wsRef (hook s); sock_state <$> sockets (world s) !! id.

Definition wsRef_is_open (s : Endpoint) : bool :=
  match wsRef_readyState s with Some OPEN => true | _ => false end.

(** [wsRef.current.send(JSON.stringify(m))]. *)
Definition ws_send (m : wire_msg) (s : Endpoint) : Endpoint :=
  match wsRef (hook s) with
  | Some id => on_world (λ w, set_sent (sent w ++ [(id, m)]) w) s
  | None => s
  end.

Definition set_sock_state (st : ReadyState) (k : Socket) : Socket :=
  MkSocket (sock_role k) (sock_hostIp k) st.

(** [ws.close()]: a socket that is connecting or open starts closing, and
    the browser fires its [close] event later; otherwise nothing happens. *)
Definition ws_close (id : nat) (s : Endpoint) : Endpoint :=
  match sockets (world s) !! id with
  | Some k =>
      match sock_state k with
      | CONNECTING | OPEN =>
          on_world (λ w, set_sockets (<[id := set_sock_state CLOSING k]> (sockets w)) w) s
      | CLOSING | CLOSED => s
      end
  | None => s
  end.

(** [setTimeout(task, delay)] and [setInterval(task, delay)]: timer ids are
    positive, handed out in order and never reused. *)
Definition add_timer (k : Task) (delay : Z) (every : option Z) (s : Endpoint)
    : nat * Endpoint :=
  let id := next_timer (world s) in
  (id, on_world (λ w, set_next_timer (S id)
         (set_timers (timers w ++ [MkTimer id (now w + delay) k every]) w)) s).

Definition setTimeout (k : Task) (delay : Z) (s : Endpoint) : nat * Endpoint :=
  add_timer k delay None s.

Definition setInterval (k : Task) (delay : Z) (s : Endpoint) : nat * Endpoint :=
  add_timer k delay (Some delay) s.

(** [clearTimeout(id)] and [clearInterval(id)]. *)
Definition clearTimeout (id : nat) (s : Endpoint) : Endpoint :=
  on_world (λ w, set_timers (filter (λ t, tid t ≠ id) (timers w)) w) s.

Definition clearInterval (id : nat) (s : Endpoint) : Endpoint := clearTimeout id s.

(** A statement either completes or throws; [and_then] sequences the
    statements of a [try] block and [catch] is its handler. *)
Inductive outcome : Type :=
| Done (s : Endpoint)
| Threw (s : Endpoint).

Definition and_then (o : outcome) (k : Endpoint -> outcome) : outcome :=
  match o with
  | Done s => k s
  | Threw s => Threw s
  end.

Definition catch (o : outcome) (handler : Endpoint -> Endpoint) : Endpoint :=
  match o with
  | Done s => s
  | Threw s => handler s
  end.

(** A call to the backend object: recorded when it completes. *)
Definition backend_call (c : BackendCall) (s : Endpoint) : outcome :=
  if be_accepts (backend (world s)) c
  then Done (on_world (λ w, set_calls (calls w ++ [c]) w) s)
  else Threw s.

(** *** [YouTubePlayer] *)

(** [const seekThreshold = action === "SEEK" ? 0.4 : 0.1]. *)
Definition seekThreshold (action : string) : float :=
  if String.eqb action "SEEK" then 0.4 else 0.1.

(** The latency compensation of [syncPlayer]: [nowf] is [Date.now()]. *)
Definition compensatedTime (nowf time : float) (serverTimestamp : option float) : float :=
  match serverTimestamp with
  | Some ts =>
      if number_truthy ts then
        let networkLatency := (nowf - ts) / 1000 in
        time + networkLatency
      else time
  | None => time
  end.

(** The [try] block of [syncPlayer]. *)
Definition syncPlayer_try (action : string) (compensated : float) (s : Endpoint)
    : outcome :=
  match be_getCurrentTime (backend (world s)) with
  | None => Threw s
  | Some currentTime =>
      let timeDiff := PrimFloat.abs (compensated - currentTime) in
      and_then
        (if PrimFloat.ltb (seekThreshold action) timeDiff
         then backend_call (SeekTo compensated true) s
         else Done s)
        (λ s,
          and_then
            (if String.eqb action "PLAY" then backend_call PlayVideo s
             else if String.eqb action "PAUSE" then backend_call PauseVideo s
             else if String.eqb action "SEEK" then
               Done (if PrimFloat.leb timeDiff (seekThreshold action)
                     then console_log "Time difference is within threshold, skipping seek" s
                     else s)
             else Done s)
            (λ s, Done (console_log "Successfully synced" s)))
  end.

(** [syncPlayer(action, time, serverTimestamp)] of the mounted player. *)
Definition syncPlayer (action : string) (time : float) (serverTimestamp : option float)
    (s : Endpoint) : Endpoint :=
  let s := console_log "syncPlayer called:" s in
  match player s with
  | None => s
  | Some p =>
      if negb (playerRef p) then console_warn "Cannot sync: player not initialized" s
      else if negb (isReady p) then console_warn "Cannot sync: player not ready" s
      else
        let s := on_player (set_isSyncingRef true) s in
        let compensated := compensatedTime (number_of_ms (Date_now s)) time serverTimestamp in
        let s := if match serverTimestamp with Some ts => number_truthy ts | None => false end
                 then console_log "Network latency, compensated time" s else s in
        let s := catch (syncPlayer_try action compensated s)
                       (console_error "Error syncing player:") in
        (setTimeout (ClearSyncing (inst p)) 150 s).2
  end.

(** [play()] and [pause()] of the player handle: the position before the
    call, or [undefined] ([None]). *)
Definition player_play_pause (c : BackendCall) (warning info failure : string)
    (s : Endpoint) : option float * Endpoint :=
  match player s with
  | None => (None, s)
  | Some p =>
      if negb (playerRef p) || negb (isReady p) then (None, console_warn warning s)
      else
        match be_getCurrentTime (backend (world s)) with
        | None => (None, console_error failure s)
        | Some currentTime =>
            match backend_call c s with
            | Done s => (Some currentTime, console_log info s)
            | Threw s => (None, console_error failure s)
            end
        end
  end.

Definition play (s : Endpoint) : option float * Endpoint :=
  player_play_pause PlayVideo "Cannot play: player not ready" "Playing video at"
    "Error playing video:" s.

Definition pause (s : Endpoint) : option float * Endpoint :=
  player_play_pause PauseVideo "Cannot pause: player not ready" "Pausing video at"
    "Error pausing video:" s.

(** [getCurrentTime()] of the handle: [playerRef.current?.getCurrentTime() || 0];
    [None] when the backend throws. *)
Definition handle_getCurrentTime (p : Player) (s : Endpoint) : option float :=
  if playerRef p then
    t ← be_getCurrentTime (backend (world s));
    Some (if number_truthy t then t else 0)
  else Some 0.

(** [getPlayerState()] of the handle. *)
Definition handle_getPlayerState (p : Player) (s : Endpoint) : Z :=
  if playerRef p then
    match be_getPlayerState (backend (world s)) with
    | Some st => st
    | None => (-1)%Z
    end
  else (-1)%Z.

(** *** [useWebSocketSync] *)

Definition setConnectionStatus (v : ConnectionStatus) (s : Endpoint) : Endpoint :=
  on_hook (set_connectionStatus v) s.

Definition isConnected (s : Endpoint) : bool :=
  match connectionStatus (hook s) with connected => true | _ => false end.

Definition is_client (r : option Role) : bool :=
  match r with Some Client => true | _ => false end.

Definition is_host (r : option Role) : bool :=
  match r with Some Host => true | _ => false end.

(** [connect()], as created by a render with [role = r] and [hostIp = h]. *)
Definition connect (r : option Role) (h : string) (s : Endpoint) : Endpoint :=
  if wsRef_is_open s then s
  else if negb (string_truthy h) && is_client r then s
  else
    let s := console_log "Connecting to" s in
    let s := setConnectionStatus connecting s in
    if ws_ctor_throws (world s) then
      setConnectionStatus error (console_error "Failed to create WebSocket:" s)
    else
      let id := length (sockets (world s)) in
      let s := on_world (λ w, set_sockets (sockets w ++ [MkSocket r h CONNECTING]) w) s in
      on_hook (set_wsRef (Some id)) s.

(** [disconnect()]. *)
Definition disconnect (s : Endpoint) : Endpoint :=
  let s :=
    match reconnectTimeoutRef (hook s) with
    | Some id =>
        if id_truthy id
        then on_hook (set_reconnectTimeoutRef None) (clearTimeout id s)
        else s
    | None => s
    end in
  let s :=
    match wsRef (hook s) with
    | Some id => on_hook (set_wsRef None) (ws_close id s)
    | None => s
    end in
  setConnectionStatus disconnected s.

(** [sendSyncEvent(action, time)]. *)
Definition sendSyncEvent (action : string) (time : float) (s : Endpoint) : Endpoint :=
  if isApplyingRemoteChangeRef (hook s) then
    console_log "Not sending event: currently applying remote change" s
  else if wsRef_is_open s then
    console_log "Sent sync event" (ws_send (MsgAction action time (Date_now s)) s)
  else console_warn "Cannot send sync event: WebSocket not open" s.

(** [ws.onopen]. *)
Definition onopen (s : Endpoint) : Endpoint :=
  let s := console_log "WebSocket connected" s in
  let s := setConnectionStatus connected s in
  match reconnectTimeoutRef (hook s) with
  | Some id =>
      if id_truthy id
      then on_hook (set_reconnectTimeoutRef None) (clearTimeout id s)
      else s
  | None => s
  end.

(** [ws.onerror]. *)
Definition onerror (s : Endpoint) : Endpoint :=
  setConnectionStatus error (console_error "WebSocket error:" s).

(** [ws.onclose] of a socket whose [connect] captured [r] and [h]. *)
Definition onclose (r : option Role) (h : string) (s : Endpoint) : Endpoint :=
  let s := console_log "WebSocket disconnected" s in
  let s := setConnectionStatus disconnected s in
  if is_client r && string_truthy h then
    let '(id, s) := setTimeout (Reconnect r h) 3000 s in
    on_hook (set_reconnectTimeoutRef (Some id)) s
  else s.

(** The test of the playback branch of [ws.onmessage]. *)
Definition is_sync_action (a : option string) : bool :=
  match a with
  | Some x =>
      string_truthy x
      && (String.eqb x "PLAY" || String.eqb x "PAUSE" || String.eqb x "SEEK")
  | None => false
  end.

(** [ws.onmessage], given the callbacks the hook was handed. *)
Definition onmessage
    (onSyncEvent : string -> float -> option float -> Endpoint -> Endpoint)
    (onVideoIdSync : option string -> Endpoint -> Endpoint)
    (raw : inbound) (s : Endpoint) : Endpoint :=
  let s := console_log "Raw WebSocket message received:" s in
  match raw with
  | Unparsable => console_error "Error parsing WebSocket message:" s
  | Data data =>
      let s := console_log "Parsed message:" s in
      if bool_decide (m_type data = Some "CONNECTED") then
        console_log "[CLIENT]" s
      else if bool_decide (m_type data = Some "LOAD_VIDEO") then
        let s := console_log "Received video ID sync message:" s in
        let s := console_log "Video ID:" s in
        let s := console_log "Calling onVideoIdSyncRef callback with:" s in
        console_log "Callback executed successfully" (onVideoIdSync (m_videoId data) s)
      else if is_sync_action (m_action data) then
        let action := default "" (m_action data) in
        let s := console_log "Received sync event:" s in
        let s := on_hook (set_isApplyingRemoteChangeRef true) s in
        let s := on_hook (set_lastSyncAction (Some (MkLastSync action (m_time data)
                   match m_timestamp data with
                   | Some ts => if number_truthy ts then ts else number_of_ms (Date_now s)
                   | None => number_of_ms (Date_now s)
                   end))) s in
        let s := console_log "Calling onSyncEvent callback" s in
        let s := onSyncEvent action (m_time data) (m_timestamp data) s in
        (setTimeout ClearApplyingRemoteChange 100 s).2
      else s
  end.

(** *** [App] *)

(** The handlers of [App] that belong to the protocol.  Extracting an item
    id from pasted text ([extractVideoId], [handlePaste]), the address the
    socket dials and the markup are outside it; [handleLoadVideo] is taken
    from the point where it holds the extracted id. *)

Definition setIsPlaying (v : bool) (s : Endpoint) : Endpoint := on_app (set_isPlaying v) s.
Definition setVideoId (v : string) (s : Endpoint) : Endpoint := on_app (set_videoId v) s.
Definition setVideoIdInput (v : string) (s : Endpoint) : Endpoint :=
  on_app (set_videoIdInput v) s.
Definition setRole (v : option Role) (s : Endpoint) : Endpoint := on_app (set_role v) s.
Definition setHostIp (v : string) (s : Endpoint) : Endpoint := on_app (set_hostIp v) s.

(** [handleSyncEvent(action, time, serverTimestamp)]; the [playerRef] of
    [App] holds the handle of the mounted player. *)
Definition handleSyncEvent (action : string) (time : float) (serverTimestamp : option float)
    (s : Endpoint) : Endpoint :=
  let s := console_log "handleSyncEvent called:" s in
  if is_client (role (app s)) && bool_decide (is_Some (player s)) then
    let s := console_log "Calling syncPlayer on client" s in
    let s := syncPlayer action time serverTimestamp s in
    if String.eqb action "PLAY" then setIsPlaying true s
    else if String.eqb action "PAUSE" then setIsPlaying false s
    else s
  else console_log "Sync event ignored:" s.

(** [handleVideoIdSync(videoId)]; [None] is [undefined]. *)
Definition handleVideoIdSync (v : option string) (s : Endpoint) : Endpoint :=
  let s := console_log "Received video ID sync, loading video:" s in
  match v with
  | Some id =>
      if string_truthy id then
        let s := console_log "Setting videoId state to:" s in
        let s := setVideoId id s in
        let s := setVideoIdInput id s in
        let s := setIsPlaying false s in
        console_log "Video ID set successfully, player should load:" s
      else console_warn "handleVideoIdSync called with invalid videoId" s
  | None => console_warn "handleVideoIdSync called with invalid videoId" s
  end.

(** [handlePlayerStateChange(action, time)] of [App]. *)
Definition handlePlayerStateChange (action : string) (time : float) (s : Endpoint)
    : Endpoint :=
  let s := console_log "handlePlayerStateChange called:" s in
  let connectedNow := isConnected s in
  let s := if String.eqb action "PLAY" then setIsPlaying true s
           else if String.eqb action "PAUSE" then setIsPlaying false s
           else s in
  if is_host (role (app s)) && connectedNow then
    sendSyncEvent action time (console_log "Host: Sending sync event:" s)
  else console_log "Host: Not sending event (not host or not connected)" s.

(** [selectRole(selectedRole)]. *)
Definition selectRole (selectedRole : option Role) (s : Endpoint) : Endpoint :=
  let s := if bool_decide (is_Some (role (app s))) && isConnected s
           then disconnect s else s in
  setVideoIdInput "" (setVideoId "" (setRole selectedRole s)).

(** [!text.trim()] for the ASCII white space. *)
Definition is_white (c : Ascii.ascii) : bool :=
  let n := Ascii.nat_of_ascii c in
  Nat.eqb n 32 || (Nat.leb 9 n && Nat.leb n 13).

Fixpoint trims_to_empty (text : string) : bool :=
  match text with
  | EmptyString => true
  | String c rest => is_white c && trims_to_empty rest
  end.

(** [handleConnect()]. *)
Definition handleConnect (s : Endpoint) : Endpoint :=
  if is_client (role (app s)) && trims_to_empty (hostIp (app s)) then s
  else connect (role (app s)) (hostIp (app s)) s.

(** [sendVideoIdSync(videoId)]. *)
Definition sendVideoIdSync (id : string) (s : Endpoint) : Endpoint :=
  let s := console_log "Attempting to send video ID sync:" s in
  let s := console_log "WebSocket state:" s in
  match wsRef (hook s) with
  | None => console_error "WebSocket ref not available" s
  | Some _ =>
      if wsRef_is_open s then
        console_log "Sent video ID sync:" (ws_send (MsgLoadVideo id (Date_now s)) s)
      else console_warn "WebSocket not open, readyState:" s
  end.

(** [handleLoadVideo], from the point where the id has been extracted from
    the input text (a non-empty id). *)
Definition handleLoadVideo (extractedId : string) (s : Endpoint) : Endpoint :=
  let connectedNow := isConnected s in
  let s := setVideoId extractedId s in
  let s := setVideoIdInput extractedId s in
  let s := setIsPlaying false s in
  if connectedNow then sendVideoIdSync extractedId s else s.

(** [playerRef.current && playerRef.current.isReady] in [App]. *)
Definition handle_isReady (s : Endpoint) : bool :=
  match player s with
  | Some p => isReady p
  | None => false
  end.

(** [handlePlay()] and [handlePause()]. *)
Definition handlePlay (s : Endpoint) : Endpoint :=
  if negb (handle_isReady s) then console_warn "Cannot play: player not ready" s
  else
    let connectedNow := isConnected s in
    let '(currentTime, s) := play s in
    match currentTime with
    | Some t => if connectedNow then sendSyncEvent "PLAY" t (setIsPlaying true s) else s
    | None => s
    end.

Definition handlePause (s : Endpoint) : Endpoint :=
  if negb (handle_isReady s) then console_warn "Cannot pause: player not ready" s
  else
    let connectedNow := isConnected s in
    let '(currentTime, s) := pause s in
    match currentTime with
    | Some t => if connectedNow then sendSyncEvent "PAUSE" t (setIsPlaying false s) else s
    | None => s
    end.

(** The callback of the periodic-sync interval. *)
Definition periodicSync_tick (s : Endpoint) : Endpoint :=
  match player s with
  | Some p =>
      if isReady p then
        match handle_getCurrentTime p s with
        | None => console_error "Error in periodic sync:" s
        | Some currentTime =>
            let playerState := handle_getPlayerState p s in
            if Z.eqb playerState 1 then sendSyncEvent "SEEK" currentTime s else s
        end
      else s
  | None => s
  end.

(** The condition of the periodic-sync effect. *)
Definition periodic_condition (s : Endpoint) : bool :=
  is_host (role (app s)) && isConnected s && isPlaying (app s)
  && string_truthy (videoId (app s)) && handle_isReady s.

Definition periodic_deps_now (s : Endpoint) : PeriodicDeps :=
  (role (app s), isConnected s, isPlaying (app s), videoId (app s)).

(** Both the cleanup the effect returns and its [else] branch:
    [if (ref.current) { clearInterval(ref.current); ref.current = null; }]. *)
Definition periodic_clear (s : Endpoint) : Endpoint :=
  match periodicSyncIntervalRef (app s) with
  | Some id =>
      if id_truthy id
      then on_app (set_periodicSyncIntervalRef None) (clearInterval id s)
      else s
  | None => s
  end.

(** The body of the periodic-sync effect. *)
Definition periodic_effect (s : Endpoint) : Endpoint :=
  if periodic_condition s then
    let '(id, s) := setInterval PeriodicSync 3000 s in
    let s := on_app (set_periodicSyncIntervalRef (Some id)) s in
    on_fx (set_periodic_cleanup true) s
  else on_fx (set_periodic_cleanup false) (periodic_clear s).

(** *** Rendering: what React does after a handler has run *)

#[global] Instance Role_eq_dec : EqDecision Role.
Proof. solve_decision. Defined.

(** [YouTubePlayer] is rendered under [{role && ...}] and [{videoId && ...}]. *)
Definition player_rendered (s : Endpoint) : bool :=
  bool_decide (is_Some (role (app s))) && string_truthy (videoId (app s)).

(** The effect of [YouTubePlayer] with dependencies [[videoId, isReady]]
    (here [videoId] is non-empty, the player being rendered). *)
Definition videoId_effect (p : Player) (s : Endpoint) : Endpoint :=
  if isReady p && playerRef p then
    catch (backend_call (LoadVideoById (videoId (app s)))
             (console_log "Loading video by ID:" s))
          (console_error "Error loading video:")
  else console_log "Player not ready yet, videoId will load when ready:" s.

(** Mounting, updating and unmounting the player.  Creating the backend
    object is left to the environment, which answers with [PlayerReady]. *)
Definition commit_player (s : Endpoint) : Endpoint :=
  match player s with
  | None =>
      if player_rendered s then
        let p := MkPlayer (next_inst (world s)) false false false (videoId (app s), false) in
        let s := on_world (λ w, set_next_inst (S (next_inst w)) w) s in
        videoId_effect p (set_player (Some p) s)
      else s
  | Some p =>
      if player_rendered s then
        if bool_decide (videoId_effect_deps p = (videoId (app s), isReady p)) then s
        else
          videoId_effect p
            (on_player (set_videoId_effect_deps (videoId (app s), isReady p)) s)
      else
        let s := if playerRef p
                 then catch (backend_call Destroy s) (console_error "Error destroying player:")
                 else s in
        set_player None s
  end.

(** The periodic-sync effect runs when one of its dependencies changed,
    after the cleanup its previous run returned. *)
Definition commit_periodic (s : Endpoint) : Endpoint :=
  if bool_decide (periodic_deps (fx s) = Some (periodic_deps_now s)) then s
  else
    let s := if periodic_cleanup (fx s) then periodic_clear s else s in
    let s := on_fx (set_periodic_deps (Some (periodic_deps_now s))) s in
    periodic_effect s.

Definition commit (s : Endpoint) : Endpoint :=
  if mounted s then commit_periodic (commit_player s) else s.

(** Unmounting [App]: the player is destroyed, the cleanup of the periodic
    effect runs, and the hook's cleanup calls [disconnect]. *)
Definition unmount (s : Endpoint) : Endpoint :=
  let s :=
    match player s with
    | Some p =>
        set_player None
          (if playerRef p
           then catch (backend_call Destroy s) (console_error "Error destroying player:")
           else s)
    | None => s
    end in
  let s := if periodic_cleanup (fx s) then periodic_clear s else s in
  let s := on_fx (λ _, MkEffects None false) s in
  set_mounted false (disconnect s).

(** *** Backend notifications *)

(** [onReady] of the backend. *)
Definition onReady (s : Endpoint) : Endpoint :=
  let s := console_log "YouTube player ready, current videoId:" s in
  let s := on_player (λ p, set_playerRef true (set_isReady true p)) s in
  if string_truthy (videoId (app s)) then
    catch (backend_call (LoadVideoById (videoId (app s)))
             (console_log "Loading video on ready:" s))
          (console_error "Error loading video on ready:")
  else s.

(** [handlePlayerStateChange] of [YouTubePlayer] ([onStateChange]); a
    backend that throws on [getCurrentTime] ends the handler. *)
Definition player_onStateChange (p : Player) (state : Z) (s : Endpoint) : Endpoint :=
  let s := console_log "Player state changed:" s in
  let emit (action info ignored : string) :=
    if negb (isSyncingRef p) then
      match be_getCurrentTime (backend (world s)) with
      | Some currentTime => handlePlayerStateChange action currentTime (console_log info s)
      | None => s
      end
    else console_log ignored s in
  if Z.eqb state 1 then
    emit "PLAY" "Host: Emitting PLAY event at"
         "Host: Ignoring PLAY event (syncing or no callback)"
  else if Z.eqb state 2 then
    emit "PAUSE" "Host: Emitting PAUSE event at"
         "Host: Ignoring PAUSE event (syncing or no callback)"
  else s.

(** *** Timers *)

Definition run_task (k : Task) (s : Endpoint) : Endpoint :=
  match k with
  | ClearApplyingRemoteChange => on_hook (set_isApplyingRemoteChangeRef false) s
  | ClearSyncing i =>
      match player s with
      | Some p => if Nat.eqb (inst p) i then on_player (set_isSyncingRef false) s else s
      | None => s
      end
  | Reconnect r h => connect r h (console_log "Attempting to reconnect..." s)
  | PeriodicSync => periodicSync_tick s
  end.

Definition find_timer (id : nat) (ts : list Timer) : option Timer :=
  snd <$> list_find (λ t, tid t = id) ts.

(** After it has fired, a timeout is gone and an interval is due again one
    period later. *)
Definition after_firing (t : Timer) (ts : list Timer) : list Timer :=
  match period t with
  | None => filter (λ t', tid t' ≠ tid t) ts
  | Some d =>
      (λ t', if bool_decide (tid t' = tid t)
             then MkTimer (tid t') (due t' + d) (task t') (period t') else t') <$> ts
  end.

(** A pending timer fires once its time has come (and possibly later). *)
Definition fire (id : nat) (s : Endpoint) : option Endpoint :=
  t ← find_timer id (timers (world s));
  if Z.leb (due t) (now (world s)) then
    Some (run_task (task t) (on_world (λ w, set_timers (after_firing t (timers w)) w) s))
  else None.

(** *** Events *)

Inductive Event : Type :=
| SelectRole (selectedRole : option Role)
| TypeHostIp (text : string)
| ClickConnect
| ClickDisconnect
| LoadVideo (extractedId : string)
| ClickPlay
| ClickPause
| Unmount
| Advance (ms : Z)
| TimerFires (id : nat)
| WsOpen (id : nat)
| WsMessage (id : nat) (raw : inbound)
| WsError (id : nat)
| WsClose (id : nat)
| PlayerReady
| PlayerStateChange (state : Z)
| BackendBecomes (be : Backend)
| WebSocketThrows (b : bool).

Definition socket_event (id : nat) (allowed : ReadyState -> bool)
    (next : option ReadyState) (handler : Socket -> Endpoint -> Endpoint)
    (s : Endpoint) : option Endpoint :=
  k ← sockets (world s) !! id;
  if allowed (sock_state k) then
    let s := match next with
             | Some st => on_world (λ w, set_sockets (<[id := set_sock_state st k]> (sockets w)) w) s
             | None => s
             end in
    Some (handler k s)
  else None.

(** One event: the handler it runs, or [None] when it cannot happen in
    [s]; the components are rendered again afterwards. *)
Definition handle (ev : Event) (s : Endpoint) : option Endpoint :=
  match ev with
  | SelectRole r => if mounted s then Some (selectRole r s) else None
  | TypeHostIp h => if mounted s then Some (setHostIp h s) else None
  | ClickConnect => if mounted s then Some (handleConnect s) else None
  | ClickDisconnect => if mounted s then Some (disconnect s) else None
  | LoadVideo id =>
      if mounted s && string_truthy id then Some (handleLoadVideo id s) else None
  | ClickPlay => if mounted s then Some (handlePlay s) else None
  | ClickPause => if mounted s then Some (handlePause s) else None
  | Unmount => if mounted s then Some (unmount s) else None
  | Advance ms =>
      if Z.leb 0 ms then Some (on_world (λ w, set_now (now w + ms)%Z w) s) else None
  | TimerFires id => fire id s
  | WsOpen id =>
      socket_event id (λ st, match st with CONNECTING => true | _ => false end)
        (Some OPEN) (λ _, onopen) s
  | WsMessage id raw =>
      socket_event id is_open None
        (λ _, onmessage handleSyncEvent handleVideoIdSync raw) s
  | WsError id =>
      socket_event id (λ st, match st with CLOSED => false | _ => true end)
        None (λ _, onerror) s
  | WsClose id =>
      socket_event id (λ st, match st with CLOSED => false | _ => true end)
        (Some CLOSED) (λ k, onclose (sock_role k) (sock_hostIp k)) s
  | PlayerReady =>
      match player s with
      | Some p => if isReady p then None else Some (onReady s)
      | None => None
      end
  | PlayerStateChange state =>
      match player s with
      | Some p => Some (player_onStateChange p state s)
      | None => None
      end
  | BackendBecomes be => Some (on_world (set_backend be) s)
  | WebSocketThrows b => Some (on_world (set_ws_ctor_throws b) s)
  end.

Definition step (s : Endpoint) (ev : Event) : option Endpoint :=
  commit <$> handle ev s.

Fixpoint run (s : Endpoint) (evs : list Event) : option Endpoint :=
  match evs with
  | [] => Some s
  | ev :: rest => s' ← step s ev; run s' rest
  end.

(** The endpoint when [App] has just been mounted, at time [t0]. *)
Definition init (t0 : Z) (be : Backend) : Endpoint :=
  commit
    (MkEndpoint (MkApp None "" "" "" false None)
                (MkHook disconnected None None false None)
                None
                (MkEffects None false)
                (MkWorld t0 [] 1 [] [] [] [] be false 0)
                true).

(** *** Sample sessions, used to exercise the model *)

(** A backend at a position, in a state, that completes every call. *)
Definition backend_at (position : float) (state : Z) : Backend :=
  MkBackend (Some position) (Some state) (λ _, true).

(** A Session Load as the relay forwards it. *)
Definition load_dQw : inbound :=
  Data (WireIn (Some "LOAD_VIDEO") (Some "dQw4w9WgXcQ") None 0 (Some 1700000000000)).

(** A client that dialled out to a host address and is connected. *)
Definition client_connects : list Event :=
  [SelectRole (Some Client); TypeHostIp "192.168.1.20"; ClickConnect; WsOpen 0].

(** The same client after a Session Load: the player is mounted, and then
    ready. *)
Definition client_loads : list Event := client_connects ++ [WsMessage 0 load_dQw].
Definition client_gets_ready : list Event := client_loads ++ [PlayerReady].

(** A host that is connected and has loaded an item; then its player gets
    ready and plays. *)
Definition host_loads : list Event :=
  [SelectRole (Some Host); ClickConnect; WsOpen 0; LoadVideo "dQw4w9WgXcQ"].
Definition host_plays : list Event := host_loads ++ [PlayerReady; PlayerStateChange 1].

(** The endpoint after a session that starts at time [t0] (the initial state
    if the session cannot happen). *)
Definition after (t0 : Z) (be : Backend) (evs : list Event) : Endpoint :=
  default (init t0 be) (run (init t0 be) evs).

(** The client, its backend paused at 10 s, 123 ms after the relay's stamp. *)
Definition client_ready : Endpoint :=
  after 1700000000123 (backend_at 10 2) client_gets_ready.

(** The same client before its player is ready. *)
Definition client_not_ready : Endpoint :=
  after 1700000000123 (backend_at 10 2) client_loads.

(** The host before its player is ready. *)
Definition host_not_ready : Endpoint :=
  after 1700000000000 (backend_at 10 1) host_loads.

(** The host, its backend playing at 10 s. *)
Definition host_playing : Endpoint :=
  after 1700000000000 (backend_at 10 1) host_plays.


(** A connected client disconnects by hand, the browser then delivers the
    [close] event of the socket, and three seconds later the reconnect timer
    fires. *)
Definition disconnect_by_hand : list Event :=
  client_connects ++ [ClickDisconnect; WsClose 0; Advance 3000; TimerFires 1].

(** The host plays, then its backend starts buffering; three seconds later
    the interval fires. *)
Definition host_buffers : list Event :=
  host_plays ++ [BackendBecomes (backend_at 10 3); Advance 3000].

(** A Session Load for another item. *)
Definition load_second : wire_in :=
  WireIn (Some "LOAD_VIDEO") (Some "9bZkp7q19f0") None 0 (Some 1700000000500).

End Endpoint.

(** ** Predicates and invariants of the endpoint *)

Module EndpointSpec.
Import JS Endpoint.

Local Open Scope float_scope.

(** *** Applying a remote Playback Action *)

(** The backend is ready: the player is mounted, [playerRef.current] is set
    and [onReady] has fired. *)
Definition backend_ready (s : Endpoint) : bool :=
  match player s with
  | Some p => playerRef p && isReady p
  | None => false
  end.

(** The backend completes every call made to it. *)
Definition backend_cooperates (s : Endpoint) : Prop :=
  ∀ c, be_accepts (backend (world s)) c = true.

(** The seek, if any, that applying an action with target position
    [target] issues when the backend is at [cur]. *)
Definition seek_if_beyond (threshold target cur : float) : list BackendCall :=
  if PrimFloat.ltb threshold (PrimFloat.abs (target - cur))
  then [SeekTo target true] else [].

(** The call that follows the seek decision: play for PLAY, pause for PAUSE,
    nothing for SEEK. *)
Definition play_or_pause (action : string) : list BackendCall :=
  if String.eqb action "PLAY" then [PlayVideo]
  else if String.eqb action "PAUSE" then [PauseVideo] else [].

Local Close Scope float_scope.

(** *** The timers of an endpoint: what every handler preserves *)

(** The timer is the periodic-sync interval. *)
Definition is_periodic (t : Timer) : bool :=
  match task t with PeriodicSync => true | _ => false end.

(** The part of the state the timer discipline depends on. *)
Record CoreView : Type := MkCoreView {
  cv_timers : list Timer;
  cv_next : nat;
  cv_fx : Effects;
  cv_interval : option nat;
  cv_reconnect : option nat;
  cv_mounted : bool
}.

(** The view of an endpoint. *)
Definition core (s : Endpoint) : CoreView :=
  MkCoreView (timers (world s)) (next_timer (world s)) (fx s)
    (periodicSyncIntervalRef (app s)) (reconnectTimeoutRef (hook s)) (mounted s).

(** The condition of the periodic-sync effect, on its dependencies. *)
Definition deps_ok (d : PeriodicDeps) : bool :=
  let '(r, c, p, v) := d in is_host r && c && p && string_truthy v.

(** Timer ids are positive, below the next id to hand out, and distinct; the
    periodic-sync interval is pending exactly when the last run of the effect
    returned a cleanup, it is then the timer [periodicSyncIntervalRef] names,
    and that run saw the condition hold; the id in [reconnectTimeoutRef], even
    a stale one, never names the interval. *)
Record CoreV (v : CoreView) : Prop := MkCoreV {
  cv_next_pos : (0 < cv_next v)%nat;
  cv_fresh : Forall (λ t, (0 < tid t < cv_next v)%nat) (cv_timers v);
  cv_nodup : NoDup (tid <$> cv_timers v);
  cv_periodic :
    if periodic_cleanup (cv_fx v)
    then ∃ t, cv_interval v = Some (tid t)
              ∧ filter (λ t, is_periodic t = true) (cv_timers v) = [t]
              ∧ period t = Some 3000
    else cv_interval v = None
         ∧ filter (λ t, is_periodic t = true) (cv_timers v) = [];
  cv_active : periodic_cleanup (cv_fx v) = true →
    cv_mounted v = true ∧ ∃ d, periodic_deps (cv_fx v) = Some d ∧ deps_ok d = true;
  cv_reconnect_ok : ∀ i, cv_reconnect v = Some i →
    (i < cv_next v)%nat ∧ Forall (λ t, tid t = i → is_periodic t = false) (cv_timers v)
}.

(** The timer discipline holds in [s]. *)
Definition Core (s : Endpoint) : Prop := CoreV (core s).

(** [s'] differs from [s] in nothing the timers, the outbox, the suppression
    flag or the clock depend on. *)
Definition quiet (s s' : Endpoint) : Prop :=
  core s' = core s
  ∧ sent (world s') = sent (world s)
  ∧ isApplyingRemoteChangeRef (hook s') = isApplyingRemoteChangeRef (hook s)
  ∧ now (world s') = now (world s).

(** The Playback Actions among the messages sent so far. *)
Definition is_action (m : nat * wire_msg) : bool :=
  match m.2 with MsgAction _ _ _ => true | MsgLoadVideo _ _ => false end.

Definition actions_sent (s : Endpoint) : list (nat * wire_msg) :=
  filter (λ m, is_action m = true) (sent (world s)).

(** What React guarantees once it has rendered: the timer discipline
    holds and, while [App] is mounted, the effects have seen the current
    dependencies. *)
Record Rendered (s : Endpoint) : Prop := MkRendered {
  rendered_core : Core s;
  rendered_deps : mounted s = true → periodic_deps (fx s) = Some (periodic_deps_now s);
  rendered_player : mounted s = true → ∀ p, player s = Some p →
    videoId_effect_deps p = (videoId (app s), isReady p) ∧ player_rendered s = true;
  rendered_no_player : mounted s = true → player s = None → player_rendered s = false
}.

(** The pending periodic-sync intervals. *)
Definition periodic_timers (s : Endpoint) : list Timer :=
  filter (λ t, is_periodic t = true) (timers (world s)).

(** [s'] differs from [s] at most in what was sent, and in no Playback
    Action if the suppression flag was set. *)
Definition polite (s s' : Endpoint) : Prop :=
  core s' = core s
  ∧ isApplyingRemoteChangeRef (hook s') = isApplyingRemoteChangeRef (hook s)
  ∧ now (world s') = now (world s)
  ∧ (isApplyingRemoteChangeRef (hook s) = true → actions_sent s' = actions_sent s).

(** Nothing is sent, the effects' bookkeeping is untouched, and the timer
    discipline is kept. *)
Definition tidy (s s' : Endpoint) : Prop :=
  (Core s → Core s') ∧ sent (world s') = sent (world s)
  ∧ fx s' = fx s ∧ mounted s' = mounted s.

(** The state of the timers between the cleanup of the effect and its next
    run: no interval is pending and the ref is empty. *)
Record Stopped (v : CoreView) : Prop := MkStopped {
  st_next_pos : (0 < cv_next v)%nat;
  st_fresh : Forall (λ t, (0 < tid t < cv_next v)%nat) (cv_timers v);
  st_nodup : NoDup (tid <$> cv_timers v);
  st_none : filter (λ t, is_periodic t = true) (cv_timers v) = [];
  st_ref : cv_interval v = None;
  st_reconnect_ok : ∀ i, cv_reconnect v = Some i →
    (i < cv_next v)%nat ∧ Forall (λ t, tid t = i → is_periodic t = false) (cv_timers v)
}.

(** What [periodic_clear] does to the view. *)
Definition cleared (v : CoreView) : CoreView :=
  match cv_interval v with
  | Some id =>
      if id_truthy id
      then MkCoreView (filter (λ t, tid t ≠ id) (cv_timers v)) (cv_next v) (cv_fx v)
             None (cv_reconnect v) (cv_mounted v)
      else v
  | None => v
  end.

(** The view with the bookkeeping of the effect replaced. *)
Definition with_fx (f : Effects) (v : CoreView) : CoreView :=
  MkCoreView (cv_timers v) (cv_next v) f (cv_interval v) (cv_reconnect v) (cv_mounted v).

(** With the suppression flag set before, no Playback Action is sent. *)
Definition hushed (s s' : Endpoint) : Prop :=
  isApplyingRemoteChangeRef (hook s) = true → actions_sent s' = actions_sent s.

(** What every handler guarantees: it keeps the timer discipline, sends no
    Playback Action while the flag is set, and, unless it unmounts [App],
    leaves the effects' bookkeeping alone. *)
Definition wellbehaved (s s' : Endpoint) : Prop :=
  (Core s → Core s') ∧ hushed s s'
  ∧ (mounted s' = true → fx s' = fx s ∧ mounted s = true).

(** Reduction of field reads through field updates. *)
Ltac ep_simpl :=
  cbn [
    role hostIp videoId videoIdInput isPlaying periodicSyncIntervalRef
    connectionStatus lastSyncAction wsRef isApplyingRemoteChangeRef
    reconnectTimeoutRef inst isReady playerRef isSyncingRef
    videoId_effect_deps periodic_deps periodic_cleanup now timers next_timer
    sockets sent console calls backend ws_ctor_throws next_inst app hook
    player fx world mounted tid due task period sock_role sock_hostIp
    sock_state be_getCurrentTime be_getPlayerState be_accepts set_role
    set_hostIp set_videoId set_videoIdInput set_isPlaying
    set_periodicSyncIntervalRef set_connectionStatus set_lastSyncAction
    set_wsRef set_isApplyingRemoteChangeRef set_reconnectTimeoutRef
    set_isReady set_playerRef set_isSyncingRef set_videoId_effect_deps
    set_periodic_deps set_periodic_cleanup set_now set_timers set_next_timer
    set_sockets set_sent set_console set_calls set_backend
    set_ws_ctor_throws set_next_inst set_app set_hook set_player set_fx
    set_world set_mounted set_sock_state on_app on_hook on_world on_fx
    on_player console_log console_warn console_error Date_now
    setConnectionStatus setIsPlaying setVideoId setVideoIdInput setRole
    setHostIp fmap option_fmap option_map catch and_then negb andb orb fst
    snd
  ] in *.

End EndpointSpec.

(** ** The item id typed or pasted into [App]: [extractVideoId] and
    [handleLoadVideo] *)

Module Input.
Import JS Endpoint.

(** *** Text *)

(** [text.trim()], for the ASCII white space. *)
Fixpoint trimStart (text : string) : string :=
  match text with
  | EmptyString => EmptyString
  | String c rest => if is_white c then trimStart rest else text
  end.

Fixpoint trimEnd (text : string) : string :=
  match text with
  | EmptyString => EmptyString
  | String c rest =>
      match trimEnd rest with
      | EmptyString => if is_white c then EmptyString else String c EmptyString
      | kept => String c kept
      end
  end.

Definition trim (text : string) : string := trimEnd (trimStart text).

(** Every character of [text] is in the class [P]. *)
Fixpoint all_chars (P : Ascii.ascii → bool) (text : string) : bool :=
  match text with
  | EmptyString => true
  | String c rest => P c && all_chars P rest
  end.

(** *** The two patterns of [extractVideoId] *)

(** What is left of [text] after the literal [lit] it starts with. *)
Fixpoint after_literal (lit text : string) : option string :=
  match lit with
  | EmptyString => Some text
  | String a lit' =>
      match text with
      | String b text' => if Ascii.eqb a b then after_literal lit' text' else None
      | EmptyString => None
      end
  end.

(** The class [[^&\n?#]]: [&] is character 38, the line feed 10, [?] 63
    and [#] 35. *)
Definition in_group_class (c : Ascii.ascii) : bool :=
  let n := Ascii.nat_of_ascii c in
  negb (Nat.eqb n 38 || Nat.eqb n 10 || Nat.eqb n 63 || Nat.eqb n 35).

(** A greedy [[...]+] or [[...]*] at the start of [text]: the characters
    it takes. *)
Fixpoint longest_run (P : Ascii.ascii → bool) (text : string) : string :=
  match text with
  | String c rest => if P c then String c (longest_run P rest) else EmptyString
  | EmptyString => EmptyString
  end.

(** The alternatives of the group [(?:...)] of the first pattern, in the
    order in which they are tried. *)
Definition url_markers : list string :=
  ["youtube.com/watch?v="; "youtu.be/"; "youtube.com/embed/"; "youtube.com/v/"].

(** The first pattern at the start of [text]: an alternative, then
    [([^&\n?#]+)]; the result is the capture.  When the capture would be
    empty the next alternative is tried. *)
Fixpoint match_markers (alternatives : list string) (text : string) : option string :=
  match alternatives with
  | [] => None
  | lit :: rest =>
      match after_literal lit text with
      | Some tail =>
          let capture := longest_run in_group_class tail in
          if string_truthy capture then Some capture else match_markers rest text
      | None => match_markers rest text
      end
  end.

(** [text.match(/(?:youtube\.com\/watch\?v=|...)([^&\n?#]+)/)]: the capture
    of the leftmost match. *)
Fixpoint match_url (text : string) : option string :=
  match match_markers url_markers text with
  | Some capture => Some capture
  | None =>
      match text with
      | String _ rest => match_url rest
      | EmptyString => None
      end
  end.


(** The class [[a-zA-Z0-9_-]]. *)
Definition is_id_char (c : Ascii.ascii) : bool :=
  let n := Ascii.nat_of_ascii c in
  (Nat.leb 97 n && Nat.leb n 122) || (Nat.leb 65 n && Nat.leb n 90)
  || (Nat.leb 48 n && Nat.leb n 57) || Nat.eqb n 95 || Nat.eqb n 45.

(** [text.match(/^([a-zA-Z0-9_-]{11})$/)]: the capture. *)
Definition match_id (text : string) : option string :=
  if Nat.eqb (String.length text) 11 && all_chars is_id_char text
  then Some text else None.

(** [extractVideoId(text)]; [None] is [null]. *)
Definition extractVideoId (text : string) : option string :=
  if trims_to_empty text then None
  else
    let trimmed := trim text in
    match match_url trimmed with
    | Some capture => Some capture
    | None => match_id trimmed
    end.

(** *** [handleLoadVideo], whole *)

(** What [handleLoadVideo] is called with: nothing (the Enter key), a text
    (the deferred call of [handlePaste]), or the click event that
    [onClick={handleLoadVideo}] passes. *)
Inductive LoadArgument : Type :=
| NoArgument
| TextArgument (text : string)
| ClickEvent.

(** How the call ends: it went through, it stopped at an [alert], or it
    threw before changing anything. *)
Inductive LoadResult : Type :=
| Loaded (s : Endpoint)
| Alerted (message : string)
| ThrewTypeError.

(** [const textToProcess = inputText || videoIdInput], when that is a text:
    the argument if it is a non-empty text, the input box otherwise. *)
Definition textToProcess (inputText : LoadArgument) (s : Endpoint) : string :=
  match inputText with
  | TextArgument text => if string_truthy text then text else videoIdInput (app s)
  | _ => videoIdInput (app s)
  end.

(** [handleLoadVideo(inputText = null)].  [inputText || videoIdInput] is the
    event object when one is passed, and an event has no [trim] method. *)
Definition handleLoadVideo_call (inputText : LoadArgument) (s : Endpoint) : LoadResult :=
  match inputText with
  | ClickEvent => ThrewTypeError
  | NoArgument | TextArgument _ =>
      if trims_to_empty (textToProcess inputText s)
      then Alerted "Please enter a YouTube video ID or URL"
      else
        match extractVideoId (textToProcess inputText s) with
        | None => Alerted "Invalid YouTube video ID or URL"
        | Some extractedId => Loaded (handleLoadVideo extractedId s)
        end
  end.

(** *** [handlePaste] *)

(** The call [handlePaste] defers with [setTimeout(..., 50)]:
    [handleLoadVideo(videoId)], in the closure of the render in which the
    paste happened, which holds the [isConnected] and the [videoIdInput] of
    that render. *)
Record Deferred : Type := MkDeferred {
  delay : Z;
  argument : string;
  connectedThen : bool;
  videoIdInputThen : string
}.

(** [handlePaste(e)] for the pasted text [e.clipboardData.getData("text")]:
    whether [e.preventDefault()] was called, the endpoint afterwards, and the
    deferred call. *)
Definition handlePaste (pastedText : string) (s : Endpoint)
    : bool * Endpoint * option Deferred :=
  match extractVideoId pastedText with
  | Some videoId =>
      (true, setVideoIdInput videoId s,
       Some (MkDeferred 50 videoId (isConnected s) (videoIdInput (app s))))
  | None => (false, s, None)
  end.

(** The deferred call when its timer fires in state [s]: the body of
    [handleLoadVideo] with the values its closure holds; the [sendVideoIdSync]
    it calls reads [wsRef.current] as it is by then. *)
Definition handleLoadVideo_deferred (d : Deferred) (s : Endpoint) : LoadResult :=
  let textToProcess :=
    if string_truthy (argument d) then argument d else videoIdInputThen d in
  if trims_to_empty textToProcess
  then Alerted "Please enter a YouTube video ID or URL"
  else
    match extractVideoId textToProcess with
    | None => Alerted "Invalid YouTube video ID or URL"
    | Some extractedId =>
        let s := setVideoId extractedId s in
        let s := setVideoIdInput extractedId s in
        let s := setIsPlaying false s in
        Loaded (if connectedThen d then sendVideoIdSync extractedId s else s)
    end.

(** *** Samples *)

(** A link whose id is not of the usual form. *)
Definition odd_url : string := "https://youtu.be/abc".

Definition watch_url : string := "https://www.youtube.com/watch?v=dQw4w9WgXcQ&t=42s".
Definition short_url : string := "https://youtu.be/dQw4w9WgXcQ?si=abc".

End Input.

(** ** The address [connect] dials *)

Module Dial.
Import JS Endpoint.

(** The parts of [window.location] that [connect] reads. *)
Record Location : Type := MkLocation {
  loc_hostname : string;
  loc_protocol : string;
  loc_host : string;
  loc_port : string
}.

(** [hay.includes(needle)]. *)
Fixpoint includes (needle hay : string) : bool :=
  String.prefix needle hay
  || match hay with
     | String _ rest => includes needle rest
     | EmptyString => false
     end.

(** [window.location.protocol === "https:" ? "wss:" : "ws:"]. *)
Definition pageProtocol (loc : Location) : string :=
  if String.eqb (loc_protocol loc) "https:" then "wss:" else "ws:".

(** [!hostIp.includes("localhost") && !hostIp.includes("127.0.0.1")]. *)
Definition isRemoteHost (h : string) : bool :=
  negb (includes "localhost" h) && negb (includes "127.0.0.1" h).

(** [wsUrl] as [connect] computes it for the [role] and [hostIp] it
    captured. *)
Definition wsUrl (loc : Location) (r : option Role) (h : string) : string :=
  let isLocalhost :=
    String.eqb (loc_hostname loc) "localhost"
    || String.eqb (loc_hostname loc) "127.0.0.1" in
  if is_host r then
    if isLocalhost then "ws://localhost:8080"
    else pageProtocol loc +:+ "//" +:+ loc_host loc
  else if string_truthy h then
    if isRemoteHost h then
      let protocol := pageProtocol loc in
      let port :=
        if string_truthy (loc_port loc) then loc_port loc
        else if String.eqb protocol "wss:" then "" else ":8080" in
      protocol +:+ "//" +:+ h +:+ port
    else "ws://" +:+ h +:+ ":8080"
  else pageProtocol loc +:+ "//" +:+ loc_host loc.

(** *** Samples *)

(** The page as the relay serves it on the local network, and the same page
    behind a TLS front on the default port. *)
Definition lan_page : Location :=
  MkLocation "192.168.1.20" "http:" "192.168.1.20:8080" "8080".

Definition tls_page : Location :=
  MkLocation "sync.example.org" "https:" "sync.example.org" "".

End Dial.

(** ** What an endpoint sends *)

Module Outbox.
Import JS Endpoint EndpointSpec.

(** The clock reading a message carries. *)
Definition stamp (m : wire_msg) : Z :=
  match m with
  | MsgAction _ _ timestamp => timestamp
  | MsgLoadVideo _ timestamp => timestamp
  end.

(** A Playback Action with one of the three actions, or a Session Load with
    an item id that is not empty. *)
Definition well_formed (m : wire_msg) : bool :=
  match m with
  | MsgAction action _ _ =>
      String.eqb action "PLAY" || String.eqb action "PAUSE" || String.eqb action "SEEK"
  | MsgLoadVideo videoId _ => string_truthy videoId
  end.

(** Between [s] and [s'] nothing was sent, or one message was: over the
    socket [wsRef] names in [s], which is OPEN there, stamped with the clock
    of [s]. *)
Definition sent_at_most_one (s s' : Endpoint) : Prop :=
  sent (world s') = sent (world s)
  ∨ ∃ id m, sent (world s') = sent (world s) ++ [(id, m)]
            ∧ wsRef (hook s) = Some id ∧ wsRef_is_open s = true
            ∧ stamp m = now (world s) ∧ well_formed m = true.

(** [s'] has the link of [s]: the same current socket, the same sockets, the
    same clock, the same outbox. *)
Definition same_link (s s' : Endpoint) : Prop :=
  wsRef (hook s') = wsRef (hook s)
  ∧ isApplyingRemoteChangeRef (hook s') = isApplyingRemoteChangeRef (hook s)
  ∧ sockets (world s') = sockets (world s)
  ∧ now (world s') = now (world s)
  ∧ sent (world s') = sent (world s).

(** The events whose handlers can send: loading an item, the play and
    pause buttons, a timer that fires, a notification of the backend. *)
Definition can_send (ev : Event) : bool :=
  match ev with
  | LoadVideo _ | ClickPlay | ClickPause | TimerFires _ | PlayerStateChange _ => true
  | _ => false
  end.


(** *** Samples *)

(** The host with its player ready, before it plays. *)
Definition host_ready : Endpoint :=
  after 1700000000000 (backend_at 10 1) (host_loads ++ [PlayerReady]).

End Outbox.

(** ** The wire between the endpoints and the relay *)

Module Wire.
Import JS Relay Endpoint.

Local Open Scope float_scope.

(** [JSON.parse(JSON.stringify(x))] for a number [x]: NaN and the
    infinities are written as [null], and negative zero as [0]. *)
Definition json_number (x : float) : json :=
  if PrimFloat.is_nan x || PrimFloat.is_infinity x then JNull
  else if PrimFloat.eqb x 0 then JNum 0
  else JNum x.

(** What [JSON.parse] makes, at the relay, of the text an endpoint sends:
    [JSON.stringify({ action, time, timestamp: Date.now() })] and
    [JSON.stringify({ type: "LOAD_VIDEO", videoId, timestamp: Date.now() })]. *)
Definition to_json (m : wire_msg) : json :=
  match m with
  | MsgAction action time timestamp =>
      JObj [("action", JStr action); ("time", json_number time);
            ("timestamp", JNum (number_of_ms timestamp))]
  | MsgLoadVideo videoId timestamp =>
      JObj [("type", JStr "LOAD_VIDEO"); ("videoId", JStr videoId);
            ("timestamp", JNum (number_of_ms timestamp))]
  end.

(** What the endpoint's [JSON.parse] makes of the text the relay sends.
    The result is defined when the fields have the types of the protocol: an
    item id that is a string (or left out, or [null]), a position that is a
    number (or left out). *)
Definition received (m : wire_out) : option inbound :=
  match m with
  | OutConnected => Some (Data (WireIn (Some "CONNECTED") None None nan None))
  | OutLoadVideo videoId timestamp =>
      match videoId with
      | Some (JStr id) =>
          Some (Data (WireIn (Some "LOAD_VIDEO") (Some id) None nan
                             (Some (number_of_ms timestamp))))
      | Some JNull | None =>
          Some (Data (WireIn (Some "LOAD_VIDEO") None None nan
                             (Some (number_of_ms timestamp))))
      | Some _ => None
      end
  | OutAction action time timestamp =>
      match action, time with
      | Some (JStr a), Some (JNum t) =>
          Some (Data (WireIn None None (Some a) t (Some (number_of_ms timestamp))))
      | Some (JStr a), None =>
          Some (Data (WireIn None None (Some a) nan (Some (number_of_ms timestamp))))
      | _, _ => None
      end
  end.

End Wire.

(** ** How an endpoint treats what reaches it *)

Module Behaviour.
Import JS Endpoint EndpointSpec.

(** [s] with [lines] written to the console, and nothing else changed. *)
Definition logged (lines : list LogEntry) (s : Endpoint) : Endpoint :=
  on_world (λ w, set_console (console w ++ lines) w) s.

(** A message that is neither the welcome, nor a Session Load, nor a
    Playback Action. *)
Definition unknown_shape (data : wire_in) : bool :=
  negb (bool_decide (m_type data = Some "CONNECTED"))
  && negb (bool_decide (m_type data = Some "LOAD_VIDEO"))
  && negb (is_sync_action (m_action data)).

(** The action a notification of the backend stands for: PLAY for the
    playing state (1), PAUSE for the paused state (2), none for the others. *)
Definition action_of_state (state : Z) : option string :=
  if Z.eqb state 1 then Some "PLAY"
  else if Z.eqb state 2 then Some "PAUSE" else None.

(** The two buttons of a client: the event of a click, the call it makes on
    the backend, and the action it sends. *)
Definition button_event (play : bool) : Event := if play then ClickPlay else ClickPause.
Definition button_call (play : bool) : BackendCall := if play then PlayVideo else PauseVideo.
Definition button_action (play : bool) : string := if play then "PLAY" else "PAUSE".

(** *** Samples *)

(** A connected client loses its socket, is given another host address, and
    three seconds pass. *)
Definition client_retargets : list Event :=
  client_connects ++ [WsClose 0; TypeHostIp "10.0.0.9"; Advance 3000].

(** The client with its player ready, and a backend that throws when it is
    asked for its position. *)
Definition client_failing : Endpoint :=
  on_world (set_backend (MkBackend None (Some 2) (λ _, true))) client_ready.

(** The host plays, its backend then throws when it is asked for its
    position, and three seconds pass. *)
Definition host_backend_fails : list Event :=
  host_plays ++ [BackendBecomes (MkBackend None (Some 1) (λ _, true)); Advance 3000].

End Behaviour.

(** ** The relay's HTTP side: serving the built client *)

Module StaticFiles.

(** What the handler reads of a request. *)
Record Request : Type := MkRequest {
  headers_upgrade : option string;
  url : string
}.

(** What it reads of the file system: [fs.existsSync], whether [fs.stat]
    succeeds on a regular file, and what [fs.readFile] yields ([None] when it
    fails). *)
Record FileSystem : Type := MkFileSystem {
  existsSync : string → bool;
  isFile : string → bool;
  readFile : string → option string
}.

Inductive Body : Type :=
| BuildNotFoundPage
| Forbidden
| FileNotFound
| FileData (data : string).

(** [res.writeHead(status, headers)] and [res.end(body)]; the handler
    answers at most once. *)
Inductive Response : Type :=
| NoResponse
| Respond (status : nat) (contentType : option string) (body : Body).

(** [const contentTypes = { ".html": ..., ... }]; [contentTypes[ext]] for an
    [ext] that [path.extname] returned (empty, or starting with a dot). *)
Definition contentTypes : list (string * string) :=
  [(".html", "text/html"); (".js", "application/javascript"); (".css", "text/css");
   (".json", "application/json"); (".png", "image/png"); (".jpg", "image/jpeg");
   (".svg", "image/svg+xml")].

Fixpoint lookup_type (ext : string) (table : list (string * string)) : option string :=
  match table with
  | [] => None
  | (k, v) :: rest => if String.eqb k ext then Some v else lookup_type ext rest
  end.

(** [contentTypes[ext] || "application/octet-stream"]. *)
Definition contentType (ext : string) : string :=
  default "application/octet-stream" (lookup_type ext contentTypes).

Section Handler.

(** [path.join] and [path.extname] of Node, and the build directory
    [CLIENT_BUILD_PATH]. *)
Variable path_join : string → string → string.
Variable path_extname : string → string.
Variable CLIENT_BUILD_PATH : string.

(** The file the handler decides to read, if it gets that far. *)
Definition served_path (fs : FileSystem) (req : Request) : string :=
  let filePath :=
    path_join CLIENT_BUILD_PATH
      (if String.eqb (url req) "/" then "index.html" else url req) in
  if isFile fs filePath then filePath
  else path_join CLIENT_BUILD_PATH "index.html".

(** [http.createServer((req, res) => ...)]. *)
Definition handler (fs : FileSystem) (req : Request) : Response :=
  if bool_decide (headers_upgrade req = Some "websocket") then NoResponse
  else if negb (existsSync fs CLIENT_BUILD_PATH) then
    Respond 503 (Some "text/html") BuildNotFoundPage
  else
    let filePath :=
      path_join CLIENT_BUILD_PATH
        (if String.eqb (url req) "/" then "index.html" else url req) in
    if negb (String.prefix CLIENT_BUILD_PATH filePath) then Respond 403 None Forbidden
    else
      let filePath :=
        if isFile fs filePath then filePath
        else path_join CLIENT_BUILD_PATH "index.html" in
      match readFile fs filePath with
      | None => Respond 404 None FileNotFound
      | Some data => Respond 200 (Some (contentType (path_extname filePath))) (FileData data)
      end.

End Handler.

(** *** Samples *)

(** A build directory that holds [index.html] and [assets/app.js]. *)
Definition dist : string := "/srv/client/dist".

Definition sample_fs : FileSystem :=
  MkFileSystem
    (λ p, String.eqb p dist)
    (λ p, String.eqb p "/srv/client/dist/index.html"
          || String.eqb p "/srv/client/dist/assets/app.js")
    (λ p, if String.eqb p "/srv/client/dist/index.html" then Some "<!doctype html>"
          else if String.eqb p "/srv/client/dist/assets/app.js" then Some "app()"
          else None).

(** A stand-in for [path.join] on paths that need no normalising, and for
    [path.extname] on the two files of the sample. *)
Definition sample_join (a b : string) : string :=
  match b with
  | String c _ => if Nat.eqb (Ascii.nat_of_ascii c) 47 then a +:+ b else a +:+ "/" +:+ b
  | EmptyString => a
  end.

Definition sample_extname (p : string) : string :=
  if String.eqb p "/srv/client/dist/index.html" then ".html"
  else if String.eqb p "/srv/client/dist/assets/app.js" then ".js" else "".

End StaticFiles.

(** ** Facts about the relay *)

Module RelayFacts.
Import JS Relay.

Lemma Set_add_NoDup ws cs : NoDup cs → NoDup (Set_add ws cs).
Proof.
  intros Hnd. unfold Set_add. case_bool_decide as Hin; [done|].
  apply NoDup_app. split_and!; [done| |apply NoDup_singleton].
  intros x Hx Hx'. apply list_elem_of_singleton in Hx'. by subst.
Qed.

Lemma Set_delete_NoDup ws cs : NoDup cs → NoDup (Set_delete ws cs).
Proof. intros Hnd. by apply NoDup_filter. Qed.

Lemma step_NoDup e r ev : NoDup (clients r) → NoDup (clients (step e r ev).1).
Proof.
  destruct ev; simpl; auto using Set_add_NoDup, Set_delete_NoDup.
Qed.

(** The registry never lists a connection twice. *)
Lemma run_NoDup history : NoDup (clients (run history)).
Proof.
  unfold run.
  assert (∀ r, NoDup (clients r) →
    NoDup (clients (foldl (λ r '(e, ev), (step e r ev).1) r history))) as H.
  { induction history as [|[e ev] history IH]; intros r Hr; simpl; [done|].
    apply IH, step_NoDup, Hr. }
  apply H. simpl. apply NoDup_nil_2.
Qed.

Definition eligible (e : env) (ws D : conn) : bool :=
  bool_decide (D ≠ ws) && is_open (readyState e D).

Lemma eligible_spec e ws D :
  eligible e ws D = true ↔ D ≠ ws ∧ readyState e D = OPEN.
Proof.
  unfold eligible. rewrite andb_true_iff, bool_decide_eq_true.
  destruct (readyState e D); simpl; intuition congruence.
Qed.

Lemma forEach_action_skip e ws a t D cs k :
  D ∉ cs ∨ eligible e ws D = false →
  copies_to D (forEach_action e ws a t cs k) = [].
Proof.
  revert k. induction cs as [|c cs IH]; intros k Hskip; simpl; [done|].
  assert (D ∉ cs ∨ eligible e ws D = false) as Hrest.
  { destruct Hskip as [Hni|Hne]; [left|by right]. by apply not_elem_of_cons in Hni as [_ ?]. }
  fold (eligible e ws c). destruct (eligible e ws c) eqn:Hc; [|by apply IH].
  unfold copies_to in *. simpl. case_bool_decide as Heq; [|by apply IH].
  subst c. destruct Hskip as [Hni|Hne]; [|congruence].
  exfalso. apply Hni. left.
Qed.

Lemma forEach_action_once e ws a t D cs k :
  NoDup cs → D ∈ cs → eligible e ws D = true →
  ∃ j, copies_to D (forEach_action e ws a t cs k) = [OutAction a t (Date_now e j)].
Proof.
  revert k. induction cs as [|c cs IH]; intros k Hnd Hin Hel; [by apply elem_of_nil in Hin|].
  apply NoDup_cons in Hnd as [Hc Hnd]. simpl. fold (eligible e ws c).
  destruct (decide (c = D)) as [->|Hne].
  - rewrite Hel. exists k. unfold copies_to. simpl. rewrite bool_decide_eq_true_2 by done.
    f_equal. apply (forEach_action_skip e ws a t D cs (S k)). by left.
  - apply elem_of_cons in Hin as [?|Hin]; [congruence|].
    destruct (eligible e ws c).
    + destruct (IH (S k) Hnd Hin Hel) as [j Hj]. exists j.
      unfold copies_to in *. simpl. by rewrite bool_decide_eq_false_2.
    + by apply IH.
Qed.

Lemma forEach_load_video_skip e ws v D cs k :
  D ∉ cs ∨ eligible e ws D = false →
  copies_to D (forEach_load_video e ws v cs k).1 = [].
Proof.
  revert k. induction cs as [|c cs IH]; intros k Hskip; simpl; [done|].
  assert (D ∉ cs ∨ eligible e ws D = false) as Hrest.
  { destruct Hskip as [Hni|Hne]; [left|by right]. by apply not_elem_of_cons in Hni as [_ ?]. }
  fold (eligible e ws c). destruct (eligible e ws c) eqn:Hc.
  - specialize (IH (S k) Hrest).
    destruct (forEach_load_video e ws v cs (S k)) as [effs n]. simpl in *.
    unfold copies_to in *. simpl. case_bool_decide as Heq; [|done].
    subst c. destruct Hskip as [Hni|Hne]; [|congruence].
    exfalso. apply Hni. left.
  - specialize (IH k Hrest).
    destruct (forEach_load_video e ws v cs k) as [effs n]. by simpl in *.
Qed.

Lemma forEach_load_video_once e ws v D cs k :
  NoDup cs → D ∈ cs → eligible e ws D = true →
  ∃ j, copies_to D (forEach_load_video e ws v cs k).1 = [OutLoadVideo v (Date_now e j)].
Proof.
  revert k. induction cs as [|c cs IH]; intros k Hnd Hin Hel; [by apply elem_of_nil in Hin|].
  apply NoDup_cons in Hnd as [Hc Hnd]. simpl. fold (eligible e ws c).
  destruct (decide (c = D)) as [->|Hne].
  - rewrite Hel. exists k.
    pose proof (forEach_load_video_skip e ws v D cs (S k) (or_introl Hc)) as Hs.
    destruct (forEach_load_video e ws v cs (S k)) as [effs n]. simpl in *.
    unfold copies_to in *. simpl. rewrite bool_decide_eq_true_2 by done. by f_equal.
  - apply elem_of_cons in Hin as [?|Hin]; [congruence|].
    destruct (eligible e ws c).
    + destruct (IH (S k) Hnd Hin Hel) as [j Hj]. exists j.
      destruct (forEach_load_video e ws v cs (S k)) as [effs n]. simpl in *.
      unfold copies_to in *. simpl. by rewrite bool_decide_eq_false_2.
    + destruct (IH k Hnd Hin Hel) as [j Hj]. exists j.
      destruct (forEach_load_video e ws v cs k) as [effs n]. by simpl in *.
Qed.

(** What one connection gets out of the handling of a recognised message. *)
Lemma on_message_copies e r ws data D :
  is_load_video data || is_playback_action data = true →
  NoDup (clients r) →
  (D ∈ clients r → eligible e ws D = true →
     ∃ j, copies_to D (on_message e r ws (Parsed data)) = [stamped data (Date_now e j)])
  ∧ (D ∉ clients r ∨ eligible e ws D = false →
     copies_to D (on_message e r ws (Parsed data)) = []).
Proof.
  intros Hrec Hnd.
  assert (data ≠ JNull) as Hnn by (intros ->; discriminate Hrec).
  unfold on_message, stamped.
  destruct (is_load_video data) eqn:Hlv.
  - pose proof (forEach_load_video_once e ws (get "videoId" data) D (clients r) 0 Hnd) as Honce.
    pose proof (forEach_load_video_skip e ws (get "videoId" data) D (clients r) 0) as Hskip.
    destruct (forEach_load_video e ws (get "videoId" data) (clients r) 0) as [effs n].
    simpl in *.
    assert (∀ l, copies_to D
       (Log (LogBroadcastingVideo (get "videoId" data))
        :: Log (LogTotalClients (length (clients r)))
        :: l ++ [Log (LogBroadcasted n)]) = copies_to D l) as Hwrap.
    { intros l. unfold copies_to. simpl. rewrite omap_app. simpl. by rewrite app_nil_r. }
    destruct data; try done; rewrite Hwrap; split; auto.
  - simpl in Hrec. rewrite Hrec.
    pose proof (forEach_action_once e ws (get "action" data) (get "time" data) D (clients r) 0 Hnd) as Honce.
    pose proof (forEach_action_skip e ws (get "action" data) (get "time" data) D (clients r) 0) as Hskip.
    destruct data; try done; split; auto.
Qed.



(** The branch taken by [on_message], one equation per outcome. *)
Lemma on_message_load_video e r ws data :
  is_load_video data = true →
  on_message e r ws (Parsed data) =
    Log (LogBroadcastingVideo (get "videoId" data))
      :: Log (LogTotalClients (length (clients r)))
      :: (forEach_load_video e ws (get "videoId" data) (clients r) 0).1
      ++ [Log (LogBroadcasted (forEach_load_video e ws (get "videoId" data) (clients r) 0).2)].
Proof.
  intros Hlv. unfold on_message. rewrite Hlv.
  destruct (forEach_load_video e ws (get "videoId" data) (clients r) 0) as [effs n].
  destruct data; try done.
Qed.

Lemma on_message_action e r ws data :
  is_load_video data = false → is_playback_action data = true →
  on_message e r ws (Parsed data) =
    Log (LogBroadcastingAction (get "action" data) (get "time" data))
      :: forEach_action e ws (get "action" data) (get "time" data) (clients r) 0.
Proof.
  intros Hlv Hact. unfold on_message. rewrite Hlv, Hact. destruct data; try done.
Qed.

Lemma on_message_ignored e r ws data :
  data ≠ JNull → recognised (Parsed data) = false →
  on_message e r ws (Parsed data) = [].
Proof.
  intros Hnn Hrec. simpl in Hrec. apply orb_false_iff in Hrec as [Hlv Hact].
  unfold on_message. rewrite Hlv, Hact. by destruct data.
Qed.

Lemma copies_to_sends_nil D effs : sends effs = [] → copies_to D effs = [].
Proof.
  induction effs as [|[to m|l] effs IH]; simpl; intros H; try done.
  by apply IH.
Qed.

Lemma on_message_unrecognised_sends e r ws message :
  recognised message = false → sends (on_message e r ws message) = [].
Proof.
  intros Hrec. destruct message as [|data]; [done|].
  destruct data; first [done | by rewrite on_message_ignored].
Qed.

Lemma on_message_copies_skip e r ws message D :
  D ∉ clients r ∨ eligible e ws D = false →
  copies_to D (on_message e r ws message) = [].
Proof.
  intros Hskip. destruct (recognised message) eqn:Hrec.
  - destruct message as [|data]; [done|]. simpl in Hrec.
    destruct (is_load_video data) eqn:Hlv.
    + rewrite on_message_load_video by done.
      unfold copies_to. simpl. rewrite omap_app. simpl. rewrite app_nil_r.
      by apply forEach_load_video_skip.
    + simpl in Hrec. rewrite on_message_action by done.
      unfold copies_to. simpl. by apply forEach_action_skip.
  - by apply copies_to_sends_nil, on_message_unrecognised_sends.
Qed.






(** C10. A message whose [type] is LOAD_VIDEO is relayed as a Session Load
    only: every copy sent is the LOAD_VIDEO shape, and no connection gets more
    than one copy, whatever [action] field the message carries besides. *)
Theorem relay_load_video_precedence
    (history : list (env * event)) (e : env) (ws : conn) (data : json) :
  is_load_video data = true →
  let effs := (step e (run history) (Message ws (Parsed data))).2 in
  (∀ D m, m ∈ copies_to D effs → ∃ ts, m = OutLoadVideo (get "videoId" data) ts)
  ∧ (∀ D, (length (copies_to D effs) ≤ 1)%nat).
Proof.
  intros Hlv effs. subst effs.
  change (step e (run history) (Message ws (Parsed data))).2
    with (on_message e (run history) ws (Parsed data)).
  pose proof (run_NoDup history) as Hnd.
  assert (is_load_video data || is_playback_action data = true) as Hrec
    by (by rewrite Hlv).
  assert (∀ D, copies_to D (on_message e (run history) ws (Parsed data)) = []
             ∨ ∃ j, copies_to D (on_message e (run history) ws (Parsed data))
                    = [OutLoadVideo (get "videoId" data) (Date_now e j)]) as Hcases.
  { intros D. destruct (on_message_copies e (run history) ws data D Hrec Hnd) as [Hone Hnone].
    destruct (decide (D ∈ clients (run history))) as [Hin|Hni]; [|left; auto].
    destruct (eligible e ws D) eqn:Hel; [|left; auto].
    right. destruct (Hone Hin eq_refl) as [j Hj]. exists j.
    rewrite Hj. unfold stamped. by rewrite Hlv. }
  split.
  - intros D m Hm. destruct (Hcases D) as [Hnil|[j Hj]].
    + rewrite Hnil in Hm. by apply elem_of_nil in Hm.
    + rewrite Hj in Hm. apply list_elem_of_singleton in Hm. eauto.
  - intros D. destruct (Hcases D) as [->|[j ->]]; simpl; lia.
Qed.

Lemma relay_load_video_precedence_witness :
  sends (step all_open_at_42 (run three_peers)
              (Message 0%nat (Parsed load_and_play))).2
  = [(1%nat, OutLoadVideo (Some (JStr "dQw4w9WgXcQ")) 42);
     (2%nat, OutLoadVideo (Some (JStr "dQw4w9WgXcQ")) 42)]
  ∧ (length (copies_to 1%nat
       (step all_open_at_42 (run three_peers)
             (Message 0%nat (Parsed load_and_play))).2) ≤ 1)%nat.
Proof.
  split; [reflexivity|].
  exact (proj2 (relay_load_video_precedence three_peers all_open_at_42
                  0%nat load_and_play eq_refl) 1%nat).
Defined.



End RelayFacts.

(** ** Facts about the endpoint *)

Module EndpointFacts.
Import JS Endpoint EndpointSpec.

Local Open Scope float_scope.

(** *** Applying a remote Playback Action: [syncPlayer] *)

Lemma syncPlayer_try_calls action target s cur :
  backend_cooperates s →
  be_getCurrentTime (backend (world s)) = Some cur →
  ∃ s', syncPlayer_try action target s = Done s'
    ∧ calls (world s') =
        calls (world s) ++ seek_if_beyond (seekThreshold action) target cur
                        ++ play_or_pause action
    ∧ timers (world s') = timers (world s)
    ∧ next_timer (world s') = next_timer (world s)
    ∧ now (world s') = now (world s).
Proof.
  intros Hok Hcur. unfold syncPlayer_try, seek_if_beyond, play_or_pause, backend_call.
  rewrite Hcur. unfold backend_cooperates in Hok.
  destruct (PrimFloat.ltb _ _); ep_simpl; rewrite ?Hok; ep_simpl;
    repeat (case_match; ep_simpl; rewrite ?Hok; ep_simpl);
    eexists; (split; [reflexivity|]); ep_simpl;
    rewrite <- ?app_assoc, ?app_nil_r; done.
Qed.

Lemma syncPlayer_calls s action time ts cur :
  backend_ready s = true → backend_cooperates s →
  be_getCurrentTime (backend (world s)) = Some cur →
  calls (world (syncPlayer action time ts s)) =
    calls (world s)
    ++ seek_if_beyond (seekThreshold action)
         (compensatedTime (number_of_ms (Date_now s)) time ts) cur
    ++ play_or_pause action.
Proof.
  intros Hr Hok Hcur. unfold backend_ready in Hr.
  destruct (player s) as [p|] eqn:Hp; [|done].
  apply andb_true_iff in Hr as [Href Hready].
  unfold syncPlayer. ep_simpl. rewrite Hp, Href, Hready. ep_simpl.
  set (target := compensatedTime _ _ _).
  assert (∀ s1, backend (world s1) = backend (world s) →
            calls (world s1) = calls (world s) →
            calls (world (setTimeout (ClearSyncing (inst p)) 150
                     (catch (syncPlayer_try action target s1)
                            (console_error "Error syncing player:"))).2)
            = calls (world s) ++ seek_if_beyond (seekThreshold action) target cur
                ++ play_or_pause action) as Hrest.
  { intros s1 Hbe Hcalls.
    destruct (syncPlayer_try_calls action target s1 cur) as (s2 & -> & Hcalls2 & _).
    - unfold backend_cooperates. by rewrite Hbe.
    - by rewrite Hbe.
    - unfold setTimeout, add_timer. ep_simpl. by rewrite Hcalls2, Hcalls. }
  destruct ts as [t0|]; [destruct (number_truthy t0)|]; by apply Hrest.
Qed.

(** [x <= y] excludes [y < x], for JavaScript numbers. *)
Lemma float_leb_not_ltb (x y : float) :
  PrimFloat.leb x y = true → PrimFloat.ltb y x = false.
Proof.
  rewrite FloatAxioms.leb_spec, FloatAxioms.ltb_spec. unfold SFleb, SFltb.
  assert (∀ a b c, SFcompare a b = Some c → SFcompare b a = Some (CompOpp c)) as Hanti.
  { intros a b c. destruct a as [sa|sa| |sa ma ea], b as [sb|sb| |sb mb eb]; simpl;
      try (intros [= <-]; by destruct sa, sb) ; try (intros [= <-]; by destruct sa);
      try (intros [= <-]; by destruct sb); try done.
    intros [= <-]. f_equal. destruct sa, sb; try done.
    - rewrite (Z.compare_antisym ea eb).
      destruct (ea ?= eb)%Z; simpl; try done.
      rewrite (Pos.compare_cont_antisym ma mb Eq). simpl. done.
    - rewrite (Z.compare_antisym ea eb).
      destruct (ea ?= eb)%Z; simpl; try done.
      rewrite (Pos.compare_cont_antisym ma mb Eq). simpl.
      by destruct (Pos.compare_cont Eq mb ma). }
  destruct (SFcompare (Prim2SF x) (Prim2SF y)) as [c|] eqn:Hc; [|done].
  rewrite (Hanti _ _ _ Hc). by destruct c.
Qed.

(** C2. With the backend ready, applying a remote action issues a seek to
    the compensated time exactly when its distance [d] to the backend's
    position strictly exceeds the threshold, which is 0.1 s for PLAY and PAUSE
    and 0.4 s for SEEK; with [d] at or below the threshold no seek is issued
    (SEEK then calls nothing); and PLAY calls play, PAUSE calls pause, whether
    or not a seek was issued. *)
Theorem syncPlayer_seek_threshold
    (s : Endpoint) (time : float) (serverTimestamp : option float) (cur : float) :
  backend_ready s = true → backend_cooperates s →
  be_getCurrentTime (backend (world s)) = Some cur →
  let target := compensatedTime (number_of_ms (Date_now s)) time serverTimestamp in
  let d := PrimFloat.abs (target - cur) in
  let seek threshold := if PrimFloat.ltb threshold d then [SeekTo target true] else [] in
  calls (world (syncPlayer "PLAY" time serverTimestamp s))
    = calls (world s) ++ seek 0.1 ++ [PlayVideo]
  ∧ calls (world (syncPlayer "PAUSE" time serverTimestamp s))
    = calls (world s) ++ seek 0.1 ++ [PauseVideo]
  ∧ calls (world (syncPlayer "SEEK" time serverTimestamp s))
    = calls (world s) ++ seek 0.4
  ∧ (∀ threshold, PrimFloat.leb d threshold = true → seek threshold = []).
Proof.
  intros Hr Hok Hcur target d seek.
  split_and!.
  - by rewrite (syncPlayer_calls s "PLAY" time serverTimestamp cur).
  - by rewrite (syncPlayer_calls s "PAUSE" time serverTimestamp cur).
  - rewrite (syncPlayer_calls s "SEEK" time serverTimestamp cur) by done.
    unfold play_or_pause. simpl. by rewrite app_nil_r.
  - intros threshold Hle. subst seek. simpl. by rewrite float_leb_not_ltb.
Qed.

Lemma syncPlayer_seek_threshold_witness :
  calls (world (syncPlayer "PAUSE" 10.05 None client_ready))
    = calls (world client_ready) ++ [PauseVideo]
  ∧ calls (world (syncPlayer "PAUSE" 10.20 None client_ready))
    = calls (world client_ready) ++ [SeekTo 10.20 true; PauseVideo]
  ∧ calls (world (syncPlayer "SEEK" 10.30 None client_ready))
    = calls (world client_ready)
  ∧ calls (world (syncPlayer "SEEK" 10.50 None client_ready))
    = calls (world client_ready) ++ [SeekTo 10.50 true].
Proof.
  pose proof (syncPlayer_seek_threshold client_ready 10.05 None 10
                ltac:(vm_compute; reflexivity)
                ltac:(intros c; vm_compute; reflexivity)
                ltac:(vm_compute; reflexivity))
    as (_ & Hpause & _).
  vm_compute in Hpause.
  split_and!; vm_compute; [exact Hpause | reflexivity..].
Defined.

(** C3. With a relay timestamp [Ts] present, the position that is compared
    with the threshold and sought is [time + (now - Ts) / 1000], the elapsed
    milliseconds since the stamp turned into seconds; with no timestamp it is
    [time] itself. *)
Theorem syncPlayer_latency_compensation
    (s : Endpoint) (action : string) (time cur : float) :
  backend_ready s = true → backend_cooperates s →
  be_getCurrentTime (backend (world s)) = Some cur →
  let nowf := number_of_ms (Date_now s) in
  (∀ Ts, number_truthy Ts = true →
     compensatedTime nowf time (Some Ts) = time + (nowf - Ts) / 1000
     ∧ calls (world (syncPlayer action time (Some Ts) s))
       = calls (world s)
         ++ seek_if_beyond (seekThreshold action) (time + (nowf - Ts) / 1000) cur
         ++ play_or_pause action)
  ∧ compensatedTime nowf time None = time
  ∧ calls (world (syncPlayer action time None s))
    = calls (world s) ++ seek_if_beyond (seekThreshold action) time cur
        ++ play_or_pause action.
Proof.
  intros Hr Hok Hcur nowf. subst nowf. split_and!.
  - intros Ts HTs.
    assert (compensatedTime (number_of_ms (Date_now s)) time (Some Ts)
            = time + (number_of_ms (Date_now s) - Ts) / 1000) as Hc
      by (unfold compensatedTime; by rewrite HTs).
    split; [done|]. by rewrite (syncPlayer_calls s action time (Some Ts) cur), Hc.
  - done.
  - by rewrite (syncPlayer_calls s action time None cur).
Qed.

Lemma syncPlayer_latency_compensation_witness :
  compensatedTime (number_of_ms (Date_now client_ready)) 12.5 (Some 1700000000000)
    = 12.623
  ∧ calls (world (syncPlayer "PLAY" 12.5 (Some 1700000000000) client_ready))
    = calls (world client_ready) ++ [SeekTo 12.623 true; PlayVideo].
Proof.
  pose proof (syncPlayer_latency_compensation client_ready "PLAY" 12.5 10
                ltac:(vm_compute; reflexivity)
                ltac:(intros c; vm_compute; reflexivity)
                ltac:(vm_compute; reflexivity))
    as (Hts & _).
  destruct (Hts 1700000000000 ltac:(vm_compute; reflexivity)) as (Hc & Hcalls).
  vm_compute in Hc, Hcalls.
  split; vm_compute; [exact Hc | exact Hcalls].
Defined.

(** *** The backend is not ready *)






End EndpointFacts.

(** ** The timers of the endpoint *)

Module EndpointTimers.
Import JS Endpoint EndpointSpec.

Lemma Core_same s s' : core s' = core s → Core s → Core s'.
Proof. unfold Core. by intros ->. Qed.

Lemma quiet_trans s1 s2 s3 : quiet s1 s2 → quiet s2 s3 → quiet s1 s3.
Proof. intros (?&?&?&?) (?&?&?&?). split_and!; congruence. Qed.

Lemma Core_quiet s s' : quiet s s' → Core s → Core s'.
Proof. intros (Hc & _). unfold Core. by rewrite Hc. Qed.

Lemma filter_filter_implied {A} (P Q : A → Prop) `{∀ x, Decision (P x)} `{∀ x, Decision (Q x)}
    (l : list A) :
  Forall (λ x, P x → Q x) l → filter P (filter Q l) = filter P l.
Proof.
  induction 1 as [|x l Hx Hl IH]; [done|].
  destruct (decide (P x)) as [HP|HP].
  - rewrite (filter_cons_True Q) by auto. rewrite !filter_cons_True by done. by f_equal.
  - rewrite (filter_cons_False P x l) by done.
    destruct (decide (Q x)).
    + rewrite (filter_cons_True Q) by done. by rewrite filter_cons_False.
    + by rewrite (filter_cons_False Q).
Qed.

Lemma NoDup_fmap_filter {A B} (f : A → B) (P : A → Prop) `{∀ x, Decision (P x)} (l : list A) :
  NoDup (f <$> l) → NoDup (f <$> filter P l).
Proof.
  intros Hnd. refine (sublist_NoDup _ _ Hnd _). apply fmap_sublist, sublist_filter.
Qed.

Lemma Forall_filter_keeps {A} (P Q : A → Prop) `{∀ x, Decision (Q x)} (l : list A) :
  Forall P l → Forall P (filter Q l).
Proof.
  rewrite !Forall_forall. intros HP x Hx. apply list_elem_of_filter in Hx as [_ Hx]. auto.
Qed.

(** Arming a timer that is not the periodic one. *)
Lemma CoreV_add v k d per :
  k ≠ PeriodicSync → CoreV v →
  CoreV (MkCoreView (cv_timers v ++ [MkTimer (cv_next v) d k per]) (S (cv_next v))
           (cv_fx v) (cv_interval v) (cv_reconnect v) (cv_mounted v)).
Proof.
  intros Hk [Hpos Hf Hn Hp Ha Hr]. split; simpl.
  - lia.
  - apply Forall_app. split.
    + eapply Forall_impl; [exact Hf|]. simpl. intros; lia.
    + apply Forall_singleton. simpl. lia.
  - rewrite fmap_app. apply NoDup_app. split_and!; [done| |apply NoDup_singleton].
    intros x Hx Hx'. apply list_elem_of_singleton in Hx'. simpl in Hx'. subst x.
    apply list_elem_of_fmap in Hx as (t & Ht & Hin).
    rewrite Forall_forall in Hf. specialize (Hf t Hin). lia.
  - rewrite filter_app.
    rewrite (filter_cons_False _ (MkTimer _ _ _ _)), filter_nil, app_nil_r; [done|].
    unfold is_periodic. simpl. by destruct k.
  - done.
  - intros i Hi. destruct (Hr i Hi) as [Hlt Hall]. split; [lia|].
    apply Forall_app. split; [done|]. apply Forall_singleton. simpl. lia.
Qed.

(** Arming the reconnect timer and remembering its id. *)
Lemma CoreV_add_reconnect v r h d :
  CoreV v →
  CoreV (MkCoreView (cv_timers v ++ [MkTimer (cv_next v) d (Reconnect r h) None])
           (S (cv_next v)) (cv_fx v) (cv_interval v) (Some (cv_next v)) (cv_mounted v)).
Proof.
  intros Hv. pose proof (CoreV_add v (Reconnect r h) d None) as Hadd.
  destruct Hadd as [Hpos Hf Hn Hp Ha _]; [done|done|].
  split; try done. simpl in *. intros i [= <-]. split; [lia|].
  apply Forall_app. split.
  - destruct Hv as [_ Hf' _ _ _ _]. eapply Forall_impl; [exact Hf'|]. simpl. intros; lia.
  - by apply Forall_singleton.
Qed.

(** [clearTimeout(reconnectTimeoutRef.current)] and forgetting the id. *)
Lemma CoreV_clear_reconnect v i :
  cv_reconnect v = Some i → CoreV v →
  CoreV (MkCoreView (filter (λ t, tid t ≠ i) (cv_timers v)) (cv_next v)
           (cv_fx v) (cv_interval v) None (cv_mounted v)).
Proof.
  intros Hi [Hpos Hf Hn Hp Ha Hr]. destruct (Hr i Hi) as [_ Hnp].
  split; simpl; try done.
  - by apply Forall_filter_keeps.
  - by apply NoDup_fmap_filter.
  - rewrite filter_filter_implied; [done|].
    eapply Forall_impl; [exact Hnp|]. simpl. intros t Ht Hper Heq.
    rewrite (Ht Heq) in Hper. done.
Qed.

(** A timer that is not the periodic one has fired and is gone. *)
Lemma CoreV_fired_timeout v t :
  t ∈ cv_timers v → is_periodic t = false → CoreV v →
  CoreV (MkCoreView (filter (λ t', tid t' ≠ tid t) (cv_timers v)) (cv_next v)
           (cv_fx v) (cv_interval v) (cv_reconnect v) (cv_mounted v)).
Proof.
  intros Hin Hnp [Hpos Hf Hn Hp Ha Hr]. split; simpl; try done.
  - by apply Forall_filter_keeps.
  - by apply NoDup_fmap_filter.
  - rewrite filter_filter_implied; [done|].
    apply Forall_forall. intros t' Hin' Hper Heq.
    assert (t' = t) as ->; [|congruence].
    apply list_elem_of_lookup in Hin as [j Hj], Hin' as [j' Hj'].
    assert (j' = j) as ->; [|congruence].
    eapply NoDup_lookup; [exact Hn| |]; rewrite list_lookup_fmap.
    + by rewrite Hj'.
    + rewrite Hj. simpl. by rewrite Heq.
  - intros i Hi. destruct (Hr i Hi). split; [done|]. by apply Forall_filter_keeps.
Qed.

Lemma filter_periodic_fmap (f : Timer → Timer) (l : list Timer) :
  (∀ t, is_periodic (f t) = is_periodic t) →
  filter (λ t, is_periodic t = true) (f <$> l)
  = f <$> filter (λ t, is_periodic t = true) l.
Proof.
  intros Hper. induction l as [|t l IH]; [done|]. rewrite fmap_cons.
  destruct (decide (is_periodic t = true)) as [Ht|Ht].
  - rewrite !filter_cons_True by (by rewrite ?Hper). rewrite fmap_cons. by f_equal.
  - rewrite !filter_cons_False by (by rewrite ?Hper). done.
Qed.

(** An interval has fired and is due again one period later. *)
Lemma CoreV_fired_interval v (f : Timer → Timer) :
  (∀ t, tid (f t) = tid t ∧ task (f t) = task t ∧ period (f t) = period t) →
  CoreV v →
  CoreV (MkCoreView (f <$> cv_timers v) (cv_next v)
           (cv_fx v) (cv_interval v) (cv_reconnect v) (cv_mounted v)).
Proof.
  intros Hf' [Hpos Hf Hn Hp Ha Hr].
  assert (∀ t, is_periodic (f t) = is_periodic t) as Hper.
  { intros t. unfold is_periodic. by destruct (Hf' t) as (_ & -> & _). }
  assert (tid <$> (f <$> cv_timers v) = tid <$> cv_timers v) as Hids.
  { rewrite <- list_fmap_compose. apply list_fmap_ext. intros j t _. simpl. apply Hf'. }
  pose proof (filter_periodic_fmap f (cv_timers v) Hper) as Hfilter.
  split; simpl; try done.
  - apply Forall_fmap. eapply Forall_impl; [exact Hf|]. simpl. intros t.
    by destruct (Hf' t) as (-> & _).
  - by rewrite Hids.
  - rewrite Hfilter. destruct (periodic_cleanup (cv_fx v)).
    + destruct Hp as (t & Hint & -> & Hperiod). exists (f t).
      destruct (Hf' t) as (-> & _ & ->). done.
    + destruct Hp as [? ->]. done.
  - intros i Hi. destruct (Hr i Hi) as [? Hall]. split; [done|].
    apply Forall_fmap. eapply Forall_impl; [exact Hall|]. simpl. intros t.
    rewrite Hper. by destruct (Hf' t) as (-> & _).
Qed.

(** **** Handlers that leave timers, outbox, flag and clock alone *)

Ltac quiet_by_computation := by (split_and!; reflexivity).

Lemma catch_backend_call_quiet c text s :
  quiet s (catch (backend_call c s) (console_error text)).
Proof. unfold backend_call. by destruct (be_accepts _ _). Qed.

Lemma ws_close_quiet id s : quiet s (ws_close id s).
Proof.
  unfold ws_close. destruct (sockets (world s) !! id) as [k|]; [|done].
  by destruct (sock_state k).
Qed.

Lemma syncPlayer_try_quiet action target text s :
  quiet s (catch (syncPlayer_try action target s) (console_error text)).
Proof.
  unfold syncPlayer_try, backend_call.
  destruct (be_getCurrentTime _); [|done].
  destruct (PrimFloat.ltb _ _); ep_simpl.
  - destruct (be_accepts _ (SeekTo _ _)); ep_simpl; [|done].
    repeat (case_match; ep_simpl; try done).
  - repeat (case_match; ep_simpl; try done).
Qed.

Lemma player_play_pause_quiet c warning info failure s :
  quiet s (player_play_pause c warning info failure s).2.
Proof.
  unfold player_play_pause, backend_call.
  repeat (case_match; ep_simpl; simplify_eq; try done).
Qed.

Lemma connect_quiet r h s : quiet s (connect r h s).
Proof. unfold connect. repeat (case_match; ep_simpl; try done). Qed.

Lemma handleVideoIdSync_quiet v s : quiet s (handleVideoIdSync v s).
Proof. unfold handleVideoIdSync. repeat (case_match; ep_simpl; try done). Qed.

Lemma videoId_effect_quiet p s : quiet s (videoId_effect p s).
Proof.
  unfold videoId_effect. destruct (isReady p && playerRef p); [|done].
  eapply quiet_trans; [|apply catch_backend_call_quiet]. done.
Qed.

Lemma commit_player_quiet s : quiet s (commit_player s).
Proof.
  unfold commit_player. destruct (player s) as [p|] eqn:Hp.
  - destruct (player_rendered s).
    + case_bool_decide; [done|].
      eapply quiet_trans; [|apply videoId_effect_quiet]. done.
    + destruct (playerRef p); [|done].
      eapply quiet_trans; [apply (catch_backend_call_quiet Destroy)|done].
  - destruct (player_rendered s); [|done].
    eapply quiet_trans; [|apply videoId_effect_quiet]. done.
Qed.

Lemma onReady_quiet s : quiet s (onReady s).
Proof.
  unfold onReady. ep_simpl. destruct (string_truthy _); [|done].
  eapply quiet_trans; [|apply catch_backend_call_quiet]. done.
Qed.

Lemma onerror_quiet s : quiet s (onerror s).
Proof. done. Qed.

(** **** Handlers that may send *)

Lemma quiet_polite s s' : quiet s s' → polite s s'.
Proof. intros (?&Hs&?&?). split_and!; try done. intros _. unfold actions_sent. by rewrite Hs. Qed.

Lemma polite_trans s1 s2 s3 : polite s1 s2 → polite s2 s3 → polite s1 s3.
Proof.
  intros (?&Hf&?&H12) (?&?&?&H23). split_and!; try congruence.
  intros Hflag. rewrite H23, H12; congruence.
Qed.

Lemma sendSyncEvent_polite action time s : polite s (sendSyncEvent action time s).
Proof.
  unfold sendSyncEvent.
  destruct (isApplyingRemoteChangeRef (hook s)) eqn:Hflag; [by apply quiet_polite|].
  destruct (wsRef_is_open s); [|by apply quiet_polite].
  unfold ws_send.
  destruct (wsRef (hook s)); (split_and!; [reflexivity..|]); intros; congruence.
Qed.

Lemma sendVideoIdSync_polite id s : polite s (sendVideoIdSync id s).
Proof.
  unfold sendVideoIdSync. ep_simpl. destruct (wsRef (hook s)) eqn:Hws; [|by apply quiet_polite].
  destruct (wsRef_is_open _); [|by apply quiet_polite].
  unfold ws_send. ep_simpl. rewrite Hws. (split_and!; [reflexivity..|]).
  intros _. unfold actions_sent. ep_simpl. rewrite filter_app.
  rewrite filter_cons_False by done. by rewrite filter_nil, app_nil_r.
Qed.

Lemma handleLoadVideo_polite id s : polite s (handleLoadVideo id s).
Proof.
  unfold handleLoadVideo. destruct (isConnected s); [|by apply quiet_polite].
  eapply polite_trans; [|apply sendVideoIdSync_polite]. by apply quiet_polite.
Qed.

Lemma handlePlayerStateChange_polite action time s :
  polite s (handlePlayerStateChange action time s).
Proof.
  unfold handlePlayerStateChange.
  set (s1 := if String.eqb action "PLAY" then _ else _).
  assert (quiet s s1) as Hq by (subst s1; repeat (case_match; ep_simpl; try done)).
  destruct (is_host _ && _).
  - eapply polite_trans; [|apply sendSyncEvent_polite].
    apply quiet_polite. eapply quiet_trans; [exact Hq|done].
  - apply quiet_polite. eapply quiet_trans; [exact Hq|done].
Qed.

Lemma handlePlay_polite s : polite s (handlePlay s).
Proof.
  unfold handlePlay. destruct (negb (handle_isReady s)); [by apply quiet_polite|].
  pose proof (player_play_pause_quiet PlayVideo "Cannot play: player not ready"
    "Playing video at" "Error playing video:" s) as Hq.
  unfold play. destruct (player_play_pause _ _ _ _ s) as [[t|] s1]; simpl in *;
    [|by apply quiet_polite].
  destruct (isConnected s); [|by apply quiet_polite].
  eapply polite_trans; [|apply sendSyncEvent_polite].
  apply quiet_polite. eapply quiet_trans; [exact Hq|done].
Qed.

Lemma handlePause_polite s : polite s (handlePause s).
Proof.
  unfold handlePause. destruct (negb (handle_isReady s)); [by apply quiet_polite|].
  pose proof (player_play_pause_quiet PauseVideo "Cannot pause: player not ready"
    "Pausing video at" "Error pausing video:" s) as Hq.
  unfold pause. destruct (player_play_pause _ _ _ _ s) as [[t|] s1]; simpl in *;
    [|by apply quiet_polite].
  destruct (isConnected s); [|by apply quiet_polite].
  eapply polite_trans; [|apply sendSyncEvent_polite].
  apply quiet_polite. eapply quiet_trans; [exact Hq|done].
Qed.

Lemma periodicSync_tick_polite s : polite s (periodicSync_tick s).
Proof.
  unfold periodicSync_tick. destruct (player s) as [p|]; [|by apply quiet_polite].
  destruct (isReady p); [|by apply quiet_polite].
  destruct (handle_getCurrentTime p s); [|by apply quiet_polite].
  destruct (Z.eqb _ 1); [apply sendSyncEvent_polite|by apply quiet_polite].
Qed.

Lemma player_onStateChange_polite p state s : polite s (player_onStateChange p state s).
Proof.
  unfold player_onStateChange.
  assert (∀ action info ignored,
    polite s (if negb (isSyncingRef p) then
                match be_getCurrentTime (backend (world (console_log "Player state changed:" s))) with
                | Some currentTime =>
                    handlePlayerStateChange action currentTime
                      (console_log info (console_log "Player state changed:" s))
                | None => console_log "Player state changed:" s
                end
              else console_log ignored (console_log "Player state changed:" s))) as Hemit.
  { intros action info ignored. destruct (negb (isSyncingRef p)); [|by apply quiet_polite].
    destruct (be_getCurrentTime _); [|by apply quiet_polite].
    eapply polite_trans; [|apply handlePlayerStateChange_polite]. by apply quiet_polite. }
  destruct (Z.eqb state 1); [apply Hemit|].
  destruct (Z.eqb state 2); [apply Hemit|]. by apply quiet_polite.
Qed.

(** **** Handlers that arm or clear timers *)

Lemma core_fx_mounted s s' : core s' = core s → fx s' = fx s ∧ mounted s' = mounted s.
Proof. intros [= _ _ ? _ _ ?]. done. Qed.

Lemma quiet_tidy s s' : quiet s s' → tidy s s'.
Proof.
  intros Hq. split; [by apply Core_quiet|]. destruct Hq as (Hc & ? & _).
  split; [done|]. by apply core_fx_mounted.
Qed.

Lemma tidy_trans s1 s2 s3 : tidy s1 s2 → tidy s2 s3 → tidy s1 s3.
Proof. intros (?&?&?&?) (?&?&?&?). split_and!; [auto|congruence..]. Qed.

Lemma tidy_refl s : tidy s s.
Proof. by split. Qed.

Lemma setTimeout_tidy k d s : k ≠ PeriodicSync → tidy s (setTimeout k d s).2.
Proof.
  intros Hk. split; [|done]. unfold Core. intros Hc.
  by apply (CoreV_add (core s) k (now (world s) + d) None).
Qed.

Lemma clear_reconnect_tidy s :
  tidy s match reconnectTimeoutRef (hook s) with
         | Some id =>
             if id_truthy id
             then on_hook (set_reconnectTimeoutRef None) (clearTimeout id s)
             else s
         | None => s
         end.
Proof.
  destruct (reconnectTimeoutRef (hook s)) as [i|] eqn:Hi; [|apply tidy_refl].
  destruct (id_truthy i); [|apply tidy_refl].
  split; [|done]. unfold Core. intros Hc.
  by apply (CoreV_clear_reconnect (core s) i).
Qed.

Lemma disconnect_tidy s : tidy s (disconnect s).
Proof.
  unfold disconnect.
  eapply tidy_trans; [apply clear_reconnect_tidy|].
  set (s1 := match reconnectTimeoutRef (hook s) with Some _ => _ | None => _ end).
  apply quiet_tidy. destruct (wsRef (hook s1)); [|done].
  eapply quiet_trans; [apply ws_close_quiet|done].
Qed.

Lemma onopen_tidy s : tidy s (onopen s).
Proof.
  unfold onopen.
  eapply tidy_trans; [|apply clear_reconnect_tidy]. by apply quiet_tidy.
Qed.

Lemma onclose_tidy r h s : tidy s (onclose r h s).
Proof.
  unfold onclose. destruct (is_client r && string_truthy h); [|by apply quiet_tidy].
  split; [|done]. unfold Core. intros Hc.
  by apply (CoreV_add_reconnect (core s) r h (now (world s) + 3000)).
Qed.

Lemma syncPlayer_tidy action time ts s : tidy s (syncPlayer action time ts s).
Proof.
  unfold syncPlayer. ep_simpl. destruct (player s) as [p|]; [|by apply quiet_tidy].
  destruct (negb (playerRef p)); [by apply quiet_tidy|].
  destruct (negb (isReady p)); [by apply quiet_tidy|].
  eapply tidy_trans; [|by apply setTimeout_tidy]. apply quiet_tidy.
  eapply quiet_trans; [|apply syncPlayer_try_quiet].
  destruct ts as [t0|]; [destruct (number_truthy t0)|]; done.
Qed.

Lemma handleSyncEvent_tidy action time ts s : tidy s (handleSyncEvent action time ts s).
Proof.
  unfold handleSyncEvent. destruct (is_client _ && _); [|by apply quiet_tidy].
  apply (tidy_trans _ (syncPlayer action time ts
           (console_log "Calling syncPlayer on client"
              (console_log "handleSyncEvent called:" s)))).
  - eapply tidy_trans; [|apply syncPlayer_tidy]. by apply quiet_tidy.
  - apply quiet_tidy.
    destruct (String.eqb action "PLAY"); [done|]. by destruct (String.eqb action "PAUSE").
Qed.

Lemma onmessage_tidy raw s : tidy s (onmessage handleSyncEvent handleVideoIdSync raw s).
Proof.
  unfold onmessage. destruct raw as [|data]; [by apply quiet_tidy|].
  case_bool_decide; [by apply quiet_tidy|].
  case_bool_decide.
  { apply quiet_tidy. eapply quiet_trans; [|done].
    eapply quiet_trans; [|apply handleVideoIdSync_quiet]. done. }
  destruct (is_sync_action _); [|by apply quiet_tidy].
  eapply tidy_trans; [|by apply setTimeout_tidy].
  eapply tidy_trans; [|apply handleSyncEvent_tidy].
  split; [|done]. by apply Core_same.
Qed.

(** **** The periodic-sync effect *)

Lemma filter_comm {A} (P Q : A → Prop) `{∀ x, Decision (P x)} `{∀ x, Decision (Q x)}
    (l : list A) :
  filter P (filter Q l) = filter Q (filter P l).
Proof.
  induction l as [|x l IH]; [done|].
  destruct (decide (P x)), (decide (Q x));
    repeat first [rewrite (filter_cons_True P) by done
                 |rewrite (filter_cons_True Q) by done
                 |rewrite (filter_cons_False P) by done
                 |rewrite (filter_cons_False Q) by done];
    by rewrite IH.
Qed.

Lemma core_periodic_clear s : core (periodic_clear s) = cleared (core s).
Proof.
  unfold periodic_clear, cleared. simpl.
  destruct (periodicSyncIntervalRef (app s)) as [id|]; [|done]. by destruct (id_truthy id).
Qed.

(** The cleanup of an active effect stops the interval; an inactive effect
    has none to stop. *)
Lemma CoreV_cleanup v :
  CoreV v → Stopped (if periodic_cleanup (cv_fx v) then cleared v else v).
Proof.
  intros [Hpos Hf Hn Hp Ha Hr]. destruct (periodic_cleanup (cv_fx v)).
  - destruct Hp as (t & Href & Hfilter & Hperiod). unfold cleared. rewrite Href.
    assert (t ∈ cv_timers v) as Hin.
    { assert (t ∈ filter (λ t, is_periodic t = true) (cv_timers v)) as Hin
        by (rewrite Hfilter; left).
      by apply list_elem_of_filter in Hin as [_ ?]. }
    assert (id_truthy (tid t) = true) as ->.
    { rewrite Forall_forall in Hf. specialize (Hf t Hin). unfold id_truthy.
      destruct (tid t); [lia|done]. }
    split; simpl; try done.
    + by apply Forall_filter_keeps.
    + by apply NoDup_fmap_filter.
    + rewrite filter_comm, Hfilter. by rewrite filter_cons_False by (by intros ?).
    + intros i Hi. destruct (Hr i Hi). split; [done|]. by apply Forall_filter_keeps.
  - destruct Hp as [Href Hfilter]. split; done.
Qed.

Lemma Stopped_cleared v : Stopped v → cleared v = v.
Proof. intros [_ _ _ _ Href _]. unfold cleared. by rewrite Href. Qed.

(** The effect runs with its condition false. *)
Lemma Stopped_rest v d :
  Stopped v → CoreV (with_fx (MkEffects d false) v).
Proof. intros [Hpos Hf Hn Hnone Href Hr]. split; simpl; try done. Qed.

(** The effect runs with its condition true: one interval of 3 s. *)
Lemma Stopped_start v d due :
  Stopped v → cv_mounted v = true → deps_ok d = true →
  CoreV (MkCoreView (cv_timers v ++ [MkTimer (cv_next v) due PeriodicSync (Some 3000)])
           (S (cv_next v)) (MkEffects (Some d) true) (Some (cv_next v))
           (cv_reconnect v) (cv_mounted v)).
Proof.
  intros [Hpos Hf Hn Hnone Href Hr] Hm Hd. split; simpl.
  - lia.
  - apply Forall_app. split.
    + eapply Forall_impl; [exact Hf|]. simpl. intros; lia.
    + apply Forall_singleton. simpl. lia.
  - rewrite fmap_app. apply NoDup_app. split_and!; [done| |apply NoDup_singleton].
    intros x Hx Hx'. apply list_elem_of_singleton in Hx'. simpl in Hx'. subst x.
    apply list_elem_of_fmap in Hx as (t & Ht & Hin).
    rewrite Forall_forall in Hf. specialize (Hf t Hin). lia.
  - eexists. split_and!; [|rewrite filter_app, Hnone; simpl; reflexivity|]; done.
  - intros _. split; [done|]. by exists d.
  - intros i Hi. destruct (Hr i Hi) as [Hlt Hall]. split; [lia|].
    apply Forall_app. split; [done|]. apply Forall_singleton. simpl. lia.
Qed.

Lemma core_periodic_rest s :
  core (on_fx (set_periodic_cleanup false) (periodic_clear s))
  = with_fx (MkEffects (periodic_deps (fx s)) false) (cleared (core s)).
Proof.
  unfold periodic_clear, cleared. simpl.
  destruct (periodicSyncIntervalRef (app s)) as [id|]; [|done]. by destruct (id_truthy id).
Qed.

(** Running the effect after a change of its dependencies. *)
Lemma commit_periodic_Core s :
  mounted s = true → Core s →
  Core (commit_periodic s)
  ∧ periodic_deps (fx (commit_periodic s)) = Some (periodic_deps_now (commit_periodic s)).
Proof.
  intros Hm Hc. unfold commit_periodic.
  case_bool_decide as Hdeps; [done|].
  set (s1 := if periodic_cleanup (fx s) then periodic_clear s else s).
  assert (Stopped (core s1)) as Hs1.
  { pose proof (CoreV_cleanup (core s) Hc) as Hst. subst s1. simpl in Hst.
    destruct (periodic_cleanup (fx s)); [by rewrite core_periodic_clear|done]. }
  assert (periodic_deps_now s1 = periodic_deps_now s ∧ mounted s1 = mounted s
          ∧ handle_isReady s1 = handle_isReady s) as (Hd1 & Hm1 & Hr1).
  { subst s1. destruct (periodic_cleanup (fx s)); [|done].
    unfold periodic_clear. destruct (periodicSyncIntervalRef (app s)) as [id|]; [|done].
    by destruct (id_truthy id). }
  set (s2 := on_fx (set_periodic_deps (Some (periodic_deps_now s1))) s1).
  unfold periodic_effect.
  change (periodic_condition s2) with (deps_ok (periodic_deps_now s1) && handle_isReady s1).
  destruct (deps_ok (periodic_deps_now s1) && handle_isReady s1) eqn:Hcond.
  - apply andb_true_iff in Hcond as [Hok _]. split; [|done].
    unfold Core.
    apply (Stopped_start (core s1) (periodic_deps_now s1) (now (world s1) + 3000));
      [done|simpl; congruence|done].
  - split.
    + unfold Core.
      rewrite core_periodic_rest.
      assert (Stopped (core s2)) as Hs2 by (by destruct Hs1).
      rewrite (Stopped_cleared _ Hs2).
      apply (Stopped_rest (core s1)); done.
    + unfold periodic_clear. subst s2. ep_simpl.
      destruct (periodicSyncIntervalRef (app s1)) as [id|]; [|done].
      by destruct (id_truthy id).
Qed.

Lemma commit_periodic_silent s :
  sent (world (commit_periodic s)) = sent (world s)
  ∧ hook (commit_periodic s) = hook s ∧ player (commit_periodic s) = player s
  ∧ mounted (commit_periodic s) = mounted s
  ∧ videoId (app (commit_periodic s)) = videoId (app s)
  ∧ role (app (commit_periodic s)) = role (app s)
  ∧ isPlaying (app (commit_periodic s)) = isPlaying (app s).
Proof.
  unfold commit_periodic, periodic_effect, periodic_clear, setInterval, add_timer, clearInterval,
    clearTimeout.
  repeat (case_match; ep_simpl; try done).
Qed.

(** **** Every event *)

Lemma tidy_wellbehaved s s' : tidy s s' → wellbehaved s s'.
Proof.
  intros (Hc & Hs & Hfx & Hm). split_and!; [done| |].
  - intros _. unfold actions_sent. by rewrite Hs.
  - intros Hm'. split; congruence.
Qed.

Lemma polite_wellbehaved s s' : polite s s' → wellbehaved s s'.
Proof.
  intros (Hc & _ & _ & Hh). split_and!; [by apply Core_same|done|].
  destruct (core_fx_mounted _ _ Hc). intros ?; split; congruence.
Qed.

Lemma quiet_wellbehaved s s' : quiet s s' → wellbehaved s s'.
Proof. intros Hq. by apply tidy_wellbehaved, quiet_tidy. Qed.

Lemma find_timer_Some id ts t : find_timer id ts = Some t → t ∈ ts ∧ tid t = id.
Proof.
  unfold find_timer. intros Hf. apply fmap_Some in Hf as ([j t'] & Hfind & ->).
  apply list_find_Some in Hfind as (Hj & Hid & _). split; [|done].
  apply list_elem_of_lookup. eauto.
Qed.

Lemma Core_not_periodic_timeout s t :
  Core s → t ∈ timers (world s) → period t = None → is_periodic t = false.
Proof.
  intros [_ _ _ Hp _ _] Hin Hperiod. simpl in Hp.
  destruct (is_periodic t) eqn:Hper; [|done].
  assert (t ∈ filter (λ t, is_periodic t = true) (timers (world s))) as Hf
    by (by apply list_elem_of_filter).
  destruct (periodic_cleanup (fx s)).
  - destruct Hp as (t0 & _ & Heq & Hperiod0). rewrite Heq in Hf.
    apply list_elem_of_singleton in Hf. congruence.
  - destruct Hp as [_ Heq]. rewrite Heq in Hf. by apply elem_of_nil in Hf.
Qed.

Lemma after_firing_tidy t s :
  t ∈ timers (world s) →
  tidy s (on_world (λ w, set_timers (after_firing t (timers w)) w) s).
Proof.
  intros Hin. split; [|done]. intros Hc. unfold Core, after_firing. simpl.
  destruct (period t) as [d|] eqn:Hperiod.
  - apply (CoreV_fired_interval (core s)); [|done].
    intros t'. by case_bool_decide.
  - apply (CoreV_fired_timeout (core s) t); [done| |done].
    by apply (Core_not_periodic_timeout s).
Qed.

Lemma run_task_wellbehaved k s : wellbehaved s (run_task k s).
Proof.
  destruct k as [|i|r h|]; simpl.
  - apply tidy_wellbehaved. split; [|done]. by apply Core_same.
  - apply quiet_wellbehaved. destruct (player s) as [p|]; [|done].
    by destruct (Nat.eqb (inst p) i).
  - apply quiet_wellbehaved. eapply quiet_trans; [|apply connect_quiet]. done.
  - apply polite_wellbehaved, periodicSync_tick_polite.
Qed.

Lemma wellbehaved_after_tidy s1 s2 s3 :
  tidy s1 s2 →
  isApplyingRemoteChangeRef (hook s2) = isApplyingRemoteChangeRef (hook s1) →
  wellbehaved s2 s3 → wellbehaved s1 s3.
Proof.
  intros (Hc & Hs & Hfx & Hm) Hflag (Hc' & Hh & Hfx'). split_and!; [auto| |].
  - intros Hf. rewrite Hh by congruence. unfold actions_sent. by rewrite Hs.
  - intros Hm3. destruct (Hfx' Hm3). split; congruence.
Qed.

Lemma fire_wellbehaved id s s' : fire id s = Some s' → wellbehaved s s'.
Proof.
  unfold fire. intros Hfire.
  destruct (find_timer id (timers (world s))) as [t|] eqn:Hfind; [|done]. simpl in Hfire.
  destruct (Z.leb (due t) (now (world s))); [|done]. injection Hfire as <-.
  apply find_timer_Some in Hfind as [Hin _].
  eapply wellbehaved_after_tidy; [by apply after_firing_tidy|done|].
  apply run_task_wellbehaved.
Qed.

Lemma socket_event_wellbehaved id allowed next handler s s' :
  (∀ k s0, wellbehaved s0 (handler k s0)) →
  socket_event id allowed next handler s = Some s' → wellbehaved s s'.
Proof.
  intros Hh. unfold socket_event. intros Hev.
  destruct (sockets (world s) !! id) as [k|]; [|done]. simpl in Hev.
  destruct (allowed (sock_state k)); [|done]. injection Hev as <-.
  eapply wellbehaved_after_tidy; [| |apply Hh].
  - apply quiet_tidy. by destruct next.
  - by destruct next.
Qed.

Lemma selectRole_tidy r s : tidy s (selectRole r s).
Proof.
  unfold selectRole. destruct (_ && _).
  - eapply tidy_trans; [apply disconnect_tidy|]. by apply quiet_tidy.
  - by apply quiet_tidy.
Qed.

Lemma unmount_wellbehaved s : wellbehaved s (unmount s).
Proof.
  unfold unmount.
  set (s1 := match player s with Some _ => _ | None => _ end).
  assert (quiet s s1) as Hq1.
  { subst s1. destruct (player s) as [p|]; [|done]. destruct (playerRef p); [|done].
    eapply quiet_trans; [apply (catch_backend_call_quiet Destroy)|done]. }
  set (s2 := if periodic_cleanup (fx s1) then periodic_clear s1 else s1).
  set (s3 := on_fx (λ _, MkEffects None false) s2).
  assert (sent (world s3) = sent (world s)) as Hsent3.
  { destruct Hq1 as (_ & <- & _). subst s3 s2. ep_simpl.
    destruct (periodic_cleanup (fx s1)); [|done].
    unfold periodic_clear. destruct (periodicSyncIntervalRef (app s1)) as [id|]; [|done].
    by destruct (id_truthy id). }
  destruct (disconnect_tidy s3) as (Hc4 & Hsent4 & Hfx4 & _).
  split_and!; [| |done].
  - intros Hc. apply (Core_quiet _ _ Hq1) in Hc.
    pose proof (CoreV_cleanup (core s1) Hc) as Hst. simpl in Hst.
    assert (Stopped (core s2)) as Hs2.
    { subst s2. destruct (periodic_cleanup (fx s1)); [by rewrite core_periodic_clear|done]. }
    assert (Core s3) as Hc3 by apply (Stopped_rest (core s2) None Hs2).
    destruct (Hc4 Hc3) as [Hpos Hf Hn Hp Ha Hr]. split; try done.
    cbn [core cv_fx cv_mounted set_mounted fx mounted]. rewrite Hfx4.
    subst s3. by ep_simpl.
  - intros _. unfold actions_sent. ep_simpl. by rewrite Hsent4, Hsent3.
Qed.

Lemma handle_wellbehaved ev s s' : handle ev s = Some s' → wellbehaved s s'.
Proof.
  destruct ev; simpl; intros Hev;
    repeat match type of Hev with
           | (if ?b then _ else _) = Some _ => destruct b; [|done]
           | Some _ = Some _ => injection Hev as <-
           end.
  - apply tidy_wellbehaved, selectRole_tidy.
  - by apply quiet_wellbehaved.
  - apply quiet_wellbehaved. unfold handleConnect. destruct (_ && _); [done|].
    apply connect_quiet.
  - apply tidy_wellbehaved, disconnect_tidy.
  - apply polite_wellbehaved, handleLoadVideo_polite.
  - apply polite_wellbehaved, handlePlay_polite.
  - apply polite_wellbehaved, handlePause_polite.
  - apply unmount_wellbehaved.
  - apply tidy_wellbehaved. split; [|done]. by apply Core_same.
  - by apply (fire_wellbehaved id).
  - apply (socket_event_wellbehaved _ _ _ _ _ _ (λ _ s0, tidy_wellbehaved _ _ (onopen_tidy s0)) Hev).
  - apply (socket_event_wellbehaved _ _ _ _ _ _
             (λ _ s0, tidy_wellbehaved _ _ (onmessage_tidy raw s0)) Hev).
  - apply (socket_event_wellbehaved _ _ _ _ _ _
             (λ _ s0, quiet_wellbehaved _ _ (onerror_quiet s0)) Hev).
  - apply (socket_event_wellbehaved _ _ _ _ _ _
             (λ k s0, tidy_wellbehaved _ _ (onclose_tidy (sock_role k) (sock_hostIp k) s0)) Hev).
  - destruct (player s) as [p|]; [|done]. destruct (isReady p); [done|].
    injection Hev as <-. apply quiet_wellbehaved, onReady_quiet.
  - destruct (player s) as [p|]; [|done]. injection Hev as <-.
    apply polite_wellbehaved, player_onStateChange_polite.
  - by apply quiet_wellbehaved.
  - by apply quiet_wellbehaved.
Qed.

(** **** Rendering, steps and runs *)

Lemma videoId_effect_frame p s :
  player (videoId_effect p s) = player s ∧ app (videoId_effect p s) = app s
  ∧ hook (videoId_effect p s) = hook s.
Proof.
  unfold videoId_effect, backend_call. repeat (case_match; ep_simpl; try done).
Qed.

Lemma commit_player_frame s :
  app (commit_player s) = app s ∧ hook (commit_player s) = hook s
  ∧ fx (commit_player s) = fx s ∧ mounted (commit_player s) = mounted s.
Proof.
  unfold commit_player, videoId_effect, backend_call.
  repeat (case_match; ep_simpl; try done).
Qed.

Lemma commit_player_consistent s p :
  player (commit_player s) = Some p →
  videoId_effect_deps p = (videoId (app s), isReady p) ∧ player_rendered s = true.
Proof.
  unfold commit_player. destruct (player s) as [p0|] eqn:Hp0.
  - destruct (player_rendered s); [|done].
    case_bool_decide as Hdeps.
    + rewrite Hp0. by intros [= <-].
    + destruct (videoId_effect_frame p0 (on_player
        (set_videoId_effect_deps (videoId (app s), isReady p0)) s)) as (-> & _).
      ep_simpl. rewrite Hp0. simpl. by intros [= <-].
  - destruct (player_rendered s); [|by rewrite Hp0].
    match goal with |- player (videoId_effect ?q ?s1) = _ → _ =>
      destruct (videoId_effect_frame q s1) as (-> & _) end.
    ep_simpl. by intros [= <-].
Qed.

Lemma commit_player_absent s :
  player (commit_player s) = None → player_rendered s = false.
Proof.
  unfold commit_player. destruct (player s) as [p0|] eqn:Hp0.
  - destruct (player_rendered s); [|done].
    case_bool_decide as Hdeps; [by rewrite Hp0|].
    destruct (videoId_effect_frame p0 (on_player
      (set_videoId_effect_deps (videoId (app s), isReady p0)) s)) as (-> & _).
    ep_simpl. by rewrite Hp0.
  - destruct (player_rendered s); [|done].
    match goal with |- player (videoId_effect ?q ?s1) = _ → _ =>
      destruct (videoId_effect_frame q s1) as (-> & _) end.
    done.
Qed.

Lemma commit_frame s :
  sent (world (commit s)) = sent (world s) ∧ hook (commit s) = hook s
  ∧ mounted (commit s) = mounted s
  ∧ periodic_deps_now (commit s) = periodic_deps_now s
  ∧ now (world (commit s)) = now (world s).
Proof.
  unfold commit. destruct (mounted s) eqn:Hm; [|done].
  destruct (commit_periodic_silent (commit_player s)) as (Hs & Hh & _ & Hm' & Hv & Hr & Hp).
  destruct (commit_player_frame s) as (Ha & Hh0 & _ & Hm0).
  destruct (commit_player_quiet s) as (_ & Hs0 & _ & Hn0).
  split_and!; try congruence.
  - unfold periodic_deps_now, isConnected. rewrite Hv, Hr, Hp, Hh, Hh0, Ha. done.
  - rewrite <- Hn0. unfold commit_periodic, periodic_effect, periodic_clear, setInterval,
      add_timer, clearInterval, clearTimeout.
    repeat (case_match; ep_simpl; try done).
Qed.

Lemma commit_Rendered s : Core s → Rendered (commit s).
Proof.
  intros Hc. unfold commit. destruct (mounted s) eqn:Hm.
  - destruct (commit_player_frame s) as (Ha & Hh & Hfx & Hm1).
    assert (Core (commit_player s)) as Hc1
      by (apply (Core_quiet s); [apply commit_player_quiet|done]).
    destruct (commit_periodic_Core (commit_player s)) as [Hc2 Hdeps]; [congruence|done|].
    destruct (commit_periodic_silent (commit_player s)) as (_ & _ & Hp & _ & Hv & Hr & _).
    split; [done|done| |].
    + intros _ p. rewrite Hp. intros Hp1.
      destruct (commit_player_consistent s p Hp1) as [Hd Hrend].
      unfold player_rendered in *. rewrite Hv, Hr, Ha. done.
    + intros _. rewrite Hp. intros Hp1.
      pose proof (commit_player_absent s Hp1) as Hrend.
      unfold player_rendered in *. rewrite Hv, Hr, Ha. done.
  - split; [done|congruence..].
Qed.

Lemma step_Rendered s ev s' : Core s → step s ev = Some s' → Rendered s'.
Proof.
  unfold step. intros Hc Hstep. apply fmap_Some in Hstep as (s1 & Hh & ->).
  apply commit_Rendered. by apply (handle_wellbehaved ev s s1 Hh).
Qed.

Lemma init_Rendered t0 be : Rendered (init t0 be).
Proof.
  apply commit_Rendered. split; simpl; try done.
  - lia.
  - apply NoDup_nil_2.
Qed.

Lemma run_Rendered s evs s' : Rendered s → run s evs = Some s' → Rendered s'.
Proof.
  revert s. induction evs as [|ev evs IH]; intros s Hr; simpl.
  - by intros [= <-].
  - destruct (step s ev) as [s1|] eqn:Hstep; [|done]. simpl.
    apply IH. eapply step_Rendered; [|exact Hstep]. by destruct Hr.
Qed.

(** Every state an endpoint can reach has been rendered. *)
Lemma reachable_Rendered t0 be evs s : run (init t0 be) evs = Some s → Rendered s.
Proof. apply run_Rendered, init_Rendered. Qed.


(** At most one periodic-sync interval is pending; it is the one the ref
    names, its period is 3 s, and it is pending only while [App] is mounted
    with the host role, connected, playing, and an item loaded. *)
Lemma Rendered_periodic s :
  Rendered s →
  (length (periodic_timers s) ≤ 1)%nat
  ∧ (∀ t, t ∈ periodic_timers s →
       period t = Some 3000 ∧ periodicSyncIntervalRef (app s) = Some (tid t)
       ∧ mounted s = true ∧ role (app s) = Some Host ∧ isConnected s = true
       ∧ isPlaying (app s) = true ∧ videoId (app s) ≠ "").
Proof.
  intros [[Hpos Hf Hn Hp Ha Hr] Hdeps Hplayer _]. unfold periodic_timers. simpl in *.
  destruct (periodic_cleanup (fx s)) eqn:Hcl.
  - destruct Hp as (t & Href & -> & Hperiod). split; [simpl; lia|].
    intros t' Ht'. apply list_elem_of_singleton in Ht' as ->.
    destruct (Ha eq_refl) as (Hm & d & Hd & Hok).
    rewrite (Hdeps Hm) in Hd. injection Hd as <-.
    unfold deps_ok, periodic_deps_now in Hok.
    apply andb_true_iff in Hok as [Hok Hv]. apply andb_true_iff in Hok as [Hok Hplay].
    apply andb_true_iff in Hok as [Hhost Hconn].
    split_and!; try done.
    + by destruct (role (app s)) as [[]|].
    + unfold string_truthy in Hv. apply negb_true_iff, String.eqb_neq in Hv. done.
  - destruct Hp as [_ ->]. split; [simpl; lia|]. intros t Ht. by apply elem_of_nil in Ht.
Qed.

(** *** Echo suppression at the transport layer *)

Lemma syncPlayer_try_frame action target text s :
  let s' := catch (syncPlayer_try action target s) (console_error text) in
  hook s' = hook s ∧ app s' = app s ∧ player s' = player s
  ∧ timers (world s') = timers (world s) ∧ next_timer (world s') = next_timer (world s)
  ∧ now (world s') = now (world s).
Proof.
  unfold syncPlayer_try, backend_call.
  destruct (be_getCurrentTime _); [|done].
  destruct (PrimFloat.ltb _ _); ep_simpl.
  - destruct (be_accepts _ (SeekTo _ _)); ep_simpl; [|done].
    repeat (case_match; ep_simpl; try done).
  - repeat (case_match; ep_simpl; try done).
Qed.

Lemma syncPlayer_frame action time ts s :
  let s' := syncPlayer action time ts s in
  hook s' = hook s ∧ app s' = app s ∧ now (world s') = now (world s)
  ∧ (next_timer (world s) ≤ next_timer (world s'))%nat.
Proof.
  unfold syncPlayer. ep_simpl. destruct (player s) as [p|]; [|done].
  destruct (negb (playerRef p)); [done|]. destruct (negb (isReady p)); [done|].
  unfold setTimeout, add_timer. ep_simpl.
  match goal with |- context [catch (syncPlayer_try ?a ?c ?s1) (console_error ?m)] =>
    destruct (syncPlayer_try_frame a c m s1) as (Hh & Ha & _ & _ & Hn & Hnow) end.
  rewrite Hh, Ha, Hn, Hnow.
  destruct ts as [t0|]; [destruct (number_truthy t0)|]; ep_simpl; split_and!; try done; lia.
Qed.

Lemma handleSyncEvent_frame action time ts s :
  let s' := handleSyncEvent action time ts s in
  hook s' = hook s ∧ now (world s') = now (world s)
  ∧ (next_timer (world s) ≤ next_timer (world s'))%nat.
Proof.
  unfold handleSyncEvent. destruct (is_client _ && _); [|done].
  match goal with |- context [syncPlayer ?a ?t ?x ?s1] =>
    destruct (syncPlayer_frame a t x s1) as (Hh & _ & Hnow & Hn) end.
  destruct (String.eqb action "PLAY"); [|destruct (String.eqb action "PAUSE")];
    ep_simpl; by rewrite Hh, Hnow.
Qed.




(** *** Reconnecting *)

(** An unsolicited close in the dial-out role arms exactly one reconnect
    timer, due 3 s later, and remembers it. *)
Lemma onclose_dial_out r h s :
  is_client r && string_truthy h = true →
  timers (world (onclose r h s))
  = timers (world s)
    ++ [MkTimer (next_timer (world s)) (now (world s) + 3000) (Reconnect r h) None]
  ∧ reconnectTimeoutRef (hook (onclose r h s)) = Some (next_timer (world s))
  ∧ connectionStatus (hook (onclose r h s)) = disconnected.
Proof. intros Hrole. unfold onclose. rewrite Hrole. done. Qed.

(** In any other role a close arms nothing. *)
Lemma onclose_other_role r h s :
  is_client r && string_truthy h = false →
  timers (world (onclose r h s)) = timers (world s)
  ∧ reconnectTimeoutRef (hook (onclose r h s)) = reconnectTimeoutRef (hook s)
  ∧ connectionStatus (hook (onclose r h s)) = disconnected.
Proof. intros Hrole. unfold onclose. rewrite Hrole. done. Qed.

(** [disconnect] cancels the reconnect timer the ref names. *)
Lemma disconnect_cancels_pending s id :
  reconnectTimeoutRef (hook s) = Some id → id ≠ 0%nat →
  (∀ t, t ∈ timers (world (disconnect s)) → tid t ≠ id)
  ∧ reconnectTimeoutRef (hook (disconnect s)) = None.
Proof.
  intros Href Hid. unfold disconnect. rewrite Href.
  assert (id_truthy id = true) as -> by (by destruct id).
  set (s1 := on_hook (set_reconnectTimeoutRef None) (clearTimeout id s)).
  assert (timers (world s1) = filter (λ t, tid t ≠ id) (timers (world s))
          ∧ reconnectTimeoutRef (hook s1) = None) as [Ht Hr] by done.
  set (s2 := match wsRef (hook s1) with Some _ => _ | None => _ end).
  assert (timers (world s2) = timers (world s1)
          ∧ reconnectTimeoutRef (hook s2) = reconnectTimeoutRef (hook s1)) as [Ht2 Hr2].
  { subst s2. destruct (wsRef (hook s1)) as [i|]; [|done]. ep_simpl.
    destruct (ws_close_quiet i s1) as ([= Htm _ _ _ Hrr _] & _). done. }
  ep_simpl. rewrite Ht2, Hr2, Ht, Hr. split; [|done].
  intros t Hin. by apply list_elem_of_filter in Hin as [? _].
Qed.

(** C5 (code bug). After a manual disconnect of a connected dial-out
    client, the [close] event of the socket that [disconnect] closed runs
    [onclose], which arms a reconnect timer; when it fires, [connect] dials
    out again: a second socket is created and the status is "connecting". *)
Theorem manual_disconnect_is_followed_by_reconnect :
  let before := after 1000 (backend_at 10 2) (client_connects ++ [ClickDisconnect]) in
  let s := after 1000 (backend_at 10 2) disconnect_by_hand in
  timers (world before) = [] ∧ connectionStatus (hook before) = disconnected
  ∧ wsRef (hook before) = None
  ∧ connectionStatus (hook s) = connecting
  ∧ sockets (world s)
    = [MkSocket (Some Client) "192.168.1.20" CLOSED;
       MkSocket (Some Client) "192.168.1.20" CONNECTING]
  ∧ wsRef (hook s) = Some 1%nat
  ∧ ConsoleLog "Attempting to reconnect..." ∈ console (world s).
Proof.
  split_and!; try (vm_compute; reflexivity).
  vm_compute. apply list_elem_of_In. simpl. tauto.
Qed.

(** *** Periodic drift correction *)

Lemma periodic_clear_frame s :
  hook (periodic_clear s) = hook s ∧ player (periodic_clear s) = player s
  ∧ now (world (periodic_clear s)) = now (world s)
  ∧ next_timer (world (periodic_clear s)) = next_timer (world s)
  ∧ calls (world (periodic_clear s)) = calls (world s)
  ∧ role (app (periodic_clear s)) = role (app s)
  ∧ videoId (app (periodic_clear s)) = videoId (app s)
  ∧ videoIdInput (app (periodic_clear s)) = videoIdInput (app s)
  ∧ isPlaying (app (periodic_clear s)) = isPlaying (app s)
  ∧ fx (periodic_clear s) = fx s.
Proof.
  unfold periodic_clear. destruct (periodicSyncIntervalRef (app s)) as [id|]; [|done].
  by destruct (id_truthy id).
Qed.

Lemma commit_periodic_frame s :
  now (world (commit_periodic s)) = now (world s)
  ∧ calls (world (commit_periodic s)) = calls (world s)
  ∧ videoIdInput (app (commit_periodic s)) = videoIdInput (app s).
Proof.
  unfold commit_periodic. case_bool_decide; [done|].
  set (s1 := if periodic_cleanup (fx s) then periodic_clear s else s).
  assert (now (world s1) = now (world s) ∧ calls (world s1) = calls (world s)
          ∧ videoIdInput (app s1) = videoIdInput (app s)) as (Hn & Hc & Hv).
  { subst s1. destruct (periodic_cleanup (fx s)); [|done].
    destruct (periodic_clear_frame s) as (_ & _ & ? & _ & ? & _ & _ & ? & _). done. }
  unfold periodic_effect. destruct (periodic_condition _).
  - unfold setInterval, add_timer. ep_simpl. done.
  - ep_simpl.
    match goal with |- context [periodic_clear ?x] =>
      destruct (periodic_clear_frame x) as (_ & _ & -> & _ & -> & _ & _ & -> & _) end.
    ep_simpl. done.
Qed.

(** When the effect runs again and its condition holds, it leaves exactly
    one interval pending, first due 3 s later. *)
Lemma commit_periodic_starts s :
  Core s → periodic_deps (fx s) ≠ Some (periodic_deps_now s) →
  periodic_condition s = true →
  periodic_timers (commit_periodic s)
  = [MkTimer (next_timer (world s)) (now (world s) + 3000) PeriodicSync (Some 3000)].
Proof.
  intros Hc Hdeps Hcond. unfold commit_periodic.
  rewrite bool_decide_eq_false_2 by done.
  set (s1 := if periodic_cleanup (fx s) then periodic_clear s else s).
  assert (Stopped (core s1)) as Hs1.
  { pose proof (CoreV_cleanup (core s) Hc) as Hst. subst s1. simpl in Hst.
    destruct (periodic_cleanup (fx s)); [by rewrite core_periodic_clear|done]. }
  assert (periodic_condition s1 = periodic_condition s
          ∧ now (world s1) = now (world s)
          ∧ next_timer (world s1) = next_timer (world s)) as (Hc1 & Hn1 & Hnext1).
  { subst s1. destruct (periodic_cleanup (fx s)); [|done].
    destruct (periodic_clear_frame s) as (Hh & Hp & Hn & Hnt & _ & Hr & Hv & _ & Hi & _).
    split; [|done]. unfold periodic_condition, isConnected, handle_isReady.
    by rewrite Hh, Hp, Hr, Hv, Hi. }
  unfold periodic_effect.
  change (periodic_condition (on_fx _ s1)) with (periodic_condition s1).
  rewrite Hc1, Hcond. unfold setInterval, add_timer, periodic_timers. ep_simpl.
  rewrite filter_app. destruct Hs1 as [_ _ _ Hnone _ _]. simpl in Hnone.
  rewrite Hnone, Hn1, Hnext1. done.
Qed.

Lemma step_starts_interval s ev s' :
  Rendered s → step s ev = Some s' → mounted s' = true →
  periodic_deps_now s' ≠ periodic_deps_now s → periodic_condition s' = true →
  ∃ id, periodic_timers s'
        = [MkTimer id (now (world s') + 3000) PeriodicSync (Some 3000)].
Proof.
  intros [Hc Hdeps _ _] Hstep Hm' Hchanged Hcond.
  unfold step in Hstep. apply fmap_Some in Hstep as (s1 & Hh & ->).
  destruct (handle_wellbehaved ev s s1 Hh) as (Hc1 & _ & Hfx).
  destruct (commit_frame s1) as (_ & _ & Hm & Hdn & Hnow).
  rewrite Hm in Hm'. destruct (Hfx Hm') as [Hfx1 Hm0].
  unfold commit in *. rewrite Hm' in *.
  destruct (commit_player_frame s1) as (Ha & Hhk & Hfxp & Hmp).
  destruct (commit_periodic_silent (commit_player s1)) as (_ & Hh2 & Hp2 & _ & Hv2 & Hr2 & Hi2).
  destruct (commit_periodic_frame (commit_player s1)) as (Hnow2 & _).
  assert (periodic_deps_now (commit_player s1) = periodic_deps_now s1) as Hd1.
  { unfold periodic_deps_now, isConnected. by rewrite Ha, Hhk. }
  exists (next_timer (world (commit_player s1))).
  rewrite Hnow2. apply commit_periodic_starts.
  - apply (Core_quiet s1); [apply commit_player_quiet|auto].
  - rewrite Hfxp, Hfx1, (Hdeps Hm0), Hd1. intros Heq. apply Hchanged.
    rewrite Hdn. congruence.
  - rewrite <- Hcond. unfold periodic_condition, isConnected, handle_isReady.
    by rewrite Hh2, Hp2, Hv2, Hr2, Hi2.
Qed.

(** What a tick of the interval sends. *)
Lemma periodicSync_tick_sent s id t st :
  backend_ready s = true →
  be_getCurrentTime (backend (world s)) = Some t →
  be_getPlayerState (backend (world s)) = Some st →
  isApplyingRemoteChangeRef (hook s) = false →
  wsRef (hook s) = Some id → wsRef_is_open s = true →
  sent (world (periodicSync_tick s))
  = sent (world s)
    ++ (if Z.eqb st 1
        then [(id, MsgAction "SEEK" (if number_truthy t then t else 0%float)
                     (now (world s)))]
        else []).
Proof.
  intros Hready Ht Hst Hflag Hws Hopen.
  unfold backend_ready in Hready. unfold periodicSync_tick.
  destruct (player s) as [p|]; [|done]. apply andb_true_iff in Hready as [Href Hr].
  rewrite Hr. unfold handle_getCurrentTime, handle_getPlayerState.
  rewrite Href, Ht, Hst. simpl.
  destruct (Z.eqb st 1); [|by rewrite app_nil_r].
  unfold sendSyncEvent, ws_send. rewrite Hflag, Hopen, Hws. done.
Qed.

(** **** A tick of the interval, as a step *)

Lemma NoDup_tid_eq (ts : list Timer) t t' :
  NoDup (tid <$> ts) → t ∈ ts → t' ∈ ts → tid t' = tid t → t' = t.
Proof.
  intros Hn Hin Hin' Heq.
  apply list_elem_of_lookup in Hin as [j Hj], Hin' as [j' Hj'].
  assert (j' = j) as ->; [|congruence].
  eapply NoDup_lookup; [exact Hn| |]; rewrite list_lookup_fmap.
  - by rewrite Hj'.
  - rewrite Hj. simpl. by rewrite Heq.
Qed.

Lemma find_timer_unique (ts : list Timer) t :
  NoDup (tid <$> ts) → t ∈ ts → find_timer (tid t) ts = Some t.
Proof.
  intros Hn Hin. unfold find_timer.
  destruct (list_find_elem_of (λ t', tid t' = tid t) ts t Hin eq_refl) as [[j t'] Hfind].
  rewrite Hfind. simpl. f_equal.
  apply list_find_Some in Hfind as (Hj & Hid & _).
  apply (NoDup_tid_eq ts); [done..| |done]. apply list_elem_of_lookup. eauto.
Qed.

(** Rendering a rendered state again changes nothing. *)
Lemma commit_idle s :
  periodic_deps (fx s) = Some (periodic_deps_now s) →
  (∀ p, player s = Some p →
     videoId_effect_deps p = (videoId (app s), isReady p) ∧ player_rendered s = true) →
  (player s = None → player_rendered s = false) →
  commit s = s.
Proof.
  intros Hdeps Hsome Hnone. unfold commit. destruct (mounted s); [|done].
  assert (commit_player s = s) as ->.
  { unfold commit_player. destruct (player s) as [p|].
    - destruct (Hsome p eq_refl) as [-> ->]. by rewrite bool_decide_eq_true_2.
    - by rewrite Hnone. }
  unfold commit_periodic. by rewrite bool_decide_eq_true_2.
Qed.

Lemma sendSyncEvent_frame action time s :
  let s' := sendSyncEvent action time s in
  app s' = app s ∧ hook s' = hook s ∧ player s' = player s ∧ fx s' = fx s
  ∧ mounted s' = mounted s ∧ timers (world s') = timers (world s)
  ∧ now (world s') = now (world s).
Proof.
  unfold sendSyncEvent, ws_send. repeat (case_match; ep_simpl; try done).
Qed.

Lemma periodicSync_tick_frame s :
  let s' := periodicSync_tick s in
  app s' = app s ∧ hook s' = hook s ∧ player s' = player s ∧ fx s' = fx s
  ∧ mounted s' = mounted s ∧ timers (world s') = timers (world s)
  ∧ now (world s') = now (world s).
Proof.
  unfold periodicSync_tick. destruct (player s) as [p|] eqn:Hp; [|done].
  destruct (isReady p); [|done]. destruct (handle_getCurrentTime p s); [|done].
  destruct (Z.eqb _ 1); [|done].
  match goal with |- context [sendSyncEvent ?a ?x s] =>
    pose proof (sendSyncEvent_frame a x s) as Hframe end.
  simpl in Hframe. by rewrite Hp in Hframe.
Qed.

(** When the pending interval is due it fires: the tick runs, and the
    interval is due again 3 s after its previous deadline. *)
Lemma periodic_tick_step s t :
  Rendered s → mounted s = true → t ∈ periodic_timers s → due t ≤ now (world s) →
  ∃ s', step s (TimerFires (tid t)) = Some s'
    ∧ periodic_timers s' = [MkTimer (tid t) (due t + 3000) PeriodicSync (Some 3000)]
    ∧ sent (world s')
      = sent (world (periodicSync_tick s))
    ∧ now (world s') = now (world s).
Proof.
  intros [[Hpos Hf Hn Hp Ha Hr] Hdeps Hplayer Hnoplayer] Hm Hin Hdue.
  unfold periodic_timers in *. simpl in Hp, Hn.
  assert (filter (λ t, is_periodic t = true) (timers (world s)) = [t]
          ∧ period t = Some 3000) as [Hfilter Hperiod].
  { destruct (periodic_cleanup (fx s)).
    - destruct Hp as (t0 & _ & Heq & Hper). rewrite Heq in Hin.
      apply list_elem_of_singleton in Hin as ->. done.
    - destruct Hp as [_ Heq]. rewrite Heq in Hin. by apply elem_of_nil in Hin. }
  apply list_elem_of_filter in Hin as [Hperiodic Hin].
  assert (task t = PeriodicSync) as Htask
    by (unfold is_periodic in Hperiodic; by destruct (task t)).
  set (rearm := λ t', if bool_decide (tid t' = tid t)
                      then MkTimer (tid t') (due t' + 3000) (task t') (period t') else t').
  set (s1 := on_world (λ w, set_timers (rearm <$> timers w) w) s).
  assert (fire (tid t) s = Some (periodicSync_tick s1)) as Hfire.
  { unfold fire. rewrite (find_timer_unique _ t Hn Hin). simpl.
    apply Z.leb_le in Hdue. rewrite Hdue. unfold after_firing. rewrite Hperiod, Htask. done. }
  destruct (periodicSync_tick_frame s1) as (Ha1 & Hh1 & Hp1 & Hfx1 & Hm1 & Ht1 & Hn1).
  exists (periodicSync_tick s1).
  assert (commit (periodicSync_tick s1) = periodicSync_tick s1) as Hidle.
  { apply commit_idle.
    - rewrite Hfx1. unfold periodic_deps_now, isConnected. rewrite Ha1, Hh1.
      apply (Hdeps Hm).
    - intros p. rewrite Hp1. unfold player_rendered. rewrite Ha1. apply (Hplayer Hm).
    - rewrite Hp1. unfold player_rendered. rewrite Ha1. apply (Hnoplayer Hm). }
  split_and!.
  - unfold step. simpl. rewrite Hfire. simpl. by rewrite Hidle.
  - rewrite Ht1. subst s1. ep_simpl.
    rewrite filter_periodic_fmap.
    + rewrite Hfilter. simpl. subst rearm. simpl.
      rewrite bool_decide_eq_true_2 by done. by rewrite Htask, Hperiod.
    + intros t'. subst rearm. simpl. by case_bool_decide.
  - unfold periodicSync_tick, handle_getCurrentTime, handle_getPlayerState, sendSyncEvent,
      wsRef_is_open, wsRef_readyState, ws_send.
    subst s1. ep_simpl. repeat (case_match; ep_simpl; try done).
  - by rewrite Hn1.
Qed.

(** A step that leaves the dependencies of the effect as they were leaves
    the pending interval pending. *)
Lemma periodic_survives s ev s' :
  Rendered s → step s ev = Some s' → mounted s' = true →
  periodic_deps_now s' = periodic_deps_now s →
  periodic_timers s ≠ [] → periodic_timers s' ≠ [].
Proof.
  intros [Hc Hdeps _ _] Hstep Hm' Hsame Hpending.
  assert (periodic_cleanup (fx s) = true) as Hcl.
  { destruct Hc as [_ _ _ Hp _ _]. simpl in Hp. unfold periodic_timers in Hpending.
    destruct (periodic_cleanup (fx s)); [done|]. by destruct Hp. }
  unfold step in Hstep. apply fmap_Some in Hstep as (s1 & Hh & ->).
  destruct (handle_wellbehaved ev s s1 Hh) as (Hc1 & _ & Hfx).
  destruct (commit_frame s1) as (_ & _ & Hm & Hdn & _).
  rewrite Hm in Hm'. destruct (Hfx Hm') as [Hfx1 Hm0].
  destruct (commit_Rendered s1 (Hc1 Hc)) as [[_ _ _ Hp' _ _] Hdeps' _ _].
  rewrite Hm in Hdeps'. specialize (Hdeps' Hm'). simpl in Hp'.
  assert (fx (commit s1) = fx s) as Hfx'.
  { unfold commit. rewrite Hm'. unfold commit_periodic.
    destruct (commit_player_frame s1) as (Ha & Hhk & Hfxp & _).
    rewrite bool_decide_eq_true_2; [congruence|].
    rewrite Hfxp, Hfx1, (Hdeps Hm0). f_equal. rewrite <- Hsame, Hdn.
    unfold periodic_deps_now, isConnected. by rewrite Ha, Hhk. }
  rewrite Hfx', Hcl in Hp'. destruct Hp' as (t & _ & Heq & _).
  unfold periodic_timers. by rewrite Heq.
Qed.

(** C6, as stated, fails: the endpoint is host, connected, and its playing
    flag is true, the interval fires (it is due again 3 s later), and no SEEK
    is sent, because the backend does not report the PLAYING state. *)
Lemma buffering_host_emits_no_seek :
  let s := after 1700000000000 (backend_at 10 1) host_buffers in
  let s' := after 1700000000000 (backend_at 10 1) (host_buffers ++ [TimerFires 1]) in
  role (app s) = Some Host ∧ isConnected s = true ∧ isPlaying (app s) = true
  ∧ periodic_timers s = [MkTimer 1 1700000003000 PeriodicSync (Some 3000)]
  ∧ now (world s) = 1700000003000
  ∧ periodic_timers s' = [MkTimer 1 1700000006000 PeriodicSync (Some 3000)]
  ∧ isPlaying (app s') = true
  ∧ sent (world s') = sent (world s).
Proof. split_and!; vm_compute; reflexivity. Qed.

(** C6, amended. In every state an endpoint can reach, at most one
    periodic-sync interval is pending; it has a period of 3 s and is pending
    only while [App] is mounted with the host role, connected, its playing
    flag true and an item loaded.  A step that changes one of these and leaves
    the effect's condition true (the player handle ready included) starts the
    interval, first due 3 s later; a step that changes none of them leaves it
    pending.  Once due, the interval fires and is due again 3 s after its
    previous deadline; the tick sends a SEEK carrying the backend's current
    position when the backend is ready and reports the PLAYING state (and the
    suppression flag is clear and the socket open), and nothing when the
    backend reports another state. *)
Theorem periodic_sync_discipline
    (t0 : Z) (be : Backend) (evs : list Event) (s : Endpoint) :
  run (init t0 be) evs = Some s →
  (length (periodic_timers s) ≤ 1)%nat
  ∧ (∀ t, t ∈ periodic_timers s →
       period t = Some 3000 ∧ mounted s = true ∧ role (app s) = Some Host
       ∧ isConnected s = true ∧ isPlaying (app s) = true ∧ videoId (app s) ≠ "")
  ∧ (∀ ev s', step s ev = Some s' → mounted s' = true →
       (periodic_deps_now s' ≠ periodic_deps_now s → periodic_condition s' = true →
        ∃ id, periodic_timers s'
              = [MkTimer id (now (world s') + 3000) PeriodicSync (Some 3000)])
       ∧ (periodic_deps_now s' = periodic_deps_now s → periodic_timers s ≠ [] →
          periodic_timers s' ≠ []))
  ∧ (∀ t, t ∈ periodic_timers s → due t ≤ now (world s) →
       ∃ s', step s (TimerFires (tid t)) = Some s'
         ∧ periodic_timers s' = [MkTimer (tid t) (due t + 3000) PeriodicSync (Some 3000)]
         ∧ sent (world s') = sent (world (periodicSync_tick s)))
  ∧ (∀ id t st, backend_ready s = true →
       be_getCurrentTime (backend (world s)) = Some t →
       be_getPlayerState (backend (world s)) = Some st →
       isApplyingRemoteChangeRef (hook s) = false →
       wsRef (hook s) = Some id → wsRef_is_open s = true →
       sent (world (periodicSync_tick s))
       = sent (world s)
         ++ (if Z.eqb st 1
             then [(id, MsgAction "SEEK" (if number_truthy t then t else 0%float)
                          (now (world s)))]
             else [])).
Proof.
  intros Hrun. pose proof (reachable_Rendered t0 be evs s Hrun) as Hr.
  destruct (Rendered_periodic s Hr) as [Hone Hall]. split_and!.
  - done.
  - intros t Ht. destruct (Hall t Ht) as (? & _ & ?). done.
  - intros ev s' Hstep Hm. split.
    + by apply (step_starts_interval s ev).
    + by apply (periodic_survives s ev).
  - intros t Ht Hdue. destruct (Hall t Ht) as (_ & _ & Hm & _).
    destruct (periodic_tick_step s t Hr Hm Ht Hdue) as (s' & ? & ? & ? & _). eauto.
  - intros id t st. apply periodicSync_tick_sent.
Qed.

Lemma periodic_sync_discipline_witness :
  (length (periodic_timers host_playing) ≤ 1)%nat
  ∧ sent (world (periodicSync_tick host_playing))
    = sent (world host_playing)
      ++ [(0%nat, MsgAction "SEEK" 10%float 1700000000000)].
Proof.
  pose proof (periodic_sync_discipline 1700000000000 (backend_at 10 1) host_plays
                host_playing ltac:(vm_compute; reflexivity))
    as (Hone & _ & _ & _ & Htick).
  split; [exact Hone|].
  exact (Htick 0%nat 10%float 1
           ltac:(vm_compute; reflexivity) ltac:(vm_compute; reflexivity)
           ltac:(vm_compute; reflexivity) ltac:(vm_compute; reflexivity)
           ltac:(vm_compute; reflexivity) ltac:(vm_compute; reflexivity)).
Defined.

(** *** Session Load *)

Lemma commit_app s :
  videoId (app (commit s)) = videoId (app s)
  ∧ videoIdInput (app (commit s)) = videoIdInput (app s)
  ∧ isPlaying (app (commit s)) = isPlaying (app s)
  ∧ role (app (commit s)) = role (app s).
Proof.
  unfold commit. destruct (mounted s); [|done].
  destruct (commit_periodic_silent (commit_player s)) as (_ & _ & _ & _ & Hv & Hr & Hp).
  destruct (commit_periodic_frame (commit_player s)) as (_ & _ & Hi).
  destruct (commit_player_frame s) as (Ha & _).
  rewrite Hv, Hi, Hp, Hr, Ha. done.
Qed.

(** The calls rendering makes to the backend for a mounted, ready player. *)
Lemma commit_calls_ready s p :
  mounted s = true → player s = Some p → playerRef p && isReady p = true →
  player_rendered s = true →
  calls (world (commit s))
  = calls (world s)
    ++ (if bool_decide (videoId_effect_deps p = (videoId (app s), isReady p)) then []
        else if be_accepts (backend (world s)) (LoadVideoById (videoId (app s)))
             then [LoadVideoById (videoId (app s))] else []).
Proof.
  intros Hm Hp Hready Hrend. unfold commit. rewrite Hm.
  destruct (commit_periodic_frame (commit_player s)) as (_ & -> & _).
  unfold commit_player. rewrite Hp, Hrend.
  case_bool_decide; [by rewrite app_nil_r|].
  unfold videoId_effect, backend_call. apply andb_true_iff in Hready as [-> ->].
  ep_simpl. destruct (be_accepts _ _); ep_simpl; [done|by rewrite app_nil_r].
Qed.

(** C7, as stated, fails: a Session Load whose item id is empty is ignored;
    the loaded item and the playing flag stay as they were and the backend is
    not called. *)
Lemma empty_item_id_is_ignored :
  let playing := after 1700000000123 (backend_at 10 2)
                   (client_gets_ready ++ [WsMessage 0 (Data
                      (WireIn None None (Some "PLAY") 12.5%float
                              (Some 1700000000000%float)))]) in
  let s := after 1700000000123 (backend_at 10 2)
             (client_gets_ready
              ++ [WsMessage 0 (Data (WireIn None None (Some "PLAY") 12.5%float
                                            (Some 1700000000000%float)));
                  WsMessage 0 (Data (WireIn (Some "LOAD_VIDEO") (Some "") None
                                            0%float (Some 1700000000000%float)))]) in
  isPlaying (app playing) = true ∧ videoId (app playing) = "dQw4w9WgXcQ"
  ∧ isPlaying (app s) = true ∧ videoId (app s) = "dQw4w9WgXcQ"
  ∧ calls (world s) = calls (world playing)
  ∧ last (console (world s)) = Some (ConsoleLog "Callback executed successfully")
  ∧ ConsoleWarn "handleVideoIdSync called with invalid videoId" ∈ console (world s).
Proof.
  split_and!; try (vm_compute; reflexivity).
  vm_compute. apply list_elem_of_In. simpl. tauto.
Qed.

(** C7, amended. For every non-empty item id of a received Session Load,
    whatever the current state, the loaded item id (and the input field)
    become that id and the playing flag becomes false.  The backend is asked
    to load the id when the player is mounted and ready and the id differs
    from the loaded one; when the id is the one already loaded the backend is
    not called. *)
Theorem session_load_applied
    (t0 : Z) (be : Backend) (evs : list Event) (s s' : Endpoint) (i : nat) (data : wire_in)
    (id : string) :
  run (init t0 be) evs = Some s → mounted s = true →
  m_type data = Some "LOAD_VIDEO" → m_videoId data = Some id → string_truthy id = true →
  step s (WsMessage i (Data data)) = Some s' →
  videoId (app s') = id ∧ videoIdInput (app s') = id ∧ isPlaying (app s') = false
  ∧ (backend_ready s = true → videoId (app s) ≠ id →
     be_accepts (backend (world s)) (LoadVideoById id) = true →
     calls (world s') = calls (world s) ++ [LoadVideoById id])
  ∧ (backend_ready s = true → videoId (app s) = id →
     calls (world s') = calls (world s)).
Proof.
  intros Hrun Hm Htype Hvid Hid Hstep.
  destruct (reachable_Rendered t0 be evs s Hrun) as [_ _ Hplayer _].
  unfold step, handle, socket_event in Hstep.
  destruct (sockets (world s) !! i) as [k|]; [|done]. simpl in Hstep.
  destruct (is_open (sock_state k)); [|done]. simpl in Hstep. injection Hstep as <-.
  unfold onmessage. rewrite Htype, Hvid.
  rewrite bool_decide_eq_false_2 by done. rewrite bool_decide_eq_true_2 by done.
  unfold handleVideoIdSync. rewrite Hid.
  set (s1 := console_log "Callback executed successfully" _).
  assert (videoId (app s1) = id ∧ videoIdInput (app s1) = id ∧ isPlaying (app s1) = false
          ∧ role (app s1) = role (app s) ∧ player s1 = player s
          ∧ calls (world s1) = calls (world s) ∧ backend (world s1) = backend (world s)
          ∧ mounted s1 = mounted s) as (Hv & Hvi & Hp & Hr & Hpl & Hc & Hb & Hm1) by done.
  destruct (commit_app s1) as (-> & -> & -> & _).
  split_and!; [done..| |].
  - intros Hready Hnew Hacc. unfold backend_ready in Hready.
    destruct (player s) as [p|] eqn:Hps; [|done].
    destruct (Hplayer Hm p eq_refl) as [Hdeps Hrend].
    rewrite (commit_calls_ready s1 p); [|congruence|congruence|done|].
    + rewrite Hv, Hb, Hc, Hacc, Hdeps.
      rewrite bool_decide_eq_false_2; [done|]. intros [= ?]. done.
    + unfold player_rendered in *. rewrite Hr, Hv, Hid.
      apply andb_true_iff in Hrend as [-> _]. done.
  - intros Hready Hsame. unfold backend_ready in Hready.
    destruct (player s) as [p|] eqn:Hps; [|done].
    destruct (Hplayer Hm p eq_refl) as [Hdeps Hrend].
    rewrite (commit_calls_ready s1 p); [|congruence|congruence|done|].
    + rewrite Hv, Hc, Hdeps, Hsame. rewrite bool_decide_eq_true_2 by done.
      by rewrite app_nil_r.
    + unfold player_rendered in *. rewrite Hr, Hv, Hid.
      apply andb_true_iff in Hrend as [-> _]. done.
Qed.

Lemma session_load_applied_witness :
  videoId (app (after 1700000000123 (backend_at 10 2)
                  (client_gets_ready ++ [WsMessage 0 (Data load_second)])))
  = "9bZkp7q19f0"
  ∧ isPlaying (app (after 1700000000123 (backend_at 10 2)
                      (client_gets_ready ++ [WsMessage 0 (Data load_second)])))
    = false.
Proof.
  pose proof (session_load_applied 1700000000123 (backend_at 10 2) client_gets_ready
                client_ready
                (after 1700000000123 (backend_at 10 2)
                   (client_gets_ready ++ [WsMessage 0 (Data load_second)]))
                0%nat load_second "9bZkp7q19f0"
                ltac:(vm_compute; reflexivity) ltac:(vm_compute; reflexivity)
                eq_refl eq_refl eq_refl ltac:(vm_compute; reflexivity))
    as (Hv & _ & Hp & _).
  split; [exact Hv | exact Hp].
Defined.

End EndpointTimers.

(** ** Facts about the registry, the order of a broadcast and its log *)

Module RelayRegistry.
Import JS Relay RelaySpec RelayFacts.

Lemma Set_add_elem ws cs D : D ∈ Set_add ws cs ↔ D = ws ∨ D ∈ cs.
Proof.
  unfold Set_add. case_bool_decide as Hin.
  - split; [by right|]. intros [->|?]; done.
  - rewrite elem_of_app, list_elem_of_singleton. tauto.
Qed.

Lemma Set_delete_elem ws cs D : D ∈ Set_delete ws cs ↔ D ≠ ws ∧ D ∈ cs.
Proof. unfold Set_delete. by rewrite list_elem_of_filter. Qed.

Lemma run_snoc history e ev :
  run (history ++ [(e, ev)]) = (step e (run history) ev).1.
Proof. unfold run. by rewrite foldl_app. Qed.

Lemma registered_last D history :
  D ∈ clients (run history) ↔ last (lifecycle_of D history) = Some true.
Proof.
  induction history as [|[e ev] history IH] using rev_ind.
  - simpl. split; [by intros ?%elem_of_nil|done].
  - rewrite run_snoc. unfold lifecycle_of in *. rewrite omap_app. simpl.
    destruct ev as [ws|ws m|ws|ws]; simpl.
    + rewrite Set_add_elem. case_bool_decide as Heq; simpl.
      * rewrite last_snoc. subst. tauto.
      * rewrite app_nil_r, <- IH. split; [intros [->|?]; done | by right].
    + by rewrite app_nil_r.
    + rewrite Set_delete_elem. case_bool_decide as Heq; simpl.
      * rewrite last_snoc. subst. split; [by intros [? _]|done].
      * rewrite app_nil_r, <- IH. split; [by intros [_ ?]|]. intros ?. split; [congruence|done].
    + rewrite Set_delete_elem. case_bool_decide as Heq; simpl.
      * rewrite last_snoc. subst. split; [by intros [? _]|done].
      * rewrite app_nil_r, <- IH. split; [by intros [_ ?]|]. intros ?. split; [congruence|done].
Qed.









(** X1. A connection is registered exactly while the latest of its
    connection, close and error events is a connection; once it has closed or
    failed, and until it connects again, no message handled by the relay
    sends it anything. *)
Theorem registry_tracks_lifecycle
    (history : list (env * event)) (D : conn) :
  (D ∈ clients (run history) ↔ last (lifecycle_of D history) = Some true)
  ∧ (last (lifecycle_of D history) ≠ Some true →
     ∀ e ws message,
       copies_to D (step e (run history) (Message ws message)).2 = []).
Proof.
  split; [apply registered_last|].
  intros Hgone e ws message.
  change (step e (run history) (Message ws message)).2
    with (on_message e (run history) ws message).
  apply on_message_copies_skip. left. by rewrite registered_last.
Qed.

Lemma registry_tracks_lifecycle_witness :
  clients (run second_closed) = [0%nat; 2%nat]
  ∧ copies_to 1%nat (step all_open_at_42 (run second_closed)
                       (Message 0%nat (Parsed seek_12_5))).2 = [].
Proof.
  split; [reflexivity|].
  exact (proj2 (registry_tracks_lifecycle second_closed 1%nat)
           ltac:(vm_compute; discriminate) all_open_at_42 0%nat (Parsed seek_12_5)).
Defined.






End RelayRegistry.

(** ** Facts about [extractVideoId] and [handleLoadVideo] *)

Module InputFacts.
Import JS Endpoint EndpointSpec Input.

Local Arguments String.append !_ _ / : simpl nomatch.

(** *** Text *)

Lemma append_nil_r (s : string) : s +:+ "" = s.
Proof. induction s as [|c s IH]; simpl; [done|by rewrite IH]. Qed.

Lemma append_assoc (a b c : string) : (a +:+ b) +:+ c = a +:+ b +:+ c.
Proof. induction a as [|x a IH]; simpl; [done|by rewrite IH]. Qed.

Lemma trims_to_empty_app a b :
  trims_to_empty (a +:+ b) = trims_to_empty a && trims_to_empty b.
Proof.
  induction a as [|c a IH]; simpl; [done|]. rewrite IH. by destruct (is_white c).
Qed.

Lemma trimStart_blank text : trims_to_empty text = true → trimStart text = "".
Proof.
  induction text as [|c text IH]; simpl; [done|].
  destruct (is_white c); simpl; [done|discriminate].
Qed.

Lemma trimEnd_blank text : trims_to_empty text = true → trimEnd text = "".
Proof.
  induction text as [|c text IH]; simpl; [done|].
  destruct (is_white c); simpl; [|discriminate]. intros H. by rewrite IH.
Qed.

Lemma trimEnd_empty text : trimEnd text = "" → trims_to_empty text = true.
Proof.
  induction text as [|c text IH]; simpl; [done|].
  destruct (trimEnd text) eqn:He; [|discriminate].
  destruct (is_white c); [|discriminate]. simpl. auto.
Qed.

Lemma trimStart_app_blank a text :
  trims_to_empty a = true → trimStart (a +:+ text) = trimStart text.
Proof.
  induction a as [|c a IH]; simpl; [done|].
  destruct (is_white c); simpl; [done|discriminate].
Qed.

Lemma trimEnd_app_blank text b :
  trims_to_empty b = true → trimEnd (text +:+ b) = trimEnd text.
Proof.
  intros Hb. induction text as [|c text IH]; simpl; [by apply trimEnd_blank|].
  by rewrite IH.
Qed.

Lemma trim_app_blank a text b :
  trims_to_empty a = true → trims_to_empty b = true →
  trim (a +:+ text +:+ b) = trim text.
Proof.
  intros Ha Hb. unfold trim. rewrite trimStart_app_blank by done.
  induction text as [|c text IH]; simpl.
  - by rewrite trimStart_blank.
  - destruct (is_white c); [done|].
    change (String c (text +:+ b)) with (String c text +:+ b).
    by apply trimEnd_app_blank.
Qed.

Lemma trimStart_split text :
  ∃ a, text = a +:+ trimStart text ∧ trims_to_empty a = true.
Proof.
  induction text as [|c text (a & IH & Ha)]; simpl; [by exists ""|].
  destruct (is_white c) eqn:Hc.
  - exists (String c a). simpl. rewrite Hc, Ha. by rewrite <- IH.
  - by exists "".
Qed.

Lemma trimEnd_split text :
  ∃ b, text = trimEnd text +:+ b ∧ trims_to_empty b = true.
Proof.
  induction text as [|c text (b & IH & Hb)]; simpl; [by exists ""|].
  destruct (trimEnd text) eqn:He.
  - simpl in IH. subst b. destruct (is_white c) eqn:Hc.
    + exists (String c text). simpl. by rewrite Hc, Hb.
    + exists text. by rewrite Hb.
  - exists b. simpl in *. by rewrite <- IH.
Qed.

Lemma trim_split text :
  ∃ a b, text = a +:+ trim text +:+ b
         ∧ trims_to_empty a = true ∧ trims_to_empty b = true.
Proof.
  destruct (trimStart_split text) as (a & Ht & Ha).
  destruct (trimEnd_split (trimStart text)) as (b & Hs & Hb).
  exists a, b. unfold trim. by rewrite <- Hs.
Qed.


Lemma all_chars_app P a b : all_chars P (a +:+ b) = all_chars P a && all_chars P b.
Proof.
  induction a as [|c a IH]; simpl; [done|]. rewrite IH. by destruct (P c).
Qed.

Lemma all_chars_impl (P Q : Ascii.ascii → bool) text :
  (∀ c, P c = true → Q c = true) → all_chars P text = true → all_chars Q text = true.
Proof.
  intros HPQ. induction text as [|c text IH]; simpl; [done|].
  intros [Hc Ht]%andb_true_iff. rewrite (HPQ c Hc). auto.
Qed.

Lemma is_id_char_not_white c : is_id_char c = true → is_white c = false.
Proof. destruct c as [[] [] [] [] [] [] [] []]; vm_compute; congruence. Qed.

Lemma is_id_char_in_group_class c : is_id_char c = true → in_group_class c = true.
Proof. destruct c as [[] [] [] [] [] [] [] []]; vm_compute; congruence. Qed.

Lemma trimStart_solid text :
  all_chars (λ c, negb (is_white c)) text = true → trimStart text = text.
Proof.
  destruct text as [|c text]; simpl; [done|].
  by destruct (is_white c).
Qed.

Lemma trimEnd_solid text :
  all_chars (λ c, negb (is_white c)) text = true → trimEnd text = text.
Proof.
  induction text as [|c text IH]; simpl; [done|].
  intros [Hc Ht]%andb_true_iff. rewrite IH by done.
  destruct text; [|done]. by destruct (is_white c).
Qed.

Lemma trim_solid text :
  all_chars (λ c, negb (is_white c)) text = true → trim text = text.
Proof. intros H. unfold trim. by rewrite trimStart_solid, trimEnd_solid. Qed.

(** *** The patterns *)

Lemma after_literal_Some lit text tail :
  after_literal lit text = Some tail → text = lit +:+ tail.
Proof.
  revert text. induction lit as [|a lit IH]; intros text; simpl; [congruence|].
  destruct text as [|b text]; [done|].
  destruct (Ascii.eqb_spec a b) as [->|]; [|done].
  intros H. by rewrite (IH _ H).
Qed.

Lemma after_literal_app lit tail : after_literal lit (lit +:+ tail) = Some tail.
Proof.
  induction lit as [|a lit IH]; simpl; [done|]. by rewrite Ascii.eqb_refl.
Qed.

Lemma longest_run_split P text :
  ∃ rest, text = longest_run P text +:+ rest
          ∧ all_chars P (longest_run P text) = true
          ∧ match rest with String c _ => P c = false | EmptyString => True end.
Proof.
  induction text as [|c text (rest & IH & Hall & Hstop)]; simpl; [by exists ""|].
  destruct (P c) eqn:Hc.
  - exists rest. simpl. rewrite Hc, Hall. by rewrite <- IH.
  - by exists (String c text).
Qed.


Lemma string_truthy_spec s : string_truthy s = true ↔ s ≠ "".
Proof.
  unfold string_truthy. rewrite negb_true_iff.
  destruct (String.eqb_spec s ""); split; congruence.
Qed.

Lemma match_markers_Some alternatives text capture :
  match_markers alternatives text = Some capture →
  ∃ lit tail, lit ∈ alternatives ∧ text = lit +:+ tail
              ∧ capture = longest_run in_group_class tail ∧ capture ≠ "".
Proof.
  induction alternatives as [|lit alternatives IH]; simpl; [done|].
  destruct (after_literal lit text) as [tail|] eqn:Hlit.
  - destruct (string_truthy (longest_run in_group_class tail)) eqn:Hrun.
    + intros [= <-]. exists lit, tail. split_and!; [by left| |done|].
      * by apply after_literal_Some.
      * by apply string_truthy_spec.
    + intros (l & t & ? & ?)%IH. exists l, t. split; [by right|done].
  - intros (l & t & ? & ?)%IH. exists l, t. split; [by right|done].
Qed.

Lemma match_url_Some text capture :
  match_url text = Some capture →
  ∃ before lit tail, lit ∈ url_markers ∧ text = before +:+ lit +:+ tail
                     ∧ capture = longest_run in_group_class tail ∧ capture ≠ "".
Proof.
  induction text as [|c text IH].
  - simpl. done.
  - cbn [match_url]. destruct (match_markers url_markers (String c text)) eqn:Hm.
    + intros [= <-]. apply match_markers_Some in Hm as (lit & tail & ? & ? & ? & ?).
      by exists "", lit, tail.
    + intros (before & lit & tail & ? & -> & ?)%IH.
      by exists (String c before), lit, tail.
Qed.






(** A text of id characters holds no alternative of the first pattern:
    each of them has a dot in it. *)
Lemma match_markers_id_chars text :
  all_chars is_id_char text = true → match_markers url_markers text = None.
Proof.
  intros Hall. destruct (match_markers url_markers text) as [capture|] eqn:Hm; [|done].
  apply match_markers_Some in Hm as (lit & tail & Hlit & -> & _).
  exfalso. unfold url_markers in Hlit.
  repeat (apply elem_of_cons in Hlit as [->|Hlit]); [..|by apply elem_of_nil in Hlit];
    vm_compute in Hall; discriminate.
Qed.

Lemma match_url_id_chars text :
  all_chars is_id_char text = true → match_url text = None.
Proof.
  induction text as [|c text IH]; [done|]. intros Hall.
  cbn [match_url]. rewrite match_markers_id_chars by done.
  apply andb_true_iff in Hall as [_ Hall]. auto.
Qed.

(** *** [extractVideoId] *)

Lemma extractVideoId_trimmed text :
  trims_to_empty text = false →
  extractVideoId text
  = match match_url (trim text) with
    | Some capture => Some capture
    | None => match_id (trim text)
    end.
Proof. intros H. unfold extractVideoId. by rewrite H. Qed.

Lemma match_id_Some text id :
  match_id text = Some id →
  id = text ∧ String.length id = 11%nat ∧ all_chars is_id_char id = true.
Proof.
  unfold match_id.
  destruct (Nat.eqb_spec (String.length text) 11) as [Hlen|]; [|done].
  destruct (all_chars is_id_char text) eqn:Hall; [|done].
  by intros [= <-].
Qed.

(** X4. An id that [extractVideoId] returns is never empty, holds none of the
    characters [&], [?], [#] and line feed, and is a piece of the text it was
    given. *)
Theorem extractVideoId_returns_a_piece (text id : string) :
  extractVideoId text = Some id →
  id ≠ "" ∧ all_chars in_group_class id = true
  ∧ ∃ before after, text = before +:+ id +:+ after.
Proof.
  unfold extractVideoId. destruct (trims_to_empty text) eqn:Hblank; [done|].
  destruct (trim_split text) as (a & b & Htext & _ & _).
  destruct (match_url (trim text)) as [capture|] eqn:Hurl.
  - intros [= <-].
    apply match_url_Some in Hurl as (before & lit & tail & _ & Htrim & -> & Hne).
    destruct (longest_run_split in_group_class tail) as (rest & Htail & Hall & _).
    split_and!; [done..|].
    exists (a +:+ before +:+ lit), (rest +:+ b).
    rewrite Htext, Htrim. rewrite Htail at 1. by rewrite !append_assoc.
  - intros (-> & Hlen & Hall)%match_id_Some. split_and!.
    + intros He. by rewrite He in Hlen.
    + revert Hall. apply all_chars_impl, is_id_char_in_group_class.
    + by exists a, b.
Qed.

Lemma extractVideoId_returns_a_piece_witness :
  all_chars in_group_class "dQw4w9WgXcQ" = true
  ∧ ∃ before after, watch_url = before +:+ "dQw4w9WgXcQ" +:+ after.
Proof.
  destruct (extractVideoId_returns_a_piece watch_url "dQw4w9WgXcQ"
              ltac:(vm_compute; reflexivity)) as (_ & Hclass & Hpiece).
  split; [exact Hclass | exact Hpiece].
Defined.

(** X5. White space around the text makes no difference to [extractVideoId]. *)
Theorem extractVideoId_ignores_surrounding_space (a text b : string) :
  trims_to_empty a = true → trims_to_empty b = true →
  extractVideoId (a +:+ text +:+ b) = extractVideoId text.
Proof.
  intros Ha Hb. unfold extractVideoId.
  rewrite !trims_to_empty_app, Ha, Hb, andb_true_r. simpl.
  by rewrite trim_app_blank.
Qed.

Lemma extractVideoId_ignores_surrounding_space_witness :
  extractVideoId ("  " +:+ short_url +:+ " ") = extractVideoId short_url.
Proof.
  apply (extractVideoId_ignores_surrounding_space "  " short_url " ");
    vm_compute; reflexivity.
Defined.

Lemma extractVideoId_of_id_chars (text : string) :
  all_chars is_id_char text = true →
  extractVideoId text
  = if Nat.eqb (String.length text) 11 then Some text else None.
Proof.
  intros Hall. destruct text as [|c text]; [done|].
  assert (all_chars (λ c, negb (is_white c)) (String c text) = true) as Hsolid.
  { revert Hall. apply all_chars_impl. intros x Hx.
    by rewrite (is_id_char_not_white x Hx). }
  rewrite extractVideoId_trimmed.
  - rewrite trim_solid by done. rewrite match_url_id_chars by done.
    unfold match_id. by rewrite Hall, andb_true_r.
  - simpl in *. apply andb_true_iff in Hsolid as [Hc _].
    apply negb_true_iff in Hc. by rewrite Hc.
Qed.

(** X6. A text made of the characters of an id (letters, digits, [_] and [-])
    is accepted, as it is, exactly when it is 11 characters long. *)
Theorem extractVideoId_bare_id (text : string) :
  all_chars is_id_char text = true →
  extractVideoId text
  = if Nat.eqb (String.length text) 11 then Some text else None.
Proof. apply extractVideoId_of_id_chars. Qed.

Lemma extractVideoId_bare_id_witness :
  extractVideoId "dQw4w9WgXcQ" = Some "dQw4w9WgXcQ"
  ∧ extractVideoId "dQw4w9WgXc" = None.
Proof.
  split.
  - exact (extractVideoId_bare_id "dQw4w9WgXcQ" ltac:(vm_compute; reflexivity)).
  - exact (extractVideoId_bare_id "dQw4w9WgXc" ltac:(vm_compute; reflexivity)).
Defined.



(** *** [handleLoadVideo] *)

Lemma extractVideoId_not_blank text id :
  extractVideoId text = Some id → trims_to_empty text = false.
Proof. unfold extractVideoId. by destruct (trims_to_empty text). Qed.

Lemma extractVideoId_truthy text id :
  extractVideoId text = Some id → string_truthy id = true.
Proof.
  unfold extractVideoId. destruct (trims_to_empty text); [done|].
  destruct (match_url (trim text)) as [capture|] eqn:Hurl.
  - intros [= <-]. apply match_url_Some in Hurl as (_ & _ & _ & _ & _ & _ & Hne).
    by apply string_truthy_spec.
  - intros (-> & Hlen & _)%match_id_Some. apply string_truthy_spec.
    intros He. by rewrite He in Hlen.
Qed.

Lemma handleLoadVideo_call_text inputText s :
  inputText ≠ ClickEvent →
  handleLoadVideo_call inputText s
  = if trims_to_empty (textToProcess inputText s)
    then Alerted "Please enter a YouTube video ID or URL"
    else match extractVideoId (textToProcess inputText s) with
         | None => Alerted "Invalid YouTube video ID or URL"
         | Some extractedId => Loaded (handleLoadVideo extractedId s)
         end.
Proof. by destruct inputText. Qed.

(** X8. Called with no argument or with a text, [handleLoadVideo] goes through
    exactly when [extractVideoId] finds an id in the text it works on; it then
    continues with that id, as the [LoadVideo] event of the endpoint does.
    When no id is found it stops at an [alert] and the endpoint stays as it
    is. *)
Theorem handleLoadVideo_call_extracts (inputText : LoadArgument) (s : Endpoint) :
  inputText ≠ ClickEvent →
  (∀ s', handleLoadVideo_call inputText s = Loaded s' ↔
         ∃ id, extractVideoId (textToProcess inputText s) = Some id
               ∧ s' = handleLoadVideo id s)
  ∧ (∀ id, extractVideoId (textToProcess inputText s) = Some id →
       mounted s = true →
       handle (LoadVideo id) s = Some (handleLoadVideo id s))
  ∧ (extractVideoId (textToProcess inputText s) = None →
     ∃ message, handleLoadVideo_call inputText s = Alerted message).
Proof.
  intros Harg. rewrite handleLoadVideo_call_text by done. split_and!.
  - intros s'. split.
    + destruct (trims_to_empty _); [done|].
      destruct (extractVideoId _) as [id|]; [|done].
      intros [= <-]. by exists id.
    + intros (id & Hid & ->).
      by rewrite (extractVideoId_not_blank _ _ Hid), Hid.
  - intros id Hid Hm. simpl. by rewrite Hm, (extractVideoId_truthy _ _ Hid).
  - intros ->. destruct (trims_to_empty _); eauto.
Qed.

Lemma handleLoadVideo_call_extracts_witness :
  handleLoadVideo_call (TextArgument watch_url) client_ready
  = Loaded (handleLoadVideo "dQw4w9WgXcQ" client_ready).
Proof.
  destruct (handleLoadVideo_call_extracts (TextArgument watch_url) client_ready
              ltac:(discriminate)) as (Hloaded & _).
  apply Hloaded. exists "dQw4w9WgXcQ". split; vm_compute; reflexivity.
Defined.


(** *** [handlePaste] *)

(** X10. Pasting a text in which [extractVideoId] finds no id is left to the
    browser.  When an id is found, the default paste is prevented, the input
    box is set to the id, and a call of [handleLoadVideo] with the id is
    deferred by 50 ms.  That call extracts again, from the id: the item is
    loaded only if the id, taken as a text of its own, is accepted (an id of
    11 characters is); with an id of another form, which the Enter key would
    load from the same link, the call ends in an alert. *)
Theorem paste_extracts_twice (pastedText : string) (s : Endpoint) :
  (extractVideoId pastedText = None → handlePaste pastedText s = (false, s, None))
  ∧ (∀ id, extractVideoId pastedText = Some id →
       ∃ d, handlePaste pastedText s = (true, setVideoIdInput id s, Some d)
            ∧ delay d = 50 ∧ argument d = id
            ∧ ∀ s1,
                match extractVideoId id with
                | Some id' =>
                    ∃ s2, handleLoadVideo_deferred d s1 = Loaded s2
                          ∧ videoId (app s2) = id'
                | None => ∃ message, handleLoadVideo_deferred d s1 = Alerted message
                end)
  ∧ (∀ id, extractVideoId pastedText = Some id →
       String.length id = 11%nat → all_chars is_id_char id = true →
       extractVideoId id = Some id).
Proof.
  split_and!.
  - intros Hnone. unfold handlePaste. by rewrite Hnone.
  - intros id Hid. eexists. split; [unfold handlePaste; by rewrite Hid|].
    split_and!; [done..|]. intros s1. unfold handleLoadVideo_deferred. simpl.
    rewrite (extractVideoId_truthy _ _ Hid).
    destruct (extractVideoId id) as [id'|] eqn:Hagain.
    + rewrite (extractVideoId_not_blank _ _ Hagain). eexists. split; [done|].
      destruct (isConnected s); [|done].
      unfold sendVideoIdSync, ws_send. by repeat case_match.
    + destruct (trims_to_empty id); eauto.
  - intros id _ Hlen Hall.
    rewrite (extractVideoId_of_id_chars id Hall). by rewrite Hlen.
Qed.

Lemma paste_extracts_twice_witness :
  extractVideoId odd_url = Some "abc"
  ∧ handleLoadVideo_call (TextArgument odd_url) client_ready
    = Loaded (handleLoadVideo "abc" client_ready)
  ∧ ∃ d, handlePaste odd_url client_ready
         = (true, setVideoIdInput "abc" client_ready, Some d)
         ∧ ∃ message, handleLoadVideo_deferred d client_ready = Alerted message.
Proof.
  split; [vm_compute; reflexivity|]. split; [vm_compute; reflexivity|].
  destruct (proj1 (proj2 (paste_extracts_twice odd_url client_ready)) "abc"
              ltac:(vm_compute; reflexivity)) as (d & Hpaste & _ & _ & Hlater).
  exists d. split; [exact Hpaste|]. exact (Hlater client_ready).
Defined.

End InputFacts.

(** ** Facts about the address [connect] dials *)

Module DialFacts.
Import JS Endpoint Input InputFacts Dial.

Local Arguments String.append !_ _ / : simpl nomatch.

Lemma pageProtocol_cases loc :
  (loc_protocol loc = "https:" ∧ pageProtocol loc = "wss:")
  ∨ (loc_protocol loc ≠ "https:" ∧ pageProtocol loc = "ws:").
Proof.
  unfold pageProtocol. destruct (String.eqb_spec (loc_protocol loc) "https:"); auto.
Qed.

(** X11. Every address dialled is a WebSocket address, and a secure one only from
    a page loaded over https.  From such a page the host dials securely unless
    the page is on [localhost] or [127.0.0.1], and the client dials securely
    unless the address it was given mentions one of the two; a client with
    such an address dials [ws://] on port 8080 from any page. *)
Theorem wsUrl_scheme (loc : Location) (r : option Role) (h : string) :
  ((∃ rest, wsUrl loc r h = "ws://" +:+ rest)
   ∨ (loc_protocol loc = "https:" ∧ ∃ rest, wsUrl loc r h = "wss://" +:+ rest))
  ∧ (loc_protocol loc = "https:" →
     (is_host r = true → loc_hostname loc ≠ "localhost" →
      loc_hostname loc ≠ "127.0.0.1" →
      wsUrl loc r h = "wss://" +:+ loc_host loc)
     ∧ (is_host r = false → h ≠ "" → isRemoteHost h = true →
        ∃ rest, wsUrl loc r h = "wss://" +:+ h +:+ rest))
  ∧ (is_host r = false → h ≠ "" → isRemoteHost h = false →
     wsUrl loc r h = "ws://" +:+ h +:+ ":8080").
Proof.
  split_and!.
  - unfold wsUrl.
    destruct (pageProtocol_cases loc) as [[Hs ->]|[Hs ->]];
      repeat case_match; simpl; eauto.
  - intros Hs. destruct (pageProtocol_cases loc) as [[_ Hp]|[? _]]; [|done].
    unfold wsUrl. rewrite Hp. split.
    + intros -> Hl1 Hl2.
      destruct (String.eqb_spec (loc_hostname loc) "localhost"); [done|].
      by destruct (String.eqb_spec (loc_hostname loc) "127.0.0.1").
    + intros -> Hh ->. rewrite (proj2 (string_truthy_spec h) Hh). simpl. eauto.
  - unfold wsUrl. intros -> Hh ->.
    by rewrite (proj2 (string_truthy_spec h) Hh).
Qed.

Lemma wsUrl_scheme_witness :
  wsUrl tls_page (Some Client) "203.0.113.7" = "wss://203.0.113.7"
  ∧ wsUrl tls_page (Some Client) "localhost" = "ws://localhost:8080".
Proof.
  destruct (wsUrl_scheme tls_page (Some Client) "localhost") as (_ & _ & Hlocal).
  split; [reflexivity|].
  apply Hlocal; [reflexivity | discriminate | reflexivity].
Defined.

(** X12. A client that was given a remote address dials that address as typed,
    followed by the port of the page when the page has one (the digits are
    appended as they are, with no colon before them), and otherwise by
    [:8080] for [ws:] and by nothing for [wss:]. *)
Theorem wsUrl_client_port (loc : Location) (r : option Role) (h : string) :
  is_host r = false → h ≠ "" → isRemoteHost h = true →
  (loc_port loc ≠ "" →
   wsUrl loc r h = pageProtocol loc +:+ "//" +:+ h +:+ loc_port loc)
  ∧ (loc_port loc = "" → loc_protocol loc = "https:" →
     wsUrl loc r h = "wss://" +:+ h)
  ∧ (loc_port loc = "" → loc_protocol loc ≠ "https:" →
     wsUrl loc r h = "ws://" +:+ h +:+ ":8080").
Proof.
  unfold wsUrl. intros -> Hh ->.
  rewrite (proj2 (string_truthy_spec h) Hh). simpl.
  split_and!.
  - intros Hp. by rewrite (proj2 (string_truthy_spec _) Hp).
  - intros -> Hs. unfold pageProtocol. rewrite Hs. simpl.
    by rewrite append_nil_r.
  - intros -> Hs. unfold pageProtocol.
    by destruct (String.eqb_spec (loc_protocol loc) "https:").
Qed.

Lemma wsUrl_client_port_witness :
  wsUrl lan_page (Some Client) "192.168.1.20" = "ws://192.168.1.208080".
Proof.
  destruct (wsUrl_client_port lan_page (Some Client) "192.168.1.20"
              ltac:(reflexivity) ltac:(discriminate) ltac:(reflexivity)) as (Hport & _).
  apply Hport. discriminate.
Defined.

End DialFacts.

(** ** Facts about what an endpoint sends *)

Module OutboxFacts.
Import JS Endpoint EndpointSpec EndpointFacts EndpointTimers Outbox Wire.

Lemma same_link_refl s : same_link s s.
Proof. by repeat split. Qed.

Lemma same_link_trans s1 s2 s3 : same_link s1 s2 → same_link s2 s3 → same_link s1 s3.
Proof. intros (?&?&?&?&?) (?&?&?&?&?). repeat split; congruence. Qed.

Lemma same_link_open s s' : same_link s s' → wsRef_is_open s' = wsRef_is_open s.
Proof.
  intros (Hw & _ & Hs & _). unfold wsRef_is_open, wsRef_readyState. by rewrite Hw, Hs.
Qed.

Lemma same_link_sent s1 s2 s3 :
  same_link s1 s2 → sent_at_most_one s2 s3 → sent_at_most_one s1 s3.
Proof.
  intros Hl [Hs|(id & m & Hs & Hw & Ho & Ht & Hf)].
  - left. destruct Hl as (_ & _ & _ & _ & H). congruence.
  - right. exists id, m. rewrite <- (same_link_open _ _ Hl).
    destruct Hl as (Hw' & _ & _ & Hn & H). split_and!; congruence.
Qed.

Lemma sent_then_silent s1 s2 s3 :
  sent_at_most_one s1 s2 → sent (world s3) = sent (world s2) → sent_at_most_one s1 s3.
Proof.
  intros [Hs|(id & m & Hs & Hrest)] H3; [left; congruence|].
  right. exists id, m. split; [congruence|done].
Qed.

Lemma same_link_silent s s' : same_link s s' → sent_at_most_one s s'.
Proof. intros (_ & _ & _ & _ & H). by left. Qed.

Lemma silent_sent s s' : sent (world s') = sent (world s) → sent_at_most_one s s'.
Proof. by left. Qed.

Lemma sendSyncEvent_sent action time s :
  well_formed (MsgAction action time 0) = true →
  sent_at_most_one s (sendSyncEvent action time s).
Proof.
  intros Hwf. unfold sendSyncEvent.
  destruct (isApplyingRemoteChangeRef (hook s)); [by left|].
  destruct (wsRef_is_open s) eqn:Hopen; [|by left].
  unfold wsRef_is_open, wsRef_readyState in Hopen. unfold ws_send.
  destruct (wsRef (hook s)) as [id|] eqn:Hw; [|done].
  right. exists id, (MsgAction action time (Date_now s)). ep_simpl.
  split_and!; try done.
  unfold wsRef_is_open, wsRef_readyState. by rewrite Hw.
Qed.

Lemma sendVideoIdSync_sent id s :
  string_truthy id = true → sent_at_most_one s (sendVideoIdSync id s).
Proof.
  intros Hid. unfold sendVideoIdSync.
  set (s1 := console_log "WebSocket state:" _).
  apply (same_link_sent s s1); [by repeat split|]. clearbody s1.
  destruct (wsRef (hook s1)) as [ws|] eqn:Hw; [|by left].
  destruct (wsRef_is_open s1) eqn:Hopen; [|by left].
  right. exists ws, (MsgLoadVideo id (now (world s1))).
  unfold ws_send. rewrite Hw. by split_and!.
Qed.

Lemma handleLoadVideo_sent id s :
  string_truthy id = true → sent_at_most_one s (handleLoadVideo id s).
Proof.
  intros Hid. unfold handleLoadVideo.
  destruct (isConnected s); [|by left].
  set (s1 := setIsPlaying false _).
  apply (same_link_sent s s1); [by repeat split|]. by apply sendVideoIdSync_sent.
Qed.

Lemma handlePlayerStateChange_sent action time s :
  well_formed (MsgAction action time 0) = true →
  sent_at_most_one s (handlePlayerStateChange action time s).
Proof.
  intros Hwf. unfold handlePlayerStateChange.
  set (s1 := if String.eqb action "PLAY" then _ else _).
  assert (same_link s s1) as Hl by (subst s1; repeat case_match; by repeat split).
  destruct (is_host (role (app s1)) && isConnected (console_log _ s)).
  - apply (same_link_sent s (console_log "Host: Sending sync event:" s1)).
    + eapply same_link_trans; [done|]. by repeat split.
    + by apply sendSyncEvent_sent.
  - apply same_link_silent. eapply same_link_trans; [done|]. by repeat split.
Qed.

Lemma player_onStateChange_sent p state s :
  sent_at_most_one s (player_onStateChange p state s).
Proof.
  unfold player_onStateChange.
  destruct (Z.eqb state 1); [|destruct (Z.eqb state 2); [|by left]];
    (destruct (negb (isSyncingRef p)); [|by left]);
    ep_simpl; (destruct (be_getCurrentTime _); [|by left]);
    (eapply same_link_sent; [|by apply handlePlayerStateChange_sent]);
    by repeat split.
Qed.

Lemma player_play_pause_link c warning info failure s :
  same_link s (player_play_pause c warning info failure s).2.
Proof.
  unfold player_play_pause, backend_call.
  repeat case_match; simplify_eq/=; by repeat split.
Qed.

Lemma handlePlay_sent s : sent_at_most_one s (handlePlay s).
Proof.
  unfold handlePlay. destruct (negb (handle_isReady s)); [by left|].
  pose proof (player_play_pause_link PlayVideo "Cannot play: player not ready"
                "Playing video at" "Error playing video:" s) as Hl.
  fold (play s) in Hl. destruct (play s) as [[t|] s1]; simpl in Hl.
  - destruct (isConnected s).
    + eapply same_link_sent; [|by apply sendSyncEvent_sent].
      eapply same_link_trans; [done|]. by repeat split.
    + by apply same_link_silent.
  - by apply same_link_silent.
Qed.

Lemma handlePause_sent s : sent_at_most_one s (handlePause s).
Proof.
  unfold handlePause. destruct (negb (handle_isReady s)); [by left|].
  pose proof (player_play_pause_link PauseVideo "Cannot pause: player not ready"
                "Pausing video at" "Error pausing video:" s) as Hl.
  fold (pause s) in Hl. destruct (pause s) as [[t|] s1]; simpl in Hl.
  - destruct (isConnected s).
    + eapply same_link_sent; [|by apply sendSyncEvent_sent].
      eapply same_link_trans; [done|]. by repeat split.
    + by apply same_link_silent.
  - by apply same_link_silent.
Qed.

Lemma periodicSync_tick_one s : sent_at_most_one s (periodicSync_tick s).
Proof.
  unfold periodicSync_tick. repeat case_match; try by left.
  by apply sendSyncEvent_sent.
Qed.

(** *** The clock *)

Lemma clear_reconnect_now s :
  now (world match reconnectTimeoutRef (hook s) with
             | Some id =>
                 if id_truthy id
                 then on_hook (set_reconnectTimeoutRef None) (clearTimeout id s)
                 else s
             | None => s
             end) = now (world s).
Proof. by repeat case_match. Qed.

Lemma ws_close_now id s : now (world (ws_close id s)) = now (world s).
Proof. unfold ws_close. by repeat case_match. Qed.

Lemma disconnect_now s : now (world (disconnect s)) = now (world s).
Proof.
  unfold disconnect. ep_simpl.
  set (s1 := match reconnectTimeoutRef (hook s) with Some _ => _ | None => _ end).
  assert (now (world s1) = now (world s)) as <- by apply clear_reconnect_now.
  clearbody s1. destruct (wsRef (hook s1)); ep_simpl; [apply ws_close_now|done].
Qed.

Lemma onopen_now s : now (world (onopen s)) = now (world s).
Proof. unfold onopen. ep_simpl. by repeat case_match. Qed.

Lemma onclose_now r h s : now (world (onclose r h s)) = now (world s).
Proof. unfold onclose, setTimeout, add_timer. by repeat case_match. Qed.

Lemma onmessage_now raw s :
  now (world (onmessage handleSyncEvent handleVideoIdSync raw s)) = now (world s).
Proof.
  unfold onmessage. destruct raw as [|data]; [done|].
  case_bool_decide; [done|]. case_bool_decide.
  - ep_simpl.
    match goal with |- now (world (handleVideoIdSync ?v ?s0)) = _ =>
      by destruct (handleVideoIdSync_quiet v s0) as (_ & _ & _ & ->) end.
  - destruct (is_sync_action (m_action data)); [|done].
    unfold setTimeout, add_timer. ep_simpl.
    match goal with |- now (world (handleSyncEvent ?a ?t ?ts ?s0)) = _ =>
      by destruct (handleSyncEvent_frame a t ts s0) as (_ & -> & _) end.
Qed.


Lemma periodic_clear_now s : now (world (periodic_clear s)) = now (world s).
Proof. by destruct (periodic_clear_frame s) as (_ & _ & ? & _). Qed.

Lemma periodic_clear_silent s : sent (world (periodic_clear s)) = sent (world s).
Proof. unfold periodic_clear, clearInterval, clearTimeout. by repeat case_match. Qed.

Lemma destroy_quiet s :
  quiet s match player s with
          | Some p =>
              set_player None
                (if playerRef p
                 then catch (backend_call Destroy s) (console_error "Error destroying player:")
                 else s)
          | None => s
          end.
Proof.
  destruct (player s) as [p|]; [|by repeat split].
  destruct (playerRef p); [|by repeat split].
  destruct (catch_backend_call_quiet Destroy "Error destroying player:" s)
    as (? & ? & ? & ?).
  by repeat split.
Qed.

Lemma unmount_silent s :
  sent (world (unmount s)) = sent (world s) ∧ now (world (unmount s)) = now (world s).
Proof.
  unfold unmount.
  set (s1 := match player s with Some _ => _ | None => _ end).
  destruct (destroy_quiet s) as (_ & Hs1 & _ & Hn1). fold s1 in Hs1, Hn1.
  clearbody s1.
  set (s2 := if periodic_cleanup (fx s1) then periodic_clear s1 else s1).
  assert (sent (world s2) = sent (world s1) ∧ now (world s2) = now (world s1)) as [Hs2 Hn2].
  { subst s2. destruct (periodic_cleanup (fx s1)); [|done].
    split; [apply periodic_clear_silent|apply periodic_clear_now]. }
  clearbody s2. set (s3 := on_fx _ s2).
  assert (sent (world s3) = sent (world s2) ∧ now (world s3) = now (world s2))
    as [Hs3 Hn3] by done.
  clearbody s3. ep_simpl.
  destruct (disconnect_tidy s3) as (_ & Hs4 & _).
  rewrite Hs4, disconnect_now. split; congruence.
Qed.


Lemma run_task_sent k s : sent_at_most_one s (run_task k s).
Proof.
  destruct k as [|i|r h|]; simpl.
  - by left.
  - left. by repeat case_match.
  - left. by destruct (connect_quiet r h (console_log "Attempting to reconnect..." s))
      as (_ & -> & _).
  - apply periodicSync_tick_one.
Qed.

Lemma fire_sent id s s' : fire id s = Some s' → sent_at_most_one s s'.
Proof.
  unfold fire. destruct (find_timer id (timers (world s))) as [t|]; [|done]. simpl.
  destruct (Z.leb (due t) (now (world s))); [|done]. intros [= <-].
  eapply same_link_sent; [|apply run_task_sent]. by repeat split.
Qed.


Lemma socket_event_silent id allowed next handler s s' :
  (∀ k s0, sent (world (handler k s0)) = sent (world s0)
           ∧ now (world (handler k s0)) = now (world s0)) →
  socket_event id allowed next handler s = Some s' →
  sent (world s') = sent (world s) ∧ now (world s') = now (world s).
Proof.
  intros Hh. unfold socket_event.
  destruct (sockets (world s) !! id) as [k|]; [|done]. simpl.
  destruct (allowed (sock_state k)); [|done]. intros [= <-].
  destruct next; by destruct (Hh k (on_world (λ w, set_sockets
    (<[id := set_sock_state r k]> (sockets w)) w) s)) || by destruct (Hh k s).
Qed.

(** *** One event *)

Lemma handle_silent ev s s' :
  can_send ev = false → handle ev s = Some s' → sent (world s') = sent (world s).
Proof.
  destruct ev; try discriminate; intros _; simpl.
  - destruct (mounted s); [|done]. intros [= <-].
    by destruct (selectRole_tidy selectedRole s) as (_ & ? & _).
  - destruct (mounted s); [|done]. by intros [= <-].
  - destruct (mounted s); [|done]. intros [= <-]. unfold handleConnect.
    case_match; [done|]. by destruct (connect_quiet (role (app s)) (hostIp (app s)) s)
      as (_ & ? & _).
  - destruct (mounted s); [|done]. intros [= <-].
    by destruct (disconnect_tidy s) as (_ & ? & _).
  - destruct (mounted s); [|done]. intros [= <-]. apply unmount_silent.
  - destruct (Z.leb 0 ms); [|done]. by intros [= <-].
  - intros H. eapply socket_event_silent; [|exact H]. intros k s0. simpl. split.
    + by destruct (onopen_tidy s0) as (_ & ? & _).
    + apply onopen_now.
  - intros H. eapply socket_event_silent; [|exact H]. intros k s0. simpl. split.
    + by destruct (onmessage_tidy raw s0) as (_ & ? & _).
    + apply onmessage_now.
  - intros H. eapply socket_event_silent; [|exact H]. intros k s0. simpl.
    by destruct (onerror_quiet s0) as (_ & ? & _ & ?).
  - intros H. eapply socket_event_silent; [|exact H]. intros k s0. simpl. split.
    + by destruct (onclose_tidy (sock_role k) (sock_hostIp k) s0) as (_ & ? & _).
    + apply onclose_now.
  - destruct (player s) as [p|]; [|done]. destruct (isReady p); [done|].
    intros [= <-]. by destruct (onReady_quiet s) as (_ & ? & _).
  - by intros [= <-].
  - by intros [= <-].
Qed.

Lemma handle_sent ev s s' : handle ev s = Some s' → sent_at_most_one s s'.
Proof.
  destruct (can_send ev) eqn:Hev; [|intros H; left; by apply (handle_silent ev)].
  destruct ev; try discriminate; simpl.
  - destruct (mounted s); [|done]. simpl.
    destruct (string_truthy extractedId) eqn:Hid; [|done]. intros [= <-].
    by apply handleLoadVideo_sent.
  - destruct (mounted s); [|done]. intros [= <-]. apply handlePlay_sent.
  - destruct (mounted s); [|done]. intros [= <-]. apply handlePause_sent.
  - apply fire_sent.
  - destruct (player s) as [p|]; [|done]. intros [= <-].
    apply player_onStateChange_sent.
Qed.


Lemma step_sent s ev s' : step s ev = Some s' → sent_at_most_one s s'.
Proof.
  unfold step. intros (s1 & Hh & ->)%fmap_Some.
  eapply sent_then_silent; [by apply (handle_sent ev)|].
  by destruct (commit_frame s1) as (? & _).
Qed.


Lemma step_silent s ev s' :
  can_send ev = false → step s ev = Some s' → sent (world s') = sent (world s).
Proof.
  intros Hev. unfold step. intros (s1 & Hh & ->)%fmap_Some.
  destruct (commit_frame s1) as (-> & _). by apply (handle_silent ev).
Qed.

Lemma wsRef_is_open_spec s :
  wsRef_is_open s = true ↔
  ∃ id k, wsRef (hook s) = Some id ∧ sockets (world s) !! id = Some k
          ∧ sock_state k = OPEN.
Proof.
  unfold wsRef_is_open, wsRef_readyState. split.
  - destruct (wsRef (hook s)) as [id|]; simpl; [|done].
    destruct (sockets (world s) !! id) as [k|] eqn:Hk; simpl; [|done].
    destruct (sock_state k) eqn:Hst; try done. intros _. by exists id, k.
  - intros (id & k & -> & Hk & Hst). simpl. rewrite Hk. simpl. by rewrite Hst.
Qed.

(** X13. One event makes the endpoint send at most one message.  A message that
    is sent goes over the socket [wsRef] names, which is OPEN at that moment;
    it carries the reading of the clock; and it is a PLAY, PAUSE or SEEK
    action or a Session Load with an item id that is not empty.  Only five
    kinds of event send at all: loading an item, the play and pause buttons, a
    timer that fires, and a notification of the backend; an inbound message, a
    socket event, a change of role, connecting and disconnecting never do. *)
Theorem one_event_one_message (s : Endpoint) (ev : Event) (s' : Endpoint) :
  step s ev = Some s' →
  (sent (world s') = sent (world s)
   ∨ ∃ id k m, sent (world s') = sent (world s) ++ [(id, m)]
               ∧ wsRef (hook s) = Some id
               ∧ sockets (world s) !! id = Some k ∧ sock_state k = OPEN
               ∧ stamp m = now (world s) ∧ well_formed m = true)
  ∧ (can_send ev = false → sent (world s') = sent (world s)).
Proof.
  intros Hstep. split; [|intros Hev; by apply (step_silent s ev)].
  destruct (step_sent s ev s' Hstep) as [?|(id & m & Hs & Hw & Ho & Ht & Hf)]; [by left|].
  right. apply wsRef_is_open_spec in Ho as (id' & k & Hw' & Hk & Hopen).
  exists id, k, m. split_and!; congruence.
Qed.

Lemma one_event_one_message_witness :
  sent (world host_ready) = sent (world host_not_ready)
  ∧ sent (world host_playing)
    = sent (world host_ready) ++ [(0%nat, MsgAction "PLAY" 10%float 1700000000000)].
Proof.
  split.
  - exact (proj2 (one_event_one_message host_not_ready PlayerReady host_ready
                    ltac:(vm_compute; reflexivity)) eq_refl).
  - destruct (one_event_one_message host_ready (PlayerStateChange 1) host_playing
                ltac:(vm_compute; reflexivity)) as (_ & _).
    vm_compute. reflexivity.
Defined.

(** *** Every session *)







End OutboxFacts.

(** ** Facts about the wire: from one endpoint, through the relay, to
    another *)

Module WireFacts.
Import JS Endpoint Outbox Wire Relay RelayFacts.

Local Open Scope float_scope.

Lemma json_number_finite (x : float) :
  PrimFloat.is_finite x = true →
  ∃ y, json_number x = JNum y ∧ PrimFloat.eqb x y = true.
Proof.
  unfold PrimFloat.is_finite, json_number. intros Hfin%negb_true_iff. rewrite Hfin.
  destruct (PrimFloat.eqb x 0) eqn:Hz; [by exists 0|].
  exists x. split; [done|].
  apply orb_false_iff in Hfin as [Hnan _]. unfold PrimFloat.is_nan in Hnan.
  by apply negb_false_iff in Hnan.
Qed.

Lemma action_is_playback action time ts :
  well_formed (MsgAction action time ts) = true →
  is_load_video (to_json (MsgAction action time ts)) = false
  ∧ is_playback_action (to_json (MsgAction action time ts)) = true
  ∧ is_sync_action (Some action) = true.
Proof.
  simpl. intros H.
  destruct (String.eqb_spec action "PLAY") as [->|]; [done|].
  destruct (String.eqb_spec action "PAUSE") as [->|]; [done|].
  by destruct (String.eqb_spec action "SEEK") as [->|].
Qed.

(** X15. A Playback Action that an endpoint sends reaches every other
    registered, OPEN connection as the same action at an equal position: the
    relay recognises it, the copy carries the relay's stamp in place of the
    sender's, and the receiving endpoint reads it as a Playback Action (no
    [type], an action that passes its test).  A Session Load likewise arrives
    with the item id it was sent with. *)
Theorem sent_message_crosses_the_relay
    (history : list (env * event)) (e : env) (ws D : conn)
    (action videoId : string) (time : float) (ts : Z) :
  D ∈ clients (run history) → D ≠ ws → readyState e D = OPEN →
  (well_formed (MsgAction action time ts) = true → PrimFloat.is_finite time = true →
   ∃ k time',
     received <$> copies_to D
       (step e (run history)
             (Message ws (Parsed (to_json (MsgAction action time ts))))).2
     = [Some (Data (WireIn None None (Some action) time'
                           (Some (number_of_ms (Date_now e k)))))]
     ∧ PrimFloat.eqb time time' = true
     ∧ is_sync_action (Some action) = true)
  ∧ (∃ k,
     received <$> copies_to D
       (step e (run history)
             (Message ws (Parsed (to_json (MsgLoadVideo videoId ts))))).2
     = [Some (Data (WireIn (Some "LOAD_VIDEO") (Some videoId) None nan
                           (Some (number_of_ms (Date_now e k)))))]).
Proof.
  intros Hin Hne Hopen.
  assert (eligible e ws D = true) as Hel by (by apply eligible_spec).
  pose proof (run_NoDup history) as Hnd.
  split.
  - intros Hwf Hfin.
    destruct (action_is_playback action time ts Hwf) as (Hlv & Hact & Hsync).
    change (step e (run history) ?ev).2
      with (on_message e (run history) ws (Parsed (to_json (MsgAction action time ts)))).
    destruct (on_message_copies e (run history) ws _ D
                ltac:(by rewrite Hlv, Hact) Hnd) as [Hone _].
    destruct (Hone Hin Hel) as [k ->].
    destruct (json_number_finite time Hfin) as (time' & Hjson & Heq).
    exists k, time'. split_and!; [|done..].
    unfold stamped. rewrite Hlv. simpl. by rewrite Hjson.
  - change (step e (run history) ?ev).2
      with (on_message e (run history) ws (Parsed (to_json (MsgLoadVideo videoId ts)))).
    destruct (on_message_copies e (run history) ws
                (to_json (MsgLoadVideo videoId ts)) D eq_refl Hnd) as [Hone _].
    destruct (Hone Hin Hel) as [k ->]. by exists k.
Qed.

Lemma sent_message_crosses_the_relay_witness :
  ∃ k,
    received <$> copies_to 1%nat
      (step all_open_at_42 (run three_peers)
            (Message 0%nat (Parsed (to_json (MsgLoadVideo "dQw4w9WgXcQ" 7))))).2
    = [Some (Data (WireIn (Some "LOAD_VIDEO") (Some "dQw4w9WgXcQ") None nan
                          (Some (number_of_ms (Date_now all_open_at_42 k)))))].
Proof.
  exact (proj2 (sent_message_crosses_the_relay three_peers all_open_at_42 0%nat 1%nat
                  "PLAY" "dQw4w9WgXcQ" 12.5 7
                  ltac:(vm_compute; repeat constructor) ltac:(lia) ltac:(reflexivity))).
Defined.

End WireFacts.

(** ** Facts about how an endpoint treats what reaches it *)

Module BehaviourFacts.
Import JS Endpoint EndpointSpec EndpointFacts EndpointTimers InputFacts Outbox Wire
  OutboxFacts Behaviour.

Lemma logged_app l1 l2 s : logged l2 (logged l1 s) = logged (l1 ++ l2) s.
Proof.
  unfold logged, on_world, set_world, set_console. simpl. by rewrite <- (assoc_L (++)).
Qed.

Lemma logged_nil s : s = logged [] s.
Proof.
  unfold logged, on_world, set_world, set_console. simpl. rewrite app_nil_r.
  by destruct s as [? ? ? ? [] ?].
Qed.

Lemma console_log_logged text s : console_log text s = logged [ConsoleLog text] s.
Proof. done. Qed.

Lemma console_warn_logged text s : console_warn text s = logged [ConsoleWarn text] s.
Proof. done. Qed.

Lemma console_error_logged text s : console_error text s = logged [ConsoleError text] s.
Proof. done. Qed.

(** Rendering again after only the console has changed does nothing. *)
Lemma commit_logged lines s : Rendered s → commit (logged lines s) = logged lines s.
Proof.
  intros [_ Hdeps Hplayer Hnone].
  destruct (mounted s) eqn:Hm; [|unfold commit; simpl; by rewrite Hm].
  apply commit_idle.
  - by apply Hdeps.
  - by apply Hplayer.
  - by apply Hnone.
Qed.

Lemma socket_event_message id raw s s' :
  handle (WsMessage id raw) s = Some s' →
  s' = onmessage handleSyncEvent handleVideoIdSync raw s
  ∧ ∃ k, sockets (world s) !! id = Some k ∧ sock_state k = OPEN.
Proof.
  simpl. unfold socket_event.
  destruct (sockets (world s) !! id) as [k|]; [|done]. simpl.
  destruct (sock_state k) eqn:Hk; try done. intros [= <-]. eauto.
Qed.

(** X16. The relay's welcome, a text that cannot be parsed, and a message of no
    known shape change nothing at an endpoint but its console. *)
Theorem inert_messages
    (t0 : Z) (be : Backend) (evs : list Event) (s : Endpoint) (i : nat)
    (raw : inbound) (s' : Endpoint) :
  run (init t0 be) evs = Some s →
  Some raw = received Relay.OutConnected ∨ raw = Unparsable
    ∨ (∃ data, raw = Data data ∧ unknown_shape data = true) →
  step s (WsMessage i raw) = Some s' →
  ∃ lines, s' = logged lines s.
Proof.
  intros Hrun Hraw Hstep. pose proof (reachable_Rendered _ _ _ _ Hrun) as Hr.
  unfold step in Hstep. apply fmap_Some in Hstep as (s1 & Hh & ->).
  apply socket_event_message in Hh as [-> _].
  assert (∃ lines, onmessage handleSyncEvent handleVideoIdSync raw s = logged lines s)
    as [lines ->]; [|exists lines; by apply commit_logged].
  unfold onmessage.
  destruct Hraw as [[= ->]|[->|(data & -> & Hshape)]].
  - rewrite bool_decide_eq_true_2 by done.
    rewrite !console_log_logged, !logged_app. eauto.
  - rewrite console_log_logged, console_error_logged, !logged_app. eauto.
  - unfold unknown_shape in Hshape.
    apply andb_true_iff in Hshape as [[H1 H2]%andb_true_iff H3].
    apply negb_true_iff in H1, H2, H3. rewrite H1, H2, H3.
    rewrite !console_log_logged, !logged_app. eauto.
Qed.

Lemma inert_messages_witness :
  ∃ lines,
    after 1700000000123 (backend_at 10 2) (client_connects ++ [WsMessage 0 Unparsable])
    = logged lines (after 1700000000123 (backend_at 10 2) client_connects).
Proof.
  apply (inert_messages 1700000000123 (backend_at 10 2) client_connects _ 0%nat Unparsable).
  - vm_compute. reflexivity.
  - right. by left.
  - vm_compute. reflexivity.
Defined.





(** *** Sending a Playback Action *)

Lemma sendSyncEvent_same_link action time s s1 :
  same_link s s1 →
  sent (world (sendSyncEvent action time s1)) = sent (world (sendSyncEvent action time s)).
Proof.
  intros Hl. pose proof (same_link_open _ _ Hl) as Ho.
  destruct Hl as (Hw & Hf & Hk & Hn & Hs).
  unfold sendSyncEvent, ws_send, Date_now. rewrite Hf, Ho, Hw, Hn.
  repeat case_match; ep_simpl; congruence.
Qed.

Lemma sendSyncEvent_open action time s id :
  isApplyingRemoteChangeRef (hook s) = false → wsRef (hook s) = Some id →
  wsRef_is_open s = true →
  sent (world (sendSyncEvent action time s))
  = sent (world s) ++ [(id, MsgAction action time (now (world s)))].
Proof.
  intros Hf Hw Ho. unfold sendSyncEvent, ws_send. by rewrite Hf, Ho, Hw.
Qed.

Lemma sendSyncEvent_closed action time s :
  isApplyingRemoteChangeRef (hook s) = true ∨ wsRef_is_open s = false →
  sent (world (sendSyncEvent action time s)) = sent (world s).
Proof.
  intros H. unfold sendSyncEvent.
  destruct (isApplyingRemoteChangeRef (hook s)); [done|].
  destruct H as [? | ->]; done.
Qed.

(** *** The suppression flag of the player *)

Lemma syncPlayer_arms s p action time ts :
  player s = Some p → playerRef p = true → isReady p = true →
  player (syncPlayer action time ts s) = Some (set_isSyncingRef true p)
  ∧ timers (world (syncPlayer action time ts s))
    = timers (world s)
      ++ [MkTimer (next_timer (world s)) (now (world s) + 150)
                  (ClearSyncing (inst p)) None].
Proof.
  intros Hp Href Hready. unfold syncPlayer. ep_simpl. rewrite Hp, Href, Hready. ep_simpl.
  set (target := compensatedTime _ _ _).
  assert (∀ s1, player s1 = Some (set_isSyncingRef true p) →
            timers (world s1) = timers (world s) →
            next_timer (world s1) = next_timer (world s) →
            now (world s1) = now (world s) →
            player (setTimeout (ClearSyncing (inst p)) 150
                      (catch (syncPlayer_try action target s1)
                             (console_error "Error syncing player:"))).2
            = Some (set_isSyncingRef true p)
            ∧ timers (world (setTimeout (ClearSyncing (inst p)) 150
                               (catch (syncPlayer_try action target s1)
                                      (console_error "Error syncing player:"))).2)
              = timers (world s)
                ++ [MkTimer (next_timer (world s)) (now (world s) + 150)
                            (ClearSyncing (inst p)) None]) as Hrest.
  { intros s1 Hp1 Ht1 Hn1 Hnow1.
    destruct (syncPlayer_try_frame action target "Error syncing player:" s1)
      as (_ & _ & Hp2 & Ht2 & Hn2 & Hnow2).
    unfold setTimeout, add_timer. ep_simpl. split; [congruence|].
    by rewrite Ht2, Hn2, Hnow2, Ht1, Hn1, Hnow1. }
  destruct ts as [t|]; [destruct (number_truthy t)|];
    apply Hrest; ep_simpl; by rewrite ?Hp.
Qed.

Lemma player_onStateChange_syncing p state s :
  isSyncingRef p = true →
  ∃ lines, player_onStateChange p state s = logged lines s.
Proof.
  intros Hsync. unfold player_onStateChange. rewrite Hsync. simpl negb. cbv iota.
  rewrite !console_log_logged.
  repeat case_match; rewrite ?logged_app; eauto.
Qed.

(** X18. While it applies a remote action the player sets a flag of its own,
    and a timer clears it 150 ms later, whether or not the backend went along.
    While the flag is set a notification of the backend (playing, paused or
    any other) is not passed on: nothing is sent and the playing flag of [App]
    stays as it is.  The timer clears the flag of the mount that armed it, and
    of no other. *)
Theorem player_echo_suppression
    (s : Endpoint) (p : Player) (action : string) (time : float) (ts : option float) :
  player s = Some p → playerRef p = true → isReady p = true →
  let s' := syncPlayer action time ts s in
  player s' = Some (set_isSyncingRef true p)
  ∧ timers (world s')
    = timers (world s)
      ++ [MkTimer (next_timer (world s)) (now (world s) + 150)
                  (ClearSyncing (inst p)) None]
  ∧ (∀ s1 p1 state s2,
       player s1 = Some p1 → isSyncingRef p1 = true →
       step s1 (PlayerStateChange state) = Some s2 →
       sent (world s2) = sent (world s1) ∧ isPlaying (app s2) = isPlaying (app s1))
  ∧ (∀ s1 p1 i, player s1 = Some p1 →
       player (run_task (ClearSyncing i) s1)
       = Some (if Nat.eqb (inst p1) i then set_isSyncingRef false p1 else p1)).
Proof.
  intros Hp Href Hready s'. subst s'.
  destruct (syncPlayer_arms s p action time ts Hp Href Hready) as [Hflag Htimer].
  split_and!; [done|done| |].
  - intros s1 p1 state s2 Hp1 Hsync Hstep.
    unfold step in Hstep. apply fmap_Some in Hstep as (s3 & Hh & ->).
    simpl in Hh. rewrite Hp1 in Hh. injection Hh as <-.
    destruct (player_onStateChange_syncing p1 state s1 Hsync) as [lines ->].
    destruct (commit_frame (logged lines s1)) as (-> & _).
    by destruct (commit_app (logged lines s1)) as (_ & _ & -> & _).
  - intros s1 p1 i Hp1. simpl. rewrite Hp1.
    destruct (Nat.eqb (inst p1) i); [|done]. unfold on_player. simpl. by rewrite Hp1.
Qed.

Lemma player_echo_suppression_witness :
  player (syncPlayer "PLAY" 12.5 None client_ready)
  = (set_isSyncingRef true <$> player client_ready)
  ∧ last (timers (world (syncPlayer "PLAY" 12.5 None client_ready)))
    = Some (MkTimer 1 1700000000273 (ClearSyncing 0) None).
Proof.
  destruct (player_echo_suppression client_ready (MkPlayer 0 true true false ("dQw4w9WgXcQ", true))
              "PLAY" 12.5 None ltac:(vm_compute; reflexivity) ltac:(reflexivity)
              ltac:(reflexivity)) as (Hflag & Htimer & _).
  split; [exact Hflag|]. rewrite Htimer. vm_compute. reflexivity.
Defined.

(** *** Notifications of the backend *)

Lemma handlePlayerStateChange_effect action time s :
  isPlaying (app (handlePlayerStateChange action time s))
  = (if String.eqb action "PLAY" then true
     else if String.eqb action "PAUSE" then false else isPlaying (app s))
  ∧ sent (world (handlePlayerStateChange action time s))
    = (if is_host (role (app s)) && isConnected s
       then sent (world (sendSyncEvent action time s)) else sent (world s)).
Proof.
  unfold handlePlayerStateChange.
  set (s1 := if String.eqb action "PLAY" then _ else _).
  assert (same_link s s1 ∧ role (app s1) = role (app s)
          ∧ isPlaying (app s1)
            = (if String.eqb action "PLAY" then true
               else if String.eqb action "PAUSE" then false else isPlaying (app s)))
    as (Hl & Hr & Hp) by (subst s1; repeat case_match; by repeat split).
  clearbody s1. rewrite Hr.
  change (isConnected (console_log "handlePlayerStateChange called:" s))
    with (isConnected s).
  destruct (is_host (role (app s)) && isConnected s).
  - split.
    + destruct (sendSyncEvent_frame action time
                  (console_log "Host: Sending sync event:" s1)) as (-> & _).
      exact Hp.
    + apply sendSyncEvent_same_link. eapply same_link_trans; [done|]. by repeat split.
  - split; [exact Hp|]. by destruct Hl as (_ & _ & _ & _ & ?).
Qed.

Lemma player_onStateChange_effect p state s t :
  isSyncingRef p = false → be_getCurrentTime (backend (world s)) = Some t →
  match action_of_state state with
  | Some action =>
      isPlaying (app (player_onStateChange p state s)) = String.eqb action "PLAY"
      ∧ sent (world (player_onStateChange p state s))
        = (if is_host (role (app s)) && isConnected s
           then sent (world (sendSyncEvent action t s)) else sent (world s))
  | None => ∃ lines, player_onStateChange p state s = logged lines s
  end.
Proof.
  intros Hsync Ht. unfold player_onStateChange, action_of_state. rewrite Hsync. simpl negb.
  cbv iota. ep_simpl. rewrite Ht.
  destruct (Z.eqb state 1); [|destruct (Z.eqb state 2)].
  - match goal with |- context [handlePlayerStateChange ?a ?x ?s0] =>
      destruct (handlePlayerStateChange_effect a x s0) as [-> ->] end.
    split; [reflexivity|].
    match goal with |- (if ?c then _ else _) = _ =>
      change c with (is_host (role (app s)) && isConnected s) end.
    destruct (is_host (role (app s)) && isConnected s); [|done].
    apply sendSyncEvent_same_link. by repeat split.
  - match goal with |- context [handlePlayerStateChange ?a ?x ?s0] =>
      destruct (handlePlayerStateChange_effect a x s0) as [-> ->] end.
    split; [reflexivity|].
    match goal with |- (if ?c then _ else _) = _ =>
      change c with (is_host (role (app s)) && isConnected s) end.
    destruct (is_host (role (app s)) && isConnected s); [|done].
    apply sendSyncEvent_same_link. by repeat split.
  - by exists [ConsoleLog "Player state changed:"].
Qed.

(** X19. A notification of the backend that playback started or paused, outside
    the suppression window of the player, sets the playing flag of [App]
    whatever the role.  It is passed on to the peers only by a host that is
    connected: as one PLAY or PAUSE at the position the backend reports,
    stamped with the clock, if the transport flag is clear and the socket is
    OPEN.  A client, and an endpoint that is not connected, sends nothing; a
    notification of any other state changes nothing but the console. *)
Theorem native_play_pause_forwarding
    (t0 : Z) (be : Backend) (evs : list Event) (s : Endpoint) (p : Player)
    (state : Z) (t : float) (s' : Endpoint) :
  run (init t0 be) evs = Some s →
  player s = Some p → isSyncingRef p = false →
  be_getCurrentTime (backend (world s)) = Some t →
  step s (PlayerStateChange state) = Some s' →
  (∀ action, action_of_state state = Some action →
     isPlaying (app s') = String.eqb action "PLAY"
     ∧ (role (app s) ≠ Some Host ∨ isConnected s = false →
        sent (world s') = sent (world s))
     ∧ (∀ id, role (app s) = Some Host → isConnected s = true →
          isApplyingRemoteChangeRef (hook s) = false →
          wsRef (hook s) = Some id → wsRef_is_open s = true →
          sent (world s')
          = sent (world s) ++ [(id, MsgAction action t (now (world s)))]))
  ∧ (action_of_state state = None → ∃ lines, s' = logged lines s).
Proof.
  intros Hrun Hp Hsync Ht Hstep.
  pose proof (reachable_Rendered _ _ _ _ Hrun) as Hr.
  unfold step in Hstep. apply fmap_Some in Hstep as (s1 & Hh & ->).
  simpl in Hh. rewrite Hp in Hh. injection Hh as <-.
  pose proof (player_onStateChange_effect p state s t Hsync Ht) as Heff.
  split.
  - intros action Ha. rewrite Ha in Heff. destruct Heff as [Hplaying Hsent].
    destruct (commit_frame (player_onStateChange p state s)) as (-> & _).
    destruct (commit_app (player_onStateChange p state s)) as (_ & _ & -> & _).
    rewrite Hsent. split_and!; [done| |].
    + intros [Hrole|Hconn].
      * destruct (role (app s)) as [[]|]; done.
      * by rewrite Hconn, andb_false_r.
    + intros id -> -> Hf Hw Ho. simpl. by apply sendSyncEvent_open.
  - intros Hnone. rewrite Hnone in Heff. destruct Heff as [lines ->].
    exists lines. by apply commit_logged.
Qed.

Lemma native_play_pause_forwarding_witness :
  isPlaying (app host_playing) = true
  ∧ sent (world host_playing)
    = sent (world host_ready) ++ [(0%nat, MsgAction "PLAY" 10%float 1700000000000)].
Proof.
  destruct (native_play_pause_forwarding 1700000000000 (backend_at 10 1)
              (host_loads ++ [PlayerReady]) host_ready
              (MkPlayer 0 true true false ("dQw4w9WgXcQ", true)) 1 10%float host_playing
              ltac:(vm_compute; reflexivity) ltac:(vm_compute; reflexivity)
              ltac:(reflexivity) ltac:(vm_compute; reflexivity)
              ltac:(vm_compute; reflexivity)) as (Hplay & _).
  destruct (Hplay "PLAY" eq_refl) as (Hflag & _ & Hsent).
  split; [exact Hflag|].
  exact (Hsent 0%nat ltac:(vm_compute; reflexivity) ltac:(vm_compute; reflexivity)
           ltac:(vm_compute; reflexivity) ltac:(vm_compute; reflexivity)
           ltac:(vm_compute; reflexivity)).
Defined.

(** *** The play and pause buttons *)

Lemma player_play_pause_done c warning info failure s t :
  backend_ready s = true → be_getCurrentTime (backend (world s)) = Some t →
  be_accepts (backend (world s)) c = true →
  player_play_pause c warning info failure s
  = (Some t, logged [ConsoleLog info] (on_world (λ w, set_calls (calls w ++ [c]) w) s)).
Proof.
  unfold backend_ready, player_play_pause, backend_call.
  destruct (player s) as [p|]; [|done].
  intros [-> ->]%andb_true_iff -> ->. done.
Qed.

Lemma player_play_pause_failed c warning info failure s :
  backend_ready s = false ∨ be_getCurrentTime (backend (world s)) = None
    ∨ be_accepts (backend (world s)) c = false →
  ∃ lines, player_play_pause c warning info failure s = (None, logged lines s).
Proof.
  unfold backend_ready, player_play_pause, backend_call.
  destruct (player s) as [p|]; [|intros _; exists []; f_equal; apply logged_nil].
  destruct (playerRef p), (isReady p); simpl;
    try (by exists [ConsoleWarn warning]).
  destruct (be_getCurrentTime (backend (world s))); [|by exists [ConsoleError failure]].
  destruct (be_accepts (backend (world s)) c); [|by exists [ConsoleError failure]].
  intros [?|[?|?]]; done.
Qed.

(** Rendering again calls nothing on the backend when the player and what it
    is rendered from are as they were. *)
Lemma commit_calls_unchanged s s1 :
  Rendered s → videoId (app s1) = videoId (app s) → role (app s1) = role (app s) →
  player s1 = player s → mounted s1 = mounted s →
  calls (world (commit s1)) = calls (world s1).
Proof.
  intros [_ _ Hplayer Hnone] Hv Hr Hp Hm. unfold commit.
  destruct (mounted s1) eqn:Hm1; [|done].
  assert (mounted s = true) as Hms by congruence.
  destruct (commit_periodic_frame (commit_player s1)) as (_ & -> & _).
  assert (player_rendered s1 = player_rendered s) as Hpr
    by (unfold player_rendered; by rewrite Hv, Hr).
  unfold commit_player. rewrite Hp, Hpr, Hv.
  destruct (player s) as [p|] eqn:Hps.
  - destruct (Hplayer Hms p eq_refl) as [-> ->]. by rewrite bool_decide_eq_true_2.
  - by rewrite (Hnone Hms eq_refl).
Qed.

Lemma button_handle play s :
  mounted s = true →
  handle (button_event play) s
  = Some (if negb (handle_isReady s)
          then console_warn (if play then "Cannot play: player not ready"
                             else "Cannot pause: player not ready") s
          else
            let '(currentTime, s1) :=
              player_play_pause (button_call play)
                (if play then "Cannot play: player not ready"
                 else "Cannot pause: player not ready")
                (if play then "Playing video at" else "Pausing video at")
                (if play then "Error playing video:" else "Error pausing video:") s in
            match currentTime with
            | Some t =>
                if isConnected s
                then sendSyncEvent (button_action play) t (setIsPlaying play s1)
                else s1
            | None => s1
            end).
Proof. intros Hm. destruct play; simpl; by rewrite Hm. Qed.

Lemma backend_ready_handle s : backend_ready s = true → handle_isReady s = true.
Proof.
  unfold backend_ready, handle_isReady. destruct (player s); [|done].
  by intros [_ ?]%andb_true_iff.
Qed.

(** X20. The play and pause buttons.  With the backend ready and going along,
    a click calls play (or pause) on it; if the endpoint is connected the
    playing flag follows and one PLAY (or PAUSE) is sent, at the position the
    backend reported before the call, when the transport flag is clear and the
    socket is OPEN; if it is not connected the backend is still called, but
    the playing flag is left as it was and nothing is sent.  With the backend
    not ready, or failing, the click changes nothing but the console. *)
Theorem play_pause_buttons
    (t0 : Z) (be : Backend) (evs : list Event) (s : Endpoint) (play : bool)
    (s' : Endpoint) :
  run (init t0 be) evs = Some s →
  step s (button_event play) = Some s' →
  (∀ t, backend_ready s = true →
     be_getCurrentTime (backend (world s)) = Some t →
     be_accepts (backend (world s)) (button_call play) = true →
     calls (world s') = calls (world s) ++ [button_call play]
     ∧ (isConnected s = true →
        isPlaying (app s') = play
        ∧ ∀ id, isApplyingRemoteChangeRef (hook s) = false →
            wsRef (hook s) = Some id → wsRef_is_open s = true →
            sent (world s')
            = sent (world s) ++ [(id, MsgAction (button_action play) t (now (world s)))])
     ∧ (isConnected s = false →
        isPlaying (app s') = isPlaying (app s) ∧ sent (world s') = sent (world s)))
  ∧ (backend_ready s = false ∨ be_getCurrentTime (backend (world s)) = None
       ∨ be_accepts (backend (world s)) (button_call play) = false →
     ∃ lines, s' = logged lines s).
Proof.
  intros Hrun Hstep. pose proof (reachable_Rendered _ _ _ _ Hrun) as Hr.
  unfold step in Hstep. apply fmap_Some in Hstep as (s1 & Hh & ->).
  assert (mounted s = true) as Hm.
  { destruct (mounted s) eqn:Hm; [done|]. destruct play; simpl in Hh; by rewrite Hm in Hh. }
  rewrite (button_handle play s Hm) in Hh. injection Hh as <-. split.
  - intros t Hready Ht Hok.
    rewrite (backend_ready_handle s Hready). simpl negb. cbv iota.
    rewrite (player_play_pause_done _ _ _ _ s t Hready Ht Hok).
    set (s1 := logged _ _).
    assert (same_link s s1 ∧ app s1 = app s ∧ player s1 = player s
            ∧ mounted s1 = mounted s
            ∧ calls (world s1) = calls (world s) ++ [button_call play])
      as (Hl & Ha & Hp & Hm1 & Hc) by (by repeat split).
    clearbody s1. destruct (isConnected s) eqn:Hconn.
    + set (s2 := sendSyncEvent _ _ _).
      destruct (sendSyncEvent_frame (button_action play) t (setIsPlaying play s1))
        as (Ha2 & _ & Hp2 & _ & Hm2 & _). fold s2 in Ha2, Hp2, Hm2.
      split_and!.
      * rewrite (commit_calls_unchanged s s2 Hr); [| by rewrite Ha2; simpl; rewrite Ha
                                                    | by rewrite Ha2; simpl; rewrite Ha
                                                    | by rewrite Hp2 | by rewrite Hm2].
        subst s2. rewrite <- Hc.
        unfold sendSyncEvent, ws_send. by repeat case_match.
      * intros _. split.
        -- destruct (commit_app s2) as (_ & _ & -> & _). by rewrite Ha2.
        -- intros id Hf Hw Ho. destruct (commit_frame s2) as (-> & _). subst s2.
           rewrite (sendSyncEvent_same_link _ _ s); [by apply sendSyncEvent_open|].
           eapply same_link_trans; [done|]. by repeat split.
      * done.
    + split_and!; [|done|].
      * rewrite (commit_calls_unchanged s s1 Hr); [done|by rewrite Ha..|done|done].
      * intros _. destruct (commit_app s1) as (_ & _ & -> & _).
        destruct (commit_frame s1) as (-> & _). rewrite Ha.
        by destruct Hl as (_ & _ & _ & _ & ?).
  - intros Hfail.
    assert (∃ lines, (if negb (handle_isReady s)
          then console_warn (if play then "Cannot play: player not ready"
                             else "Cannot pause: player not ready") s
          else
            let '(currentTime, s1) :=
              player_play_pause (button_call play)
                (if play then "Cannot play: player not ready"
                 else "Cannot pause: player not ready")
                (if play then "Playing video at" else "Pausing video at")
                (if play then "Error playing video:" else "Error pausing video:") s in
            match currentTime with
            | Some t =>
                if isConnected s
                then sendSyncEvent (button_action play) t (setIsPlaying play s1)
                else s1
            | None => s1
            end) = logged lines s) as [lines ->];
      [|exists lines; by apply commit_logged].
    destruct (negb (handle_isReady s)); [by eexists [_]|].
    by destruct (player_play_pause_failed (button_call play)
                (if play then "Cannot play: player not ready"
                 else "Cannot pause: player not ready")
                (if play then "Playing video at" else "Pausing video at")
                (if play then "Error playing video:" else "Error pausing video:") s Hfail)
      as [lines ->]; exists lines.
Qed.

Lemma play_pause_buttons_witness :
  calls (world (after 1700000000123 (backend_at 10 2) (client_gets_ready ++ [ClickPlay])))
  = calls (world client_ready) ++ [PlayVideo]
  ∧ sent (world (after 1700000000123 (backend_at 10 2) (client_gets_ready ++ [ClickPlay])))
    = sent (world client_ready) ++ [(0%nat, MsgAction "PLAY" 10%float 1700000000123)].
Proof.
  destruct (play_pause_buttons 1700000000123 (backend_at 10 2) client_gets_ready
              client_ready true
              (after 1700000000123 (backend_at 10 2) (client_gets_ready ++ [ClickPlay]))
              ltac:(vm_compute; reflexivity) ltac:(vm_compute; reflexivity)) as (Hdone & _).
  destruct (Hdone 10%float ltac:(vm_compute; reflexivity) ltac:(vm_compute; reflexivity)
              ltac:(vm_compute; reflexivity)) as (Hcalls & Hconn & _).
  split; [exact Hcalls|].
  exact (proj2 (Hconn ltac:(vm_compute; reflexivity)) 0%nat ltac:(vm_compute; reflexivity)
           ltac:(vm_compute; reflexivity) ltac:(vm_compute; reflexivity)).
Defined.

(** *** Loading an item *)

Lemma sendVideoIdSync_sends id s :
  sent (world (sendVideoIdSync id s))
  = sent (world s)
    ++ match wsRef (hook s) with
       | Some ws => if wsRef_is_open s then [(ws, MsgLoadVideo id (now (world s)))] else []
       | None => []
       end.
Proof.
  unfold sendVideoIdSync.
  set (s1 := console_log "WebSocket state:" _).
  assert (same_link s s1) as Hl by (by repeat split).
  pose proof (same_link_open _ _ Hl) as Ho.
  destruct Hl as (Hw & _ & _ & Hn & Hs). rewrite <- Hw, <- Ho, <- Hn, <- Hs.
  clearbody s1.
  destruct (wsRef (hook s1)) as [ws|] eqn:Hw1; [|by rewrite app_nil_r].
  destruct (wsRef_is_open s1); [|by rewrite app_nil_r].
  unfold ws_send. by rewrite Hw1.
Qed.

(** X21. Loading an item (the id is the one [extractVideoId] found, so it is
    not empty) makes it the item of the endpoint, puts it in the input box
    and clears the playing flag.  If the endpoint is connected and its socket
    is OPEN, one Session Load with that id, stamped with the clock, is sent,
    whether or not the suppression flag is set; otherwise nothing is sent. *)
Theorem load_video_is_announced (s : Endpoint) (id : string) (s' : Endpoint) :
  step s (LoadVideo id) = Some s' →
  id ≠ "" ∧ videoId (app s') = id ∧ videoIdInput (app s') = id
  ∧ isPlaying (app s') = false
  ∧ (∀ ws, isConnected s = true → wsRef (hook s) = Some ws → wsRef_is_open s = true →
       sent (world s') = sent (world s) ++ [(ws, MsgLoadVideo id (now (world s)))])
  ∧ (isConnected s = false ∨ wsRef_is_open s = false →
     sent (world s') = sent (world s)).
Proof.
  intros Hstep. unfold step in Hstep. apply fmap_Some in Hstep as (s1 & Hh & ->).
  simpl in Hh. destruct (mounted s); [|done]. simpl in Hh.
  destruct (string_truthy id) eqn:Hid; [|done]. injection Hh as <-.
  destruct (commit_app (handleLoadVideo id s)) as (-> & -> & -> & _).
  destruct (commit_frame (handleLoadVideo id s)) as (-> & _).
  unfold handleLoadVideo.
  set (s1 := setIsPlaying false _).
  assert (same_link s s1 ∧ videoId (app s1) = id ∧ videoIdInput (app s1) = id
          ∧ isPlaying (app s1) = false) as (Hl & Hv & Hi & Hp) by (by repeat split).
  pose proof (same_link_open _ _ Hl) as Ho.
  pose proof (sendVideoIdSync_sends id s1) as Hsent.
  assert (app (sendVideoIdSync id s1) = app s1) as Happ.
  { unfold sendVideoIdSync, ws_send. by repeat case_match. }
  destruct Hl as (Hw & _ & _ & Hn & Hs). rewrite Hw, Ho, Hn, Hs in Hsent.
  clearbody s1. split_and!.
  - intros ->. discriminate Hid.
  - destruct (isConnected s); [by rewrite Happ|done].
  - destruct (isConnected s); [by rewrite Happ|done].
  - destruct (isConnected s); [by rewrite Happ|done].
  - intros ws -> Hws Hopen. by rewrite Hsent, Hws, Hopen.
  - intros [-> | Hclosed]; [done|].
    destruct (isConnected s); [|done]. rewrite Hsent, Hclosed.
    destruct (wsRef (hook s)); by rewrite app_nil_r.
Qed.

Lemma load_video_is_announced_witness :
  videoId (app host_not_ready) = "dQw4w9WgXcQ"
  ∧ sent (world host_not_ready) = [(0%nat, MsgLoadVideo "dQw4w9WgXcQ" 1700000000000)].
Proof.
  destruct (load_video_is_announced
              (after 1700000000000 (backend_at 10 1)
                 [SelectRole (Some Host); ClickConnect; WsOpen 0])
              "dQw4w9WgXcQ" host_not_ready ltac:(vm_compute; reflexivity))
    as (_ & Hid & _ & _ & Hsent & _).
  split; [exact Hid|].
  exact (Hsent 0%nat ltac:(vm_compute; reflexivity) ltac:(vm_compute; reflexivity)
           ltac:(vm_compute; reflexivity)).
Defined.

(** *** Reconnecting *)

Lemma commit_sockets s : sockets (world (commit s)) = sockets (world s).
Proof.
  unfold commit. destruct (mounted s); [|done].
  assert (∀ s0, sockets (world (commit_periodic s0)) = sockets (world s0)) as Hper.
  { intros s0. unfold commit_periodic, periodic_effect, periodic_clear, setInterval,
      add_timer, clearInterval, clearTimeout.
    repeat case_match; simplify_eq/=; done. }
  rewrite Hper. unfold commit_player, videoId_effect, backend_call.
  repeat case_match; simplify_eq/=; done.
Qed.

Lemma connect_dials r h s :
  wsRef_is_open s = false → string_truthy h = true →
  ws_ctor_throws (world s) = false →
  sockets (world (connect r h s)) = sockets (world s) ++ [MkSocket r h CONNECTING]
  ∧ wsRef (hook (connect r h s)) = Some (length (sockets (world s)))
  ∧ connectionStatus (hook (connect r h s)) = connecting.
Proof.
  intros Ho Hh Hthrows. unfold connect. rewrite Ho, Hh. simpl. ep_simpl.
  by rewrite Hthrows.
Qed.

(** X22. The reconnect timer, once due, fires, and dials the address that the
    socket which closed had been created with: the role and the host address
    of that time, whatever [App] holds now.  The new socket becomes the current
    one and the status becomes "connecting"; the sockets made before are left
    as they are.  If the current socket is OPEN by then, the attempt does
    nothing. *)
Theorem reconnect_dials_the_captured_address
    (t0 : Z) (be : Backend) (evs : list Event) (s : Endpoint) (t : Timer)
    (r : option Role) (h : string) :
  run (init t0 be) evs = Some s →
  t ∈ timers (world s) → task t = Reconnect r h → h ≠ "" → due t ≤ now (world s) →
  ∃ s', step s (TimerFires (tid t)) = Some s'
    ∧ (wsRef_is_open s = false → ws_ctor_throws (world s) = false →
       sockets (world s') = sockets (world s) ++ [MkSocket r h CONNECTING]
       ∧ wsRef (hook s') = Some (length (sockets (world s)))
       ∧ connectionStatus (hook s') = connecting)
    ∧ (wsRef_is_open s = true →
       sockets (world s') = sockets (world s) ∧ hook s' = hook s).
Proof.
  intros Hrun Hin Htask Hh Hdue.
  destruct (reachable_Rendered _ _ _ _ Hrun) as [[_ _ Hnd _ _ _] _ _ _].
  simpl in Hnd.
  pose proof (find_timer_unique _ t Hnd Hin) as Hfind.
  apply string_truthy_spec in Hh.
  eexists. split.
  { unfold step. simpl. unfold fire. rewrite Hfind. simpl.
    apply Z.leb_le in Hdue. rewrite Hdue, Htask. reflexivity. }
  rewrite commit_sockets.
  match goal with |- context [commit ?x] =>
    destruct (commit_frame x) as (_ & -> & _) end.
  simpl run_task.
  set (s1 := console_log _ _).
  assert (wsRef_is_open s1 = wsRef_is_open s
          ∧ sockets (world s1) = sockets (world s) ∧ hook s1 = hook s
          ∧ ws_ctor_throws (world s1) = ws_ctor_throws (world s))
    as (Ho & Hk & Hhook & Hthrows) by done.
  clearbody s1. split.
  - intros Hclosed Hctor. rewrite <- Ho in Hclosed. rewrite <- Hthrows in Hctor.
    destruct (connect_dials r h s1 Hclosed Hh Hctor) as (-> & -> & ->).
    by rewrite Hk.
  - intros Hopen. rewrite <- Ho in Hopen. unfold connect. by rewrite Hopen.
Qed.

Lemma reconnect_dials_the_captured_address_witness :
  hostIp (app (after 1000 (backend_at 10 2) client_retargets)) = "10.0.0.9"
  ∧ ∃ s', step (after 1000 (backend_at 10 2) client_retargets) (TimerFires 1) = Some s'
          ∧ sockets (world s')
            = [MkSocket (Some Client) "192.168.1.20" CLOSED;
               MkSocket (Some Client) "192.168.1.20" CONNECTING].
Proof.
  split; [vm_compute; reflexivity|].
  destruct (reconnect_dials_the_captured_address 1000 (backend_at 10 2) client_retargets
              (after 1000 (backend_at 10 2) client_retargets)
              (MkTimer 1 4000 (Reconnect (Some Client) "192.168.1.20") None)
              (Some Client) "192.168.1.20"
              ltac:(vm_compute; reflexivity) ltac:(vm_compute; repeat constructor)
              ltac:(reflexivity) ltac:(discriminate) ltac:(vm_compute; discriminate))
    as (s' & Hstep & Hdial & _).
  exists s'. split; [exact Hstep|].
  destruct (Hdial ltac:(vm_compute; reflexivity) ltac:(vm_compute; reflexivity))
    as (Hsockets & _).
  rewrite Hsockets. vm_compute. reflexivity.
Defined.

(** *** The backend becomes ready *)

Lemma onReady_effect s p :
  player s = Some p →
  player (onReady s) = Some (set_playerRef true (set_isReady true p))
  ∧ app (onReady s) = app s ∧ mounted (onReady s) = mounted s
  ∧ backend (world (onReady s)) = backend (world s)
  ∧ calls (world (onReady s))
    = calls (world s)
      ++ (if string_truthy (videoId (app s))
          then if be_accepts (backend (world s)) (LoadVideoById (videoId (app s)))
               then [LoadVideoById (videoId (app s))] else []
          else []).
Proof.
  intros Hp. unfold onReady, backend_call. ep_simpl.
  destruct (string_truthy (videoId (app s)));
    [destruct (be_accepts (backend (world s)) (LoadVideoById (videoId (app s))))|];
    ep_simpl; rewrite Hp, ?app_nil_r; done.
Qed.

(** X23. When the backend reports that it is ready, the item is loaded twice:
    [onReady] loads it, and the effect that depends on [videoId] and [isReady]
    loads it again when the component is rendered with [isReady] set. *)
Theorem ready_loads_the_item_twice
    (t0 : Z) (be : Backend) (evs : list Event) (s : Endpoint) (p : Player) :
  run (init t0 be) evs = Some s →
  mounted s = true → player s = Some p → isReady p = false →
  be_accepts (backend (world s)) (LoadVideoById (videoId (app s))) = true →
  ∃ s', step s PlayerReady = Some s'
    ∧ backend_ready s' = true
    ∧ calls (world s')
      = calls (world s)
        ++ [LoadVideoById (videoId (app s)); LoadVideoById (videoId (app s))].
Proof.
  intros Hrun Hm Hp Hnr Hok.
  destruct (reachable_Rendered _ _ _ _ Hrun) as [_ _ Hplayer _].
  destruct (Hplayer Hm p Hp) as [Hdeps Hrendered].
  assert (string_truthy (videoId (app s)) = true) as Hv.
  { unfold player_rendered in Hrendered. by apply andb_true_iff in Hrendered as [_ ?]. }
  exists (commit (onReady s)). split.
  { unfold step. simpl. by rewrite Hp, Hnr. }
  destruct (onReady_effect s p Hp) as (Hp1 & Ha1 & Hm1 & Hb1 & Hc1).
  rewrite Hv, Hok in Hc1.
  split.
  - unfold backend_ready, commit. rewrite Hm1, Hm.
    destruct (commit_periodic_silent (commit_player (onReady s))) as (_ & _ & -> & _).
    unfold commit_player. rewrite Hp1.
    assert (player_rendered (onReady s) = true) as ->
      by (unfold player_rendered in *; by rewrite Ha1).
    rewrite bool_decide_eq_false_2.
    + destruct (videoId_effect_frame (set_playerRef true (set_isReady true p))
        (on_player (set_videoId_effect_deps
           (videoId (app (onReady s)), isReady (set_playerRef true (set_isReady true p))))
           (onReady s))) as (-> & _).
      unfold on_player. simpl. by rewrite Hp1.
    + simpl. rewrite Hdeps, Hnr. intros [= _ ?].
  - rewrite (commit_calls_ready (onReady s) (set_playerRef true (set_isReady true p)));
      [|by rewrite Hm1|done|done|unfold player_rendered in *; by rewrite Ha1].
    rewrite bool_decide_eq_false_2.
    + rewrite Hb1, Ha1, Hok, Hc1. by rewrite <- app_assoc.
    + simpl. rewrite Hdeps, Hnr. intros [= _ ?].
Qed.

Lemma ready_loads_the_item_twice_witness :
  ∃ s', step client_not_ready PlayerReady = Some s'
        ∧ calls (world s')
          = [LoadVideoById "dQw4w9WgXcQ"; LoadVideoById "dQw4w9WgXcQ"].
Proof.
  destruct (ready_loads_the_item_twice 1700000000123 (backend_at 10 2) client_loads
              client_not_ready (MkPlayer 0 false false false ("dQw4w9WgXcQ", false))
              ltac:(vm_compute; reflexivity) ltac:(vm_compute; reflexivity)
              ltac:(vm_compute; reflexivity) ltac:(reflexivity)
              ltac:(vm_compute; reflexivity)) as (s' & Hstep & _ & Hcalls).
  exists s'. split; [exact Hstep|]. rewrite Hcalls. vm_compute. reflexivity.
Defined.

(** *** Changing role *)





(** *** Unmounting *)




(** *** A backend that fails *)

Local Open Scope float_scope.

Lemma syncPlayer_try_throws action target s :
  be_getCurrentTime (backend (world s)) = None
  ∨ (∃ cur, be_getCurrentTime (backend (world s)) = Some cur
            ∧ PrimFloat.ltb (seekThreshold action) (PrimFloat.abs (target - cur)) = true
            ∧ be_accepts (backend (world s)) (SeekTo target true) = false) →
  syncPlayer_try action target s = Threw s.
Proof.
  unfold syncPlayer_try, backend_call.
  intros [-> | (cur & -> & -> & ->)]; reflexivity.
Qed.

Lemma syncPlayer_failed s p action time ts :
  player s = Some p → playerRef p = true → isReady p = true →
  (be_getCurrentTime (backend (world s)) = None
   ∨ ∃ cur, be_getCurrentTime (backend (world s)) = Some cur
            ∧ PrimFloat.ltb (seekThreshold action)
                (PrimFloat.abs (compensatedTime (number_of_ms (Date_now s)) time ts - cur))
              = true
            ∧ be_accepts (backend (world s))
                (SeekTo (compensatedTime (number_of_ms (Date_now s)) time ts) true)
              = false) →
  calls (world (syncPlayer action time ts s)) = calls (world s)
  ∧ last (console (world (syncPlayer action time ts s)))
    = Some (ConsoleError "Error syncing player:").
Proof.
  intros Hp Href Hready Hfail. unfold syncPlayer. ep_simpl. rewrite Hp, Href, Hready.
  ep_simpl.
  set (target := compensatedTime _ _ _) in *.
  assert (∀ s1, backend (world s1) = backend (world s) →
            calls (world s1) = calls (world s) →
            calls (world (setTimeout (ClearSyncing (inst p)) 150
                     (catch (syncPlayer_try action target s1)
                            (console_error "Error syncing player:"))).2)
            = calls (world s)
            ∧ last (console (world (setTimeout (ClearSyncing (inst p)) 150
                     (catch (syncPlayer_try action target s1)
                            (console_error "Error syncing player:"))).2))
              = Some (ConsoleError "Error syncing player:")) as Hrest.
  { intros s1 Hb Hc. rewrite syncPlayer_try_throws by (by rewrite Hb).
    unfold setTimeout, add_timer. ep_simpl. split; [done|]. by rewrite last_snoc. }
  destruct ts as [t|]; [destruct (number_truthy t)|]; by apply Hrest.
Qed.

(** X26. A backend that throws does not stop [syncPlayer]: when reading the
    position throws, or the seek does, the error is written to the console,
    the calls that would have followed (play, pause) are not made, the flag of
    the player is still set and its 150 ms timer armed.  [handleSyncEvent]
    goes on to set the playing flag from the action all the same. *)
Theorem syncPlayer_survives_a_failing_backend
    (s : Endpoint) (p : Player) (action : string) (time : float) (ts : option float) :
  player s = Some p → playerRef p = true → isReady p = true →
  (be_getCurrentTime (backend (world s)) = None
   ∨ ∃ cur, be_getCurrentTime (backend (world s)) = Some cur
            ∧ PrimFloat.ltb (seekThreshold action)
                (PrimFloat.abs (compensatedTime (number_of_ms (Date_now s)) time ts - cur))
              = true
            ∧ be_accepts (backend (world s))
                (SeekTo (compensatedTime (number_of_ms (Date_now s)) time ts) true)
              = false) →
  calls (world (syncPlayer action time ts s)) = calls (world s)
  ∧ last (console (world (syncPlayer action time ts s)))
    = Some (ConsoleError "Error syncing player:")
  ∧ player (syncPlayer action time ts s) = Some (set_isSyncingRef true p)
  ∧ timers (world (syncPlayer action time ts s))
    = timers (world s)
      ++ [MkTimer (next_timer (world s)) (now (world s) + 150)%Z
                  (ClearSyncing (inst p)) None]
  ∧ (role (app s) = Some Client →
     calls (world (handleSyncEvent action time ts s)) = calls (world s)
     ∧ isPlaying (app (handleSyncEvent action time ts s))
       = (if String.eqb action "PLAY" then true
          else if String.eqb action "PAUSE" then false else isPlaying (app s))).
Proof.
  intros Hp Href Hready Hfail.
  destruct (syncPlayer_failed s p action time ts Hp Href Hready Hfail) as [Hcalls Hlog].
  destruct (syncPlayer_arms s p action time ts Hp Href Hready) as [Hflag Htimer].
  split_and!; [done..|].
  intros Hrole. unfold handleSyncEvent. ep_simpl. rewrite Hrole, Hp. simpl.
  set (s1 := console_log "Calling syncPlayer on client" _).
  assert (player s1 = Some p ∧ backend (world s1) = backend (world s)
          ∧ Date_now s1 = Date_now s ∧ calls (world s1) = calls (world s)
          ∧ app s1 = app s) as (Hp1 & Hb1 & Hn1 & Hc1 & Ha1) by done.
  destruct (syncPlayer_failed s1 p action time ts Hp1 Href Hready) as [Hcalls1 _].
  { by rewrite Hb1, Hn1. }
  destruct (syncPlayer_frame action time ts s1) as (_ & Happ & _).
  repeat case_match; ep_simpl; rewrite ?Happ, ?Ha1; split; congruence.
Qed.

Lemma syncPlayer_survives_a_failing_backend_witness :
  calls (world (syncPlayer "PLAY" 12.5 None client_failing))
  = calls (world client_failing)
  ∧ isPlaying (app (handleSyncEvent "PLAY" 12.5 None client_failing)) = true.
Proof.
  destruct (syncPlayer_survives_a_failing_backend client_failing
              (MkPlayer 0 true true false ("dQw4w9WgXcQ", true)) "PLAY" 12.5 None
              ltac:(vm_compute; reflexivity) ltac:(reflexivity) ltac:(reflexivity)
              ltac:(left; vm_compute; reflexivity)) as (Hcalls & _ & _ & _ & Hclient).
  split; [exact Hcalls|].
  rewrite (proj2 (Hclient ltac:(vm_compute; reflexivity))). reflexivity.
Defined.

Local Close Scope float_scope.

Lemma periodicSync_tick_failing s :
  be_getCurrentTime (backend (world s)) = None
  ∨ be_getPlayerState (backend (world s)) = None →
  sent (world (periodicSync_tick s)) = sent (world s)
  ∧ (backend_ready s = true → be_getCurrentTime (backend (world s)) = None →
     periodicSync_tick s = console_error "Error in periodic sync:" s)
  ∧ (be_getCurrentTime (backend (world s)) ≠ None →
     periodicSync_tick s = s).
Proof.
  intros Hfail. unfold periodicSync_tick, backend_ready, handle_getCurrentTime,
    handle_getPlayerState.
  destruct (player s) as [p|]; [|done].
  destruct (isReady p), (playerRef p); simpl; try done.
  destruct (be_getCurrentTime (backend (world s))) as [t|]; simpl; [|done].
  destruct Hfail as [?| ->]; done.
Qed.

(** X27. A backend that throws does not stop the periodic timer.  When it is due
    the timer fires and is due again 3 s after its deadline; a tick whose
    backend throws sends nothing.  If it is the position that cannot be read,
    the error is written to the console; if it is the state, the tick does
    nothing at all. *)
Theorem periodic_tick_survives_a_failing_backend
    (t0 : Z) (be : Backend) (evs : list Event) (s : Endpoint) (t : Timer) :
  run (init t0 be) evs = Some s →
  t ∈ periodic_timers s → due t ≤ now (world s) →
  be_getCurrentTime (backend (world s)) = None
  ∨ be_getPlayerState (backend (world s)) = None →
  (∃ s', step s (TimerFires (tid t)) = Some s'
     ∧ sent (world s') = sent (world s)
     ∧ periodic_timers s' = [MkTimer (tid t) (due t + 3000) PeriodicSync (Some 3000)])
  ∧ (backend_ready s = true → be_getCurrentTime (backend (world s)) = None →
     periodicSync_tick s = console_error "Error in periodic sync:" s)
  ∧ (be_getCurrentTime (backend (world s)) ≠ None → periodicSync_tick s = s).
Proof.
  intros Hrun Ht Hdue Hfail.
  pose proof (reachable_Rendered _ _ _ _ Hrun) as Hr.
  destruct (Rendered_periodic s Hr) as [_ Hall].
  destruct (Hall t Ht) as (_ & _ & Hm & _).
  destruct (periodic_tick_step s t Hr Hm Ht Hdue) as (s' & Hstep & Htimers & Hsent & _).
  destruct (periodicSync_tick_failing s Hfail) as (Hsilent & Herr & Hnone).
  split_and!; [|done..]. exists s'. split_and!; [done| |done]. congruence.
Qed.

Lemma periodic_tick_survives_a_failing_backend_witness :
  ∃ s', step (after 1700000000000 (backend_at 10 1) host_backend_fails) (TimerFires 1)
        = Some s'
        ∧ sent (world s')
          = sent (world (after 1700000000000 (backend_at 10 1) host_backend_fails))
        ∧ periodic_timers s' = [MkTimer 1 1700000006000 PeriodicSync (Some 3000)].
Proof.
  destruct (periodic_tick_survives_a_failing_backend 1700000000000 (backend_at 10 1)
              host_backend_fails
              (after 1700000000000 (backend_at 10 1) host_backend_fails)
              (MkTimer 1 1700000003000 PeriodicSync (Some 3000))
              ltac:(vm_compute; reflexivity) ltac:(vm_compute; repeat constructor)
              ltac:(vm_compute; discriminate) ltac:(left; vm_compute; reflexivity))
    as ((s' & Hstep & Hsent & Htimers) & _).
  exists s'. split_and!; [exact Hstep | exact Hsent | exact Htimers].
Defined.

End BehaviourFacts.

(** ** Facts about the relay's HTTP side *)

Module StaticFilesFacts.
Import StaticFiles.

Section Handler.

Variable path_join : string → string → string.
Variable path_extname : string → string.
Variable CLIENT_BUILD_PATH : string.

(** [path.join] keeps [index.html] inside the build directory. *)
Hypothesis index_inside :
  String.prefix CLIENT_BUILD_PATH (path_join CLIENT_BUILD_PATH "index.html") = true.

(** X28. An answer with status 200 carries the contents of a file whose path
    starts with the build directory: the file that was asked for if that is a
    regular file, [index.html] otherwise (so that the routes of the client
    are served its page).  Its content type is looked up from the extension
    of the file that was read, not of the path that was asked for. *)
Theorem served_file_is_under_the_build_path
    (fs : FileSystem) (req : Request) (ct : option string) (body : Body) :
  handler path_join path_extname CLIENT_BUILD_PATH fs req = Respond 200 ct body →
  let path := served_path path_join CLIENT_BUILD_PATH fs req in
  String.prefix CLIENT_BUILD_PATH path = true
  ∧ (∃ data, readFile fs path = Some data ∧ body = FileData data)
  ∧ ct = Some (contentType (path_extname path))
  ∧ headers_upgrade req ≠ Some "websocket".
Proof.
  intros Hresp path. subst path. revert Hresp. unfold handler, served_path.
  case_bool_decide as Hup; [done|].
  destruct (existsSync fs CLIENT_BUILD_PATH); [|done]. simpl.
  set (asked := path_join CLIENT_BUILD_PATH _).
  destruct (String.prefix CLIENT_BUILD_PATH asked) eqn:Hprefix; [|done]. simpl.
  destruct (isFile fs asked).
  - destruct (readFile fs asked) as [data|]; [|done]. intros [= <- <-].
    split_and!; eauto.
  - destruct (readFile fs (path_join CLIENT_BUILD_PATH "index.html")) as [data|] eqn:Hread;
      [|done].
    intros [= <- <-]. split_and!; eauto.
Qed.

End Handler.

Lemma served_file_is_under_the_build_path_witness :
  handler sample_join sample_extname dist sample_fs (MkRequest None "/rooms/42")
  = Respond 200 (Some "text/html") (FileData "<!doctype html>")
  ∧ String.prefix dist
      (served_path sample_join dist sample_fs (MkRequest None "/rooms/42")) = true.
Proof.
  split; [reflexivity|].
  exact (proj1 (served_file_is_under_the_build_path sample_join sample_extname dist
                  eq_refl sample_fs (MkRequest None "/rooms/42")
                  (Some "text/html") (FileData "<!doctype html>") eq_refl)).
Defined.

End StaticFilesFacts.

